(** * torch_explain.nn.logic: a shallow embedding of the layer module

    The module [torch_explain/nn/logic.py] defines four classes:
    [ConceptAwareness], [Logic], [Sequential] and [Attention].  Their
    [forward] methods are straight-line tensor programs that may raise and
    that assign a few attributes of [self] on the way.

    The embedding follows that shape:
    - a tensor is its size list together with its elements in row-major
      order, which is what [view], [unsqueeze] and [squeeze] see;
    - every tensor operation that can raise returns a [result];
    - an instance is a record, and [forward] returns the outcome together
      with the instance as the call leaves it, so that what has been
      assigned before a raise stays visible.

    Elements are taken from a [Scalar] structure.  Sizes, errors and
    attribute updates never look at the elements, so those results hold for
    any structure; the gating properties are proved over the reals, that is
    for the arithmetic the floating-point operations approximate (rounding,
    overflow and NaN are not modelled, nor is the element dtype). *)

From Stdlib Require Import String.
From Stdlib Require Import List Arith Bool ZArith Lia Reals Lra.
From Stdlib Require DecimalNat DecimalString.
Import ListNotations.

Set Implicit Arguments.

(** ** Outcomes *)

(** The exceptions that the modelled operations raise. *)
Inductive error : Type :=
| TypeError
| RuntimeError
| IndexError
| ZeroDivisionError.

Inductive result (A : Type) : Type :=
| Ok (a : A)
| Err (e : error).

Arguments Ok {A} a.
Arguments Err {A} e.

Definition rbind {A B : Type} (r : result A) (k : A -> result B) : result B :=
  match r with
  | Ok a => k a
  | Err e => Err e
  end.

Notation "x <- r ;; k" := (rbind r (fun x => k))
  (at level 61, r at next level, right associativity).

Definition is_ok {A : Type} (r : result A) : bool :=
  match r with Ok _ => true | Err _ => false end.

Definition raises {A : Type} (r : result A) : Prop := exists e, r = Err e.

(** ** Scalars *)

(** The element operations the layers use.  [sofnat] is the conversion of an
    element count, which [mean] divides by. *)
Class Scalar (F : Type) : Type := {
  szero : F;
  sadd : F -> F -> F;
  smul : F -> F -> F;
  sdiv : F -> F -> F;
  sexp : F -> F;
  ssqrt : F -> F;
  smax : F -> F -> F;
  sofnat : nat -> F
}.

#[export] Instance R_scalar : Scalar R := {
  szero := 0%R;
  sadd := Rplus;
  smul := Rmult;
  sdiv := Rdiv;
  sexp := exp;
  ssqrt := sqrt;
  smax := Rmax;
  sofnat := INR
}.

(** ** Sizes and row-major indices *)

Definition numel (s : list nat) : nat := fold_right Nat.mul 1 s.

(** Multi-index of the flat position [k] in a tensor of size [s]. *)
Fixpoint unravel (s : list nat) (k : nat) : list nat :=
  match s with
  | [] => []
  | _ :: s' => k / numel s' :: unravel s' (k mod numel s')
  end.

(** Flat position of a multi-index. *)
Fixpoint ravel (s idx : list nat) : nat :=
  match s, idx with
  | _ :: s', i :: idx' => i * numel s' + ravel s' idx'
  | _, _ => 0
  end.

(** Broadcasting of one pair of sizes. *)
Definition bdim (a b : nat) : option nat :=
  if a =? b then Some a
  else if a =? 1 then Some b
  else if b =? 1 then Some a
  else None.

(** Broadcasting of two size lists, both given last dimension first. *)
Fixpoint bshape_rev (a b : list nat) : option (list nat) :=
  match a, b with
  | [], _ => Some b
  | _, [] => Some a
  | x :: a', y :: b' =>
      match bdim x y, bshape_rev a' b' with
      | Some d, Some r => Some (d :: r)
      | _, _ => None
      end
  end.

Definition broadcast_shapes (a b : list nat) : option (list nat) :=
  option_map (@rev nat) (bshape_rev (rev a) (rev b)).

(** Position read in an operand of size [s] for the flat position [k] of a
    result of size [rs]: sizes are aligned on the right, and a dimension of
    size 1 is read at index 0. *)
Fixpoint bpick (s idx : list nat) : list nat :=
  match s, idx with
  | d :: s', i :: idx' => (if d =? 1 then 0 else i) :: bpick s' idx'
  | _, _ => []
  end.

Definition bidx (rs s : list nat) (k : nat) : nat :=
  ravel s (bpick s (skipn (length rs - length s) (unravel rs k))).

(** Resolution of a possibly negative dimension argument against [r]
    admissible positions. *)
Definition wrap_dim (r : nat) (d : Z) : result nat :=
  if ((- Z.of_nat r <=? d) && (d <? Z.of_nat r))%Z
  then Ok (Z.to_nat (if (d <? 0)%Z then d + Z.of_nat r else d))
  else Err IndexError.

Definition remove_nth {A : Type} (n : nat) (l : list A) : list A :=
  firstn n l ++ skipn (S n) l.

Definition insert_nth {A : Type} (n : nat) (a : A) (l : list A) : list A :=
  firstn n l ++ a :: skipn n l.

Definition tabulate {A : Type} (n : nat) (f : nat -> A) : list A :=
  map f (seq 0 n).


(** ** Tensors *)

Section Tensors.

Context {F : Type} {SF : Scalar F}.

(** A tensor: its sizes and its elements in row-major order.  The tensors
    the library builds satisfy [wf]. *)
Record Tensor : Type := mkTensor {
  shape : list nat;
  data : list F
}.

Definition wf (t : Tensor) : Prop := length (data t) = numel (shape t).

Definition rank (t : Tensor) : nat := length (shape t).

(** Element at a flat position ([szero] past the end, which no operation
    reads on a tensor that satisfies [wf]). *)
Definition at_ (t : Tensor) (k : nat) : F := nth k (data t) szero.

(** Element at a multi-index. *)
Definition get (t : Tensor) (idx : list nat) : F := at_ t (ravel (shape t) idx).

Definition ssum (l : list F) : F := fold_right sadd szero l.

Definition smaximum (l : list F) : F :=
  match l with
  | [] => szero
  | a :: l' => fold_left smax l' a
  end.

(** *** Reshaping *)

(** [t.unsqueeze(d)]: a dimension of size 1 inserted at position [d], which
    ranges over [-(rank+1) .. rank]. *)
Definition unsqueeze (d : Z) (t : Tensor) : result Tensor :=
  p <- wrap_dim (S (rank t)) d ;;
  Ok (mkTensor (insert_nth p 1 (shape t)) (data t)).

(** [t.squeeze()]: every dimension of size 1 removed. *)
Definition squeeze (t : Tensor) : Tensor :=
  mkTensor (filter (fun d => negb (d =? 1)) (shape t)) (data t).

(** [t.squeeze(d)]: dimension [d] removed when its size is 1.  A tensor of
    rank 0 accepts [d] in [-1 .. 0] and is returned as it is. *)
Definition squeeze_dim (d : Z) (t : Tensor) : result Tensor :=
  p <- wrap_dim (Nat.max 1 (rank t)) d ;;
  Ok (if nth p (shape t) 0 =? 1
      then mkTensor (remove_nth p (shape t)) (data t)
      else t).

(** [t.view(n, -1)] on a contiguous tensor: the second size is inferred,
    which needs [n] positive and a divisor of the number of elements. *)
Definition view_rows (n : nat) (t : Tensor) : result Tensor :=
  let m := numel (shape t) in
  if (0 <? n) && (m mod n =? 0)
  then Ok (mkTensor [n; m / n] (data t))
  else Err RuntimeError.

(** [t.t()]: a tensor of rank below 2 is returned as it is, a matrix is
    transposed, anything else is refused. *)
Definition transpose (t : Tensor) : result Tensor :=
  match shape t with
  | [] | [_] => Ok t
  | [n; m] =>
      Ok (mkTensor [m; n] (tabulate (m * n) (fun q => at_ t (q mod n * m + q / n))))
  | _ => Err RuntimeError
  end.

(** [t.permute(0, 2, 1)]: the rank must be 3. *)
Definition permute021 (t : Tensor) : result Tensor :=
  match shape t with
  | [a; b; c] =>
      Ok (mkTensor [a; c; b]
            (tabulate (a * (c * b))
               (fun q => at_ t ((q / (c * b) * b + q mod b) * c + q / b mod c))))
  | _ => Err RuntimeError
  end.

(** *** Elementwise operations with broadcasting *)

Definition binop (f : F -> F -> F) (a b : Tensor) : result Tensor :=
  match broadcast_shapes (shape a) (shape b) with
  | Some rs =>
      Ok (mkTensor rs
            (tabulate (numel rs)
               (fun k => f (at_ a (bidx rs (shape a) k)) (at_ b (bidx rs (shape b) k)))))
  | None => Err RuntimeError
  end.

Definition tadd : Tensor -> Tensor -> result Tensor := binop sadd.
Definition tmul : Tensor -> Tensor -> result Tensor := binop smul.
Definition tdiv : Tensor -> Tensor -> result Tensor := binop sdiv.

(** [a + b] where [b] may be [None]: Python finds no addition between a
    tensor and [None]. *)
Definition add_optional (a : Tensor) (b : option Tensor) : result Tensor :=
  match b with
  | Some b' => tadd a b'
  | None => Err TypeError
  end.

Definition tmap (f : F -> F) (t : Tensor) : Tensor :=
  mkTensor (shape t) (map f (data t)).

(** *** Operations along one dimension

    The dimension argument of the four operations below is resolved against
    the rank; the layers never apply them to a tensor of rank 0. *)

(** The size of dimension [d], and the number of elements before and after
    it. *)
Definition dim_size (s : list nat) (d : nat) : nat := nth d s 0.
Definition outer_numel (s : list nat) (d : nat) : nat := numel (firstn d s).
Definition inner_numel (s : list nat) (d : nat) : nat := numel (skipn (S d) s).

(** The elements along dimension [d] that reduce into position [j] of the
    result. *)
Definition lane (t : Tensor) (d j : nat) : list F :=
  let n := dim_size (shape t) d in
  let inner := inner_numel (shape t) d in
  map (fun k => at_ t ((j / inner * n + k) * inner + j mod inner)) (seq 0 n).

Definition reduce_dim (g : list F -> F) (p : nat) (t : Tensor) : Tensor :=
  mkTensor (remove_nth p (shape t))
    (tabulate (outer_numel (shape t) p * inner_numel (shape t) p)
       (fun j => g (lane t p j))).

(** [t.norm(dim=d)]: the 2-norm along [d]. *)
Definition norm_dim (d : Z) (t : Tensor) : result Tensor :=
  p <- wrap_dim (rank t) d ;;
  Ok (reduce_dim (fun l => ssqrt (ssum (map (fun x => smul x x) l))) p t).

(** [t.mean(dim=d)]. *)
Definition mean_dim (d : Z) (t : Tensor) : result Tensor :=
  p <- wrap_dim (rank t) d ;;
  Ok (reduce_dim (fun l => sdiv (ssum l) (sofnat (length l))) p t).

(** [t.max(dim=d)[0]]: refused when dimension [d] is empty. *)
Definition max_dim (d : Z) (t : Tensor) : result Tensor :=
  p <- wrap_dim (rank t) d ;;
  if dim_size (shape t) p =? 0 then Err IndexError
  else Ok (reduce_dim smaximum p t).

(** [torch.softmax(t, dim=d)]: every element is replaced by its exponential
    over the sum of the exponentials along [d]. *)
Definition softmax_dim (d : Z) (t : Tensor) : result Tensor :=
  p <- wrap_dim (rank t) d ;;
  let n := dim_size (shape t) p in
  let inner := inner_numel (shape t) p in
  Ok (mkTensor (shape t)
        (tabulate (numel (shape t))
           (fun k =>
              sdiv (sexp (at_ t k))
                (ssum (map sexp (lane t p (k / (n * inner) * inner + k mod inner))))))).

(** *** Matrix product *)

(** [a.matmul(b)], [a @ b]: a vector on the left gets a leading 1 and a
    vector on the right a trailing 1, both removed from the result; the
    leading (batch) sizes are broadcast and the inner sizes must agree. *)
Definition matmul (a b : Tensor) : result Tensor :=
  let ra := rank a in
  let rb := rank b in
  if (ra =? 0) || (rb =? 0) then Err RuntimeError else
  let sa := if ra =? 1 then 1 :: shape a else shape a in
  let sb := if rb =? 1 then shape b ++ [1] else shape b in
  let ba := firstn (length sa - 2) sa in
  let bb := firstn (length sb - 2) sb in
  let n := nth (length sa - 2) sa 0 in
  let m := nth (length sa - 1) sa 0 in
  let m' := nth (length sb - 2) sb 0 in
  let p := nth (length sb - 1) sb 0 in
  if m =? m' then
    match broadcast_shapes ba bb with
    | Some bs =>
        Ok (mkTensor
              (bs ++ (if ra =? 1 then [] else [n]) ++ (if rb =? 1 then [] else [p]))
              (tabulate (numel bs * (n * p))
                 (fun k =>
                    let j := k / (n * p) in
                    let r := k / p mod n in
                    let c := k mod p in
                    ssum (map (fun i =>
                                 smul (at_ a (bidx bs ba j * (n * m) + r * m + i))
                                      (at_ b (bidx bs bb j * (m * p) + i * p + c)))
                              (seq 0 m)))))
    | None => Err RuntimeError
    end
  else Err RuntimeError.

End Tensors.

Arguments Tensor F : clear implicits.

(** ** Methods that assign attributes and may raise *)

(** A method body over an instance of type [S]: it ends with a value or an
    exception, and with the instance as the assignments made so far left
    it. *)
Definition meth (S A : Type) : Type := S -> result A * S.

Definition mret {S A : Type} (a : A) : meth S A := fun s => (Ok a, s).

Definition mbind {S A B : Type} (m : meth S A) (k : A -> meth S B) : meth S B :=
  fun s =>
    match m s with
    | (Ok a, s') => k a s'
    | (Err e, s') => (Err e, s')
    end.

(** A tensor expression evaluated inside a method. *)
Definition eval {S A : Type} (r : result A) : meth S A := fun s => (r, s).

(** An expression that reads attributes of [self]. *)
Definition eval_self {S A : Type} (f : S -> result A) : meth S A := fun s => (f s, s).

(** An attribute assignment. *)
Definition assign {S : Type} (f : S -> S) : meth S unit := fun s => (Ok tt, f s).

(** A branch on an attribute of [self]. *)
Definition mif {S A : Type} (c : S -> bool) (m1 m2 : meth S A) : meth S A :=
  fun s => if c s then m1 s else m2 s.

Declare Scope meth_scope.
Delimit Scope meth_scope with meth.

Notation "x <~ m ;; k" := (mbind m (fun x => k))
  (at level 61, m at next level, right associativity) : meth_scope.
Notation "m ;;; k" := (mbind m (fun _ => k))
  (at level 61, right associativity) : meth_scope.

(** ** Conceptizator *)

Module Conceptizator.
Section Defs.

Context {F : Type} {SF : Scalar F}.

(** The fuzzy activation, for which the specification gives no formula. *)
Variable fuzzy : F -> F.

(** Modelled from the spec: the class [Conceptizator] of [nn/concepts.py],
    whose source is not available.  An instance holds the name of its
    activation and the [concepts] snapshot, the last input it was called
    on. *)
Record t : Type := mk {
  activation : string;
  concepts : option (Tensor F)
}.

(** Modelled from the spec: the constructor, which is given the name of the
    activation; no snapshot has been taken yet. *)
Definition new (activation : string) : t := mk activation None.

Definition set_concepts (x : Tensor F) (c : t) : t :=
  mk (activation c) (Some x).

(** Modelled from the spec: the nonlinearity a name selects.  [identity] and
    [identity_bool] pass the element through, [relu] is the rectifier, and
    the remaining mode is the fuzzy one. *)
Definition activation_of (name : string) : F -> F :=
  if (String.eqb name "identity" || String.eqb name "identity_bool")%bool
  then fun x => x
  else if String.eqb name "relu" then smax szero
  else fuzzy.

(** Modelled from the spec: a call stores the input as [concepts], over any
    previous value, and returns the input with the selected nonlinearity
    applied to every element. *)
Definition call (x : Tensor F) : meth t (Tensor F) :=
  (assign (set_concepts x) ;;;
   eval_self (fun c => Ok (tmap (activation_of (activation c)) x)))%meth.

End Defs.
End Conceptizator.

(** ** Parameter allocation *)

Section Init.

Context {F : Type} {SF : Scalar F}.

(** A tensor of size [s] filled by an initialiser; [draw] gives the values it
    writes, position by position. *)
Definition fresh (s : list nat) (draw : nat -> F) : Tensor F :=
  mkTensor s (tabulate (numel s) draw).

(** [init._calculate_fan_in_and_fan_out(w)[0]] for a tensor of rank 2 or
    more: the second size times the sizes after it. *)
Definition fan_in (s : list nat) : nat := nth 1 s 0 * numel (skipn 2 s).

End Init.

(** ** Formatting *)

(** [str.format] on an integer that is not negative and on a boolean. *)
Definition format_nat (n : nat) : string :=
  DecimalString.NilEmpty.string_of_uint (Nat.to_uint n).

Definition format_bool (b : bool) : string :=
  if b then "True"%string else "False"%string.

(** ** ConceptAwareness *)

Module ConceptAwareness.
Section Defs.

Context {F : Type} {SF : Scalar F}.

(** The attributes of an instance.  [gamma], [alpha] and [beta] are [None]
    both when the attribute holds [None] and when it has not been assigned
    yet.  Sizes are naturals: a negative size is refused by the allocation
    of the weight. *)
Record t : Type := mk {
  in_features : nat;
  out_features : nat;
  n_classes : nat;
  n_heads : option Z;
  top : bool;
  awareness : bool;
  conceptizator : Conceptizator.t (F:=F);
  shrink : bool;
  gamma : option (Tensor F);
  alpha : option (Tensor F);
  beta : option (Tensor F);
  weight : Tensor F;
  bias : option (Tensor F)
}.

Definition concepts (l : t) : option (Tensor F) :=
  Conceptizator.concepts (conceptizator l).

Definition set_concepts (x : Tensor F) (l : t) : t :=
  mk (in_features l) (out_features l) (n_classes l) (n_heads l) (top l)
     (awareness l) (Conceptizator.set_concepts x (conceptizator l)) (shrink l)
     (gamma l) (alpha l) (beta l) (weight l) (bias l).

Definition set_gamma (g : Tensor F) (l : t) : t :=
  mk (in_features l) (out_features l) (n_classes l) (n_heads l) (top l)
     (awareness l) (conceptizator l) (shrink l)
     (Some g) (alpha l) (beta l) (weight l) (bias l).

Definition set_alpha (a : Tensor F) (l : t) : t :=
  mk (in_features l) (out_features l) (n_classes l) (n_heads l) (top l)
     (awareness l) (conceptizator l) (shrink l)
     (gamma l) (Some a) (beta l) (weight l) (bias l).

Definition set_beta (b : Tensor F) (l : t) : t :=
  mk (in_features l) (out_features l) (n_classes l) (n_heads l) (top l)
     (awareness l) (conceptizator l) (shrink l)
     (gamma l) (alpha l) (Some b) (weight l) (bias l).

Definition set_awareness (a : bool) (l : t) : t :=
  mk (in_features l) (out_features l) (n_classes l) (n_heads l) (top l)
     a (conceptizator l) (shrink l)
     (gamma l) (alpha l) (beta l) (weight l) (bias l).

Definition set_n_heads (h : option Z) (l : t) : t :=
  mk (in_features l) (out_features l) (n_classes l) h (top l)
     (awareness l) (conceptizator l) (shrink l)
     (gamma l) (alpha l) (beta l) (weight l) (bias l).

(** [reset_parameters], on the two attributes it works on.  The weight is
    refilled ([kaiming_uniform_] leaves a tensor without elements as it is);
    when there is a bias, the bound [1 / math.sqrt(fan_in)] is computed,
    which divides by zero when [fan_in] is 0, and the bias is refilled. *)
Definition reset_parameters (wdraw bdraw : nat -> F)
    (weight : Tensor F) (bias : option (Tensor F))
  : result (Tensor F * option (Tensor F)) :=
  let weight := fresh (shape weight) wdraw in
  match bias with
  | Some b =>
      if fan_in (shape weight) =? 0 then Err ZeroDivisionError
      else Ok (weight, Some (fresh (shape b) bdraw))
  | None => Ok (weight, None)
  end.

(** [__init__].  The constructor of [Linear] allocates a weight of size
    (out, in) and a bias of size (out) and calls [reset_parameters], which
    is already the method of this class; both tensors are then replaced by
    the per-class ones and [reset_parameters] runs again.  [wdraw] and
    [bdraw] are the values the initialisers write into the final weight and
    bias. *)
Definition init (in_features out_features n_classes : nat) (awareness : bool)
    (n_heads : option Z) (top bias : bool) (wdraw bdraw : nat -> F) : result t :=
  _ <- reset_parameters wdraw bdraw
         (fresh [out_features; in_features] wdraw)
         (if bias then Some (fresh [out_features] bdraw) else None) ;;
  let conceptizator := Conceptizator.new "identity_bool" in
  let weight := fresh [n_classes; out_features; in_features] wdraw in
  let bias := if bias then Some (fresh [n_classes; 1; out_features] bdraw) else None in
  wb <- reset_parameters wdraw bdraw weight bias ;;
  match n_heads with
  | Some _ =>
      Ok (mk in_features out_features n_classes n_heads top awareness
            conceptizator true None None None (fst wb) (snd wb))
  | None =>
      Ok (mk in_features out_features n_classes n_heads top awareness
            conceptizator false None None None (fst wb) (snd wb))
  end.

(** The input as line 50-51 leaves it: a tensor of rank 2 gets a leading
    dimension of size 1. *)
Definition promote (input : Tensor F) : result (Tensor F) :=
  if rank input =? 2 then unsqueeze 0 input else Ok input.

(** [forward]. *)
Definition forward (input : Tensor F) : meth t (Tensor F) :=
  (input <~ eval (promote input) ;;
   assign (set_concepts input) ;;;
   x <~ mif shrink
          (g <~ eval_self (fun self => norm_dim 1 (weight self)) ;;
           assign (set_gamma g) ;;;
           a <~ eval (softmax_dim 1 g) ;;
           assign (set_alpha a) ;;;
           b <~ eval (m <- max_dim 1 a ;; m <- unsqueeze 1 m ;; tdiv a m) ;;
           assign (set_beta b) ;;;
           x <~ eval (b <- unsqueeze 1 b ;; tmul input b) ;;
           eval_self (fun self =>
                        w <- permute021 (weight self) ;;
                        x <- matmul x w ;;
                        add_optional x (bias self)))
          (eval_self (fun self =>
                        w <- permute021 (weight self) ;;
                        x <- matmul input w ;;
                        add_optional x (bias self))) ;;
   mif top
     (x <~ eval_self (fun self => x <- view_rows (n_classes self) x ;; transpose x) ;;
      assign (set_concepts x) ;;;
      mret x)
     (mret x))%meth.

(** [extra_repr]. *)
Definition extra_repr (self : t) : string :=
  ("in_features=" ++ format_nat (in_features self) ++
   ", out_features=" ++ format_nat (out_features self) ++
   ", n_classes=" ++ format_nat (n_classes self) ++
   ", shrink=" ++ format_bool (shrink self) ++
   ", top=" ++ format_bool (top self))%string.

End Defs.
End ConceptAwareness.

(** ** Logic *)

Module Logic.
Section Defs.

Context {F : Type} {SF : Scalar F}.
Variable fuzzy : F -> F.

Record t : Type := mk {
  in_features : nat;
  out_features : nat;
  top : bool;
  conceptizator : Conceptizator.t (F:=F);
  activation : string;
  weight : Tensor F;
  bias : option (Tensor F)
}.

Definition set_conceptizator (c : Conceptizator.t) (l : t) : t :=
  mk (in_features l) (out_features l) (top l) c (activation l) (weight l) (bias l).

Definition set_weight (w : Tensor F) (l : t) : t :=
  mk (in_features l) (out_features l) (top l) (conceptizator l) (activation l) w (bias l).

Definition set_bias (b : option (Tensor F)) (l : t) : t :=
  mk (in_features l) (out_features l) (top l) (conceptizator l) (activation l) (weight l) b.

(** [torch.nn.functional.linear(x, weight, bias)]: [x] times the transposed
    weight, plus the bias when there is one. *)
Definition linear (x weight : Tensor F) (bias : option (Tensor F)) : result (Tensor F) :=
  w <- transpose weight ;;
  y <- matmul x w ;;
  match bias with
  | Some b => tadd y b
  | None => Ok y
  end.

(** [self.conceptizator(input)]: the call runs on the conceptizator the
    instance holds and leaves it updated there. *)
Definition call_conceptizator (input : Tensor F) : meth t (Tensor F) :=
  fun self =>
    let (r, c) := Conceptizator.call fuzzy input (conceptizator self) in
    (r, set_conceptizator c self).

(** [forward]. *)
Definition forward (input : Tensor F) : meth t (Tensor F) :=
  (x <~ call_conceptizator input ;;
   mif (fun self => negb (top self))
     (eval_self (fun self => linear x (weight self) (bias self)))
     (mret x))%meth.

End Defs.
End Logic.

(** ** Attention *)

Module Attention.
Section Defs.

Context {F : Type} {SF : Scalar F}.

Record t : Type := mk {
  in_features : nat;
  out_features : nat;
  n_classes : nat;
  first : bool;
  d_key_query : nat;
  d_value : nat;
  w_key : Tensor F;
  w_query : Tensor F;
  w_value : Tensor F;
  weight : Tensor F;
  bias : Tensor F;
  attn_scores_softmax : option (Tensor F)
}.

Definition set_attn_scores_softmax (s : Tensor F) (a : t) : t :=
  mk (in_features a) (out_features a) (n_classes a) (first a) (d_key_query a)
     (d_value a) (w_key a) (w_query a) (w_value a) (weight a) (bias a) (Some s).

(** [__init__]: the five parameters are allocated with the sizes below and
    filled by [reset_parameters]; [draw] gives, for each of them in turn,
    the values written. *)
Definition init (in_features out_features n_classes : nat) (first : bool)
    (draw : nat -> nat -> F) : t :=
  let d_key_query := 5 in
  let d_value := 1 in
  mk in_features out_features n_classes first d_key_query d_value
     (fresh [n_classes; 1; 1; d_key_query] (draw 0))
     (fresh [n_classes; 1; d_key_query] (draw 1))
     (fresh [n_classes; 1; d_value] (draw 2))
     (fresh [n_classes; 1; in_features; out_features] (draw 3))
     (fresh [n_classes; 1; out_features] (draw 4))
     None.

(** Lines 130-138 up to the softmax: the values and the averaged attention
    scores after normalisation. *)
Definition scores (self : t) (x y : Tensor F) : result (Tensor F * Tensor F) :=
  x <- (if first self then unsqueeze 0 x else Ok x) ;;
  y <- transpose y ;;
  xk <- unsqueeze (-1) x ;;
  keys <- matmul xk (w_key self) ;;
  yq <- unsqueeze (-1) y ;;
  querys <- matmul yq (w_query self) ;;
  values <- tmul x (w_value self) ;;
  q <- unsqueeze (-1) querys ;;
  attn_scores <- matmul keys q ;;
  m <- mean_dim 1 attn_scores ;;
  attn_scores_avg <- permute021 m ;;
  s <- softmax_dim (-1) attn_scores_avg ;;
  Ok (values, s).

(** The factor of line 139: the stored scores over their maximum along
    dimension 2. *)
Definition rescaled (s : Tensor F) : result (Tensor F) :=
  m <- max_dim 2 s ;;
  m <- unsqueeze (-1) m ;;
  tdiv s m.

(** [forward]. *)
Definition forward (x y : Tensor F) : meth t (Tensor F) :=
  (vs <~ eval_self (fun self => scores self x y) ;;
   assign (set_attn_scores_softmax (snd vs)) ;;;
   weighted_values <~ eval (r <- rescaled (snd vs) ;; tmul (fst vs) r) ;;
   mif (fun self => 1 <? out_features self)
     (eval_self (fun self =>
                   w <- unsqueeze (-2) weighted_values ;;
                   p <- matmul w (weight self) ;;
                   tadd (squeeze p) (bias self)))
     (eval_self (fun self =>
                   w <- unsqueeze (-2) weighted_values ;;
                   p <- matmul w (weight self) ;;
                   p <- squeeze_dim (-1) p ;;
                   tadd p (bias self))))%meth.

End Defs.
End Attention.

(** ** Sequential *)

Module Sequential.
Section Defs.

Context {F : Type} {SF : Scalar F}.
Variable fuzzy : F -> F.

(** The modules a container may hold: the three layers of this file, and
    any other module, which is called with one tensor. *)
Inductive module : Type :=
| MConceptAwareness (l : ConceptAwareness.t (F:=F))
| MLogic (l : Logic.t (F:=F))
| MAttention (a : Attention.t (F:=F))
| MOther (f : Tensor F -> result (Tensor F)).

Definition is_Attention (m : module) : bool :=
  match m with MAttention _ => true | _ => false end.

(** [module(x)]: the call passes its one argument to [forward].  The
    [forward] of [Attention] has a second required parameter, so the call
    raises before the body runs. *)
Definition call1 (m : module) (x : Tensor F) : result (Tensor F) * module :=
  match m with
  | MConceptAwareness l =>
      let (r, l') := ConceptAwareness.forward x l in (r, MConceptAwareness l')
  | MLogic l =>
      let (r, l') := Logic.forward fuzzy x l in (r, MLogic l')
  | MAttention a => (Err TypeError, MAttention a)
  | MOther f => (f x, MOther f)
  end.

(** [module(x, y)], which the container only writes for an [Attention]. *)
Definition call2 (m : module) (x y : Tensor F) : result (Tensor F) * module :=
  match m with
  | MAttention a =>
      let (r, a') := Attention.forward x y a in (r, MAttention a')
  | _ => (Err TypeError, m)
  end.

(** What the container did with the module at a position: called it with
    [x] alone or with [x] and [y]. *)
Inductive call : Type :=
| CallX (position : nat)
| CallXY (position : nat).

Record outcome : Type := mkOutcome {
  returned : result (Tensor F);
  modules : list module;
  calls : list call
}.

(** The loop of [forward], from position [i] on. *)
Fixpoint run (i : nat) (ms : list module) (x y : Tensor F) (train : bool) : outcome :=
  match ms with
  | [] => mkOutcome (Ok x) [] []
  | m :: ms' =>
      if is_Attention m && train then
        match call2 m x y with
        | (Ok x', m') =>
            let o := run (S i) ms' x' y train in
            mkOutcome (returned o) (m' :: modules o) (CallXY i :: calls o)
        | (Err e, m') => mkOutcome (Err e) (m' :: ms') [CallXY i]
        end
      else
        match call1 m x with
        | (Ok x', m') =>
            let o := run (S i) ms' x' y train in
            mkOutcome (returned o) (m' :: modules o) (CallX i :: calls o)
        | (Err e, m') => mkOutcome (Err e) (m' :: ms') [CallX i]
        end
  end.

(** [forward(input, train)] with [input] the pair [(x, y)]. *)
Definition forward (ms : list module) (input : Tensor F * Tensor F) (train : bool) : outcome :=
  let (x, y) := input in
  run 0 ms x y train.

End Defs.
End Sequential.

(** ** The demonstration at the end of the module *)

Section Demonstration.

Context {F : Type} {SF : Scalar F}.

(** [t.view(-1, n)] on a contiguous tensor: the first size is inferred,
    which needs [n] positive and a divisor of the number of elements. *)
Definition view_cols (n : nat) (t : Tensor F) : result (Tensor F) :=
  let m := numel (shape t) in
  if (0 <? n) && (m mod n =? 0)
  then Ok (mkTensor [m / n; n] (data t))
  else Err RuntimeError.

(** Lines 171-172: the output of a layer, reshaped to [n_classes]
    columns. *)
Definition forward_view (l : ConceptAwareness.t (F:=F)) (x : Tensor F) : result (Tensor F) :=
  out <- fst (ConceptAwareness.forward x l) ;;
  view_cols (ConceptAwareness.n_classes l) out.

End Demonstration.

(** ** Auxiliary notions used in the statements *)

Section Aux.

Context {F : Type} {SF : Scalar F}.

(** The tensor that [ConceptAwareness.promote] returns. *)
Definition promoted (input : Tensor F) : Tensor F :=
  if rank input =? 2 then mkTensor (1 :: shape input) (data input) else input.

(** Two instances that agree on everything [forward] does not assign. *)
Definition same_parameters (l l' : ConceptAwareness.t (F:=F)) : Prop :=
  ConceptAwareness.in_features l' = ConceptAwareness.in_features l /\
  ConceptAwareness.out_features l' = ConceptAwareness.out_features l /\
  ConceptAwareness.n_classes l' = ConceptAwareness.n_classes l /\
  ConceptAwareness.n_heads l' = ConceptAwareness.n_heads l /\
  ConceptAwareness.top l' = ConceptAwareness.top l /\
  ConceptAwareness.awareness l' = ConceptAwareness.awareness l /\
  ConceptAwareness.shrink l' = ConceptAwareness.shrink l /\
  ConceptAwareness.weight l' = ConceptAwareness.weight l /\
  ConceptAwareness.bias l' = ConceptAwareness.bias l.

(** The [j]-th run of [K] consecutive elements: a lane along the last
    dimension when that dimension has size [K]. *)
Definition row (t : Tensor F) (K j : nat) : list F :=
  map (fun i => at_ t (j * K + i)) (seq 0 K).

(** The reading under which the norms of line 55 are taken per class and
    per output feature: the 2-norm along dimension 2 of the weight, that of
    the input features. *)
Definition gamma_per_output_feature (weight : Tensor F) : result (Tensor F) :=
  norm_dim 2 weight.

(** An instance whose weight and bias have the sizes [__init__] gives
    them. *)
Definition well_shaped (l : ConceptAwareness.t (F:=F)) : Prop :=
  shape (ConceptAwareness.weight l) =
    [ConceptAwareness.n_classes l; ConceptAwareness.out_features l;
     ConceptAwareness.in_features l] /\
  exists b, ConceptAwareness.bias l = Some b /\
            shape b = [ConceptAwareness.n_classes l; 1; ConceptAwareness.out_features l].

(** An input of size (batch, in) or (n_classes, batch, in). *)
Definition batch_of (l : ConceptAwareness.t (F:=F)) (batch : nat) (x : Tensor F) : Prop :=
  shape x = [batch; ConceptAwareness.in_features l] \/
  shape x = [ConceptAwareness.n_classes l; batch; ConceptAwareness.in_features l].

(** An attention layer whose parameters have the sizes [__init__] gives
    them. *)
Definition attention_well_shaped (a : Attention.t (F:=F)) : Prop :=
  Attention.d_value a = 1 /\
  shape (Attention.w_key a) = [Attention.n_classes a; 1; 1; Attention.d_key_query a] /\
  shape (Attention.w_query a) = [Attention.n_classes a; 1; Attention.d_key_query a] /\
  shape (Attention.w_value a) = [Attention.n_classes a; 1; Attention.d_value a] /\
  shape (Attention.weight a) =
    [Attention.n_classes a; 1; Attention.in_features a; Attention.out_features a] /\
  shape (Attention.bias a) = [Attention.n_classes a; 1; Attention.out_features a].

(** Concept scores for a batch, of size (batch, in) for a first layer and
    (1, batch, in) or (n_classes, batch, in) otherwise, with labels of size
    (batch, n_classes). *)
Definition attention_input (a : Attention.t (F:=F)) (batch : nat) (x y : Tensor F) : Prop :=
  ((Attention.first a = true /\ shape x = [batch; Attention.in_features a]) \/
   (Attention.first a = false /\
    (shape x = [1; batch; Attention.in_features a] \/
     shape x = [Attention.n_classes a; batch; Attention.in_features a]))) /\
  shape y = [batch; Attention.n_classes a].

(** The maximum of the rescaled attention scores as C5 words it, across the
    batch axis: the batch is dimension 1 of the attention scores of line
    136, and dimension 1 is what [mean(dim=1)] and [permute(0, 2, 1)] leave
    in its place. *)
Definition rescaled_max_over_batch (r : Tensor F) : result (Tensor F) :=
  max_dim 1 r.

(** The modules of a container that are not [Attention] layers: what a
    container that skipped those layers would run. *)
Definition without_attention (ms : list (Sequential.module (F:=F)))
  : list (Sequential.module (F:=F)) :=
  filter (fun m => negb (Sequential.is_Attention m)) ms.

Definition is_CallX (c : Sequential.call) : Prop :=
  exists i, c = Sequential.CallX i.

End Aux.

Definition rmap {A B : Type} (f : A -> B) (r : result A) : result B :=
  match r with
  | Ok a => Ok (f a)
  | Err e => Err e
  end.

(** ** Further notions used in the statements *)

Section AuxMore.

Context {F : Type} {SF : Scalar F}.

(** The call the loop of [Sequential.forward] writes for the module at a
    position, and the calls of a pass that reaches every module. *)
Definition dispatched (train : bool) (i : nat) (m : Sequential.module (F:=F))
  : Sequential.call :=
  if Sequential.is_Attention m && train
  then Sequential.CallXY i else Sequential.CallX i.

Fixpoint dispatched_from (train : bool) (i : nat)
    (ms : list (Sequential.module (F:=F))) : list Sequential.call :=
  match ms with
  | [] => []
  | m :: ms' => dispatched train i m :: dispatched_from train (S i) ms'
  end.

(** A stack of layers without read-out, each taking the output features of
    the one before as its input features, all for [C] classes. *)
Fixpoint stacked (C I : nat) (ls : list (ConceptAwareness.t (F:=F))) : Prop :=
  match ls with
  | [] => True
  | l :: ls' =>
      well_shaped l /\
      ConceptAwareness.n_classes l = C /\
      ConceptAwareness.in_features l = I /\
      ConceptAwareness.top l = false /\
      (ConceptAwareness.shrink l = true -> 0 < I) /\
      stacked C (ConceptAwareness.out_features l) ls'
  end.

(** The output features of the last layer of a stack fed [I] features. *)
Definition stack_out (I : nat) (ls : list (ConceptAwareness.t (F:=F))) : nat :=
  fold_left (fun _ l => ConceptAwareness.out_features l) ls I.

(** The element of the promoted input that class [c] reads for sample [b]
    and feature [i]: an input of rank 2 is shared by the classes. *)
Definition input_at (x : Tensor F) (c b i : nat) : F :=
  if rank x =? 2 then get x [b; i] else get x [c; b; i].

(** The three stages of [ConceptAwareness.forward] as tensor expressions:
    the gating of lines 55-58, the projection of lines 59 and 61, and the
    read-out of line 63. *)
Definition gated (l : ConceptAwareness.t (F:=F)) (x : Tensor F) : result (Tensor F) :=
  g <- norm_dim 1 (ConceptAwareness.weight l) ;;
  a <- softmax_dim 1 g ;;
  b <- (m <- max_dim 1 a ;; m <- unsqueeze 1 m ;; tdiv a m) ;;
  b <- unsqueeze 1 b ;;
  tmul x b.

Definition projected (l : ConceptAwareness.t (F:=F)) (x : Tensor F) : result (Tensor F) :=
  w <- permute021 (ConceptAwareness.weight l) ;;
  y <- matmul x w ;;
  add_optional y (ConceptAwareness.bias l).

Definition read_out (l : ConceptAwareness.t (F:=F)) (y : Tensor F) : result (Tensor F) :=
  if ConceptAwareness.top l
  then v <- view_rows (ConceptAwareness.n_classes l) y ;; transpose v
  else Ok y.

(** The concept scores [Attention.forward] is meant for: of size
    (batch, in) for a first layer and (1, batch, in) or
    (n_classes, batch, in) otherwise. *)
Definition attention_concepts (a : Attention.t (F:=F)) (batch : nat) (x : Tensor F) : Prop :=
  (Attention.first a = true /\ shape x = [batch; Attention.in_features a]) \/
  (Attention.first a = false /\
   (shape x = [1; batch; Attention.in_features a] \/
    shape x = [Attention.n_classes a; batch; Attention.in_features a])).

End AuxMore.

(** ** Concrete instances

    A layer with 2 classes, 3 output features and 2 input features, some
    inputs for it, and an attention layer; they serve as test inputs in the
    statements below. *)

Definition sigmoid (x : R) : R := (1 / (1 + exp (- x)))%R.

Definition demo_weight : Tensor R := fresh [2; 3; 2] (fun k => INR (S k)).

Definition demo_bias : Tensor R := fresh [2; 1; 3] (fun _ => 0%R).

Definition demo_layer (shrink top bias : bool) : ConceptAwareness.t :=
  ConceptAwareness.mk 2 3 2 (if shrink then Some 1%Z else None) top false
    (Conceptizator.new "identity_bool") shrink None None None
    demo_weight (if bias then Some demo_bias else None).

(** A single-output variant of the layer. *)
Definition demo_layer1 (shrink top : bool) : ConceptAwareness.t :=
  ConceptAwareness.mk 2 1 2 (if shrink then Some 1%Z else None) top false
    (Conceptizator.new "identity_bool") shrink None None None
    (fresh [2; 1; 2] (fun k => INR (S k)))
    (Some (fresh [2; 1; 1] (fun _ => 0%R))).

(** A batch of 4 samples with 2 features, the same batch given per class,
    and a batch with 5 features, which the layer cannot multiply. *)
Definition demo_input : Tensor R := fresh [4; 2] (fun k => INR k).
Definition demo_input3 : Tensor R := fresh [2; 4; 2] (fun k => INR k).
Definition wide_input : Tensor R := fresh [4; 5] (fun k => INR k).

Definition demo_labels : Tensor R := fresh [4; 2] (fun _ => 1%R).

Definition demo_attention : Attention.t :=
  Attention.init 2 3 2 true (fun p k => INR (p + k)).

Definition demo_logic (top : bool) : Logic.t :=
  Logic.mk 2 3 top (Conceptizator.new "relu") "relu"
    (fresh [3; 2] (fun k => INR (S k))) (Some (fresh [3] (fun _ => 0%R))).

(** What a call returns, or the input when it raises. *)
Definition returned_or {A : Type} (d : A) (r : result A) : A :=
  match r with
  | Ok a => a
  | Err _ => d
  end.

Definition demo_output (shrink top : bool) : Tensor R :=
  returned_or demo_input
    (fst (ConceptAwareness.forward demo_input (demo_layer shrink top true))).

(** Small tensors with explicit elements. *)
Definition m23 : Tensor R := mkTensor [2; 3] [1; 2; 3; 4; 5; 6]%R.
Definition m32 : Tensor R := mkTensor [3; 2] [1; 0; 0; 1; 1; 1]%R.
Definition w223 : Tensor R :=
  mkTensor [2; 2; 3] [1; 0; 0; 0; 1; 0; 1; 1; 1; 2; 0; 0]%R.
Definition b212 : Tensor R := mkTensor [2; 1; 2] [0; 0; 0; 0]%R.

(** A layer with 2 classes, 2 output features and 3 input features. *)
Definition small_layer (top : bool) : ConceptAwareness.t :=
  ConceptAwareness.mk 3 2 2 None top false
    (Conceptizator.new "identity_bool") false None None None w223 (Some b212).

(** One class, two output features and one input feature: the weights [3]
    and [4] of the single input feature. *)
Definition w121 : Tensor R := mkTensor [1; 2; 1] [3; 4]%R.

(** Further test inputs: one sample as a vector, a batch with a single
    feature, a batch of one sample with its labels, labels for three
    samples, the same batch given per class with two features, a layer that
    takes the three output features of [demo_layer], and a container of an
    identity module followed by the attention layer. *)
Definition vector_input : Tensor R := fresh [2] (fun k => INR k).
Definition single_feature_input : Tensor R := fresh [4; 1] (fun k => INR k).
Definition one_sample : Tensor R := fresh [1; 2] (fun k => INR k).
Definition one_label : Tensor R := fresh [1; 2] (fun _ => 1%R).
Definition three_labels : Tensor R := fresh [3; 2] (fun _ => 1%R).

Definition next_layer : ConceptAwareness.t :=
  ConceptAwareness.mk 3 1 2 None false false
    (Conceptizator.new "identity_bool") false None None None
    (fresh [2; 1; 3] (fun k => INR (S k)))
    (Some (fresh [2; 1; 1] (fun _ => 0%R))).

Definition demo_container : list Sequential.module :=
  [Sequential.MOther (fun x => Ok x); Sequential.MAttention demo_attention].

(** A read-out layer for no class at all. *)
Definition no_class_layer : ConceptAwareness.t :=
  ConceptAwareness.mk 2 1 0 None true false
    (Conceptizator.new "identity_bool") false None None None
    (fresh [0; 1; 2] (fun k => INR k))
    (Some (fresh [0; 1; 1] (fun _ => 0%R))).

(** * Properties *)

Unset Implicit Arguments.

(** ** Outcomes and methods *)

Lemma rbind_ok {A B : Type} (r : result A) (k : A -> result B) (b : B) :
  rbind r k = Ok b -> exists a, r = Ok a /\ k a = Ok b.
Proof.
  destruct r as [a|e]; simpl; intros H; [exists a; auto | discriminate].
Qed.

Lemma ok_or_raises {A : Type} (r : result A) : (exists a, r = Ok a) \/ raises r.
Proof.
  destruct r as [a|e]; [left; exists a | right; exists e]; reflexivity.
Qed.

Lemma raises_not_ok {A : Type} (r : result A) (a : A) : raises r -> r <> Ok a.
Proof. intros [e ->]; discriminate. Qed.

Lemma raises_Err {A : Type} (e : error) : raises (@Err A e).
Proof. now exists e. Qed.

Lemma not_raises_Ok {A : Type} (a : A) : ~ raises (Ok a).
Proof. intros [e He]; discriminate. Qed.

#[global] Hint Resolve raises_Err : core.

(** [meth] is a monad, pointwise. *)
Lemma mbind_mret_l {S A B : Type} (a : A) (k : A -> meth S B) (s : S) :
  mbind (mret a) k s = k a s.
Proof. reflexivity. Qed.

Lemma mbind_mret_r {S A : Type} (m : meth S A) (s : S) :
  mbind m mret s = m s.
Proof. unfold mbind, mret. destruct (m s) as [[a|e] s']; reflexivity. Qed.

Lemma mbind_assoc {S A B C : Type}
    (m : meth S A) (k : A -> meth S B) (h : B -> meth S C) (s : S) :
  mbind (mbind m k) h s = mbind m (fun a => mbind (k a) h) s.
Proof. unfold mbind. destruct (m s) as [[a|e] s']; reflexivity. Qed.

(** An exception ends the method, with the instance as the assignments
    before it left it. *)
Lemma mbind_raises {S A B : Type}
    (m : meth S A) (k : A -> meth S B) (s s' : S) (e : error) :
  m s = (Err e, s') -> mbind m k s = (Err e, s').
Proof. unfold mbind. now intros ->. Qed.

Lemma tabulate_length {A : Type} (n : nat) (f : nat -> A) :
  length (tabulate n f) = n.
Proof. unfold tabulate. now rewrite length_map, length_seq. Qed.

Lemma tabulate_nth {A : Type} (n : nat) (f : nat -> A) (k : nat) (d : A) :
  k < n -> nth k (tabulate n f) d = f k.
Proof.
  intros Hk. unfold tabulate.
  rewrite (nth_indep _ d (f 0)) by (now rewrite length_map, length_seq).
  rewrite map_nth, seq_nth; auto.
Qed.

Lemma wrap_dim_nonneg (r d : nat) :
  d < r -> wrap_dim r (Z.of_nat d) = Ok d.
Proof.
  intros H. unfold wrap_dim.
  replace (- Z.of_nat r <=? Z.of_nat d)%Z with true by (symmetry; apply Z.leb_le; lia).
  replace (Z.of_nat d <? Z.of_nat r)%Z with true by (symmetry; apply Z.ltb_lt; lia).
  replace (Z.of_nat d <? 0)%Z with false by (symmetry; apply Z.ltb_ge; lia).
  simpl. now rewrite Nat2Z.id.
Qed.

Lemma wrap_dim_neg (r d : nat) :
  0 < d <= r -> wrap_dim r (- Z.of_nat d) = Ok (r - d).
Proof.
  intros H. unfold wrap_dim.
  replace (- Z.of_nat r <=? - Z.of_nat d)%Z with true by (symmetry; apply Z.leb_le; lia).
  replace (- Z.of_nat d <? Z.of_nat r)%Z with true by (symmetry; apply Z.ltb_lt; lia).
  replace (- Z.of_nat d <? 0)%Z with true by (symmetry; apply Z.ltb_lt; lia).
  simpl. f_equal. lia.
Qed.

Lemma wrap_dim_range (r : nat) (d : Z) (p : nat) :
  wrap_dim r d = Ok p -> p < r.
Proof.
  unfold wrap_dim. destruct (_ && _)%bool eqn:E; [|discriminate].
  apply andb_true_iff in E as [E1 E2].
  apply Z.leb_le in E1. apply Z.ltb_lt in E2.
  intros H; injection H as <-.
  destruct (d <? 0)%Z eqn:E3; [apply Z.ltb_lt in E3 | apply Z.ltb_ge in E3]; lia.
Qed.

Section Generic.

Context {F : Type} {SF : Scalar F}.

Implicit Types t x y : Tensor F.

Lemma unsqueeze_0 t : unsqueeze 0 t = Ok (mkTensor (1 :: shape t) (data t)).
Proof.
  unfold unsqueeze.
  change 0%Z with (Z.of_nat 0). rewrite wrap_dim_nonneg by lia.
  reflexivity.
Qed.

Lemma promote_promoted x : ConceptAwareness.promote x = Ok (promoted x).
Proof.
  unfold ConceptAwareness.promote, promoted.
  destruct (rank x =? 2); [apply unsqueeze_0 | reflexivity].
Qed.

End Generic.

Lemma is_ok_returned_or {A : Type} (d : A) (r : result A) :
  is_ok r = true -> r = Ok (returned_or d r).
Proof. destruct r; [reflexivity | discriminate]. Qed.

(** ** Sizes of results *)

Lemma bdim_same (a : nat) : bdim a a = Some a.
Proof. unfold bdim. now rewrite Nat.eqb_refl. Qed.

Lemma bdim_one_l (a : nat) : bdim 1 a = Some a.
Proof.
  unfold bdim. destruct (1 =? a) eqn:E; [|reflexivity].
  apply Nat.eqb_eq in E. now subst.
Qed.

Lemma bdim_one_r (a : nat) : bdim a 1 = Some a.
Proof.
  unfold bdim. destruct (a =? 1) eqn:E; reflexivity.
Qed.

Ltac bshape :=
  unfold broadcast_shapes; simpl;
  rewrite ?bdim_same, ?bdim_one_l, ?bdim_one_r; simpl;
  rewrite ?bdim_same, ?bdim_one_l, ?bdim_one_r; simpl.

Section Shapes.

Context {F : Type} {SF : Scalar F}.

Implicit Types (t x w b : Tensor F).

Lemma binop_broadcast (f : F -> F -> F) a b rs :
  broadcast_shapes (shape a) (shape b) = Some rs ->
  binop f a b =
  Ok (mkTensor rs
        (tabulate (numel rs)
           (fun k => f (at_ a (bidx rs (shape a) k)) (at_ b (bidx rs (shape b) k))))).
Proof. unfold binop. now intros ->. Qed.

Lemma binop_shape (f : F -> F -> F) a b rs :
  broadcast_shapes (shape a) (shape b) = Some rs ->
  exists t, binop f a b = Ok t /\ shape t = rs.
Proof. intros H. rewrite (binop_broadcast f _ _ _ H). eexists; split; reflexivity. Qed.

Lemma permute021_shape w C O I :
  shape w = [C; O; I] ->
  exists t, permute021 w = Ok t /\ shape t = [C; I; O].
Proof. unfold permute021. intros ->. eexists; split; reflexivity. Qed.

Lemma matmul_shape x w ba bb bs n m p :
  shape x = ba ++ [n; m] -> shape w = bb ++ [m; p] ->
  broadcast_shapes ba bb = Some bs ->
  exists t, matmul x w = Ok t /\ shape t = bs ++ [n; p].
Proof.
  intros Hx Hw Hb. unfold matmul, rank. rewrite Hx, Hw. cbv zeta.
  rewrite !length_app. cbn [length].
  replace (length ba + 2 =? 0) with false by (symmetry; apply Nat.eqb_neq; lia).
  replace (length bb + 2 =? 0) with false by (symmetry; apply Nat.eqb_neq; lia).
  replace (length ba + 2 =? 1) with false by (symmetry; apply Nat.eqb_neq; lia).
  replace (length bb + 2 =? 1) with false by (symmetry; apply Nat.eqb_neq; lia).
  cbn [orb]. rewrite !length_app. cbn [length].
  replace (length ba + 2 - 2) with (length ba + 0) by lia.
  replace (length bb + 2 - 2) with (length bb + 0) by lia.
  replace (length ba + 2 - 1) with (length ba + 1) by lia.
  replace (length bb + 2 - 1) with (length bb + 1) by lia.
  rewrite !firstn_app_2, !app_nth2_plus. cbn [firstn nth].
  rewrite !app_nil_r, Nat.eqb_refl, Hb.
  eexists; split; reflexivity.
Qed.

Lemma matmul_batched_shape x w C' C B I O :
  shape x = [C'; B; I] -> shape w = [C; I; O] ->
  broadcast_shapes [C'] [C] = Some [C] ->
  exists t, matmul x w = Ok t /\ shape t = [C; B; O].
Proof.
  intros Hx Hw Hb. unfold matmul, rank. rewrite Hx, Hw. simpl.
  rewrite Nat.eqb_refl, Hb. eexists; split; reflexivity.
Qed.

(** Lines 59 and 61: the projection of a per-class batch. *)
Lemma project_shape x w b C' C B I O :
  shape x = [C'; B; I] -> shape w = [C; O; I] -> shape b = [C; 1; O] ->
  C' = 1 \/ C' = C ->
  exists t,
    (w' <- permute021 w ;; y <- matmul x w' ;; add_optional y (Some b)) = Ok t /\
    shape t = [C; B; O].
Proof.
  intros Hx Hw Hb HC.
  destruct (permute021_shape w C O I Hw) as (w' & -> & Hw'). cbn.
  destruct (matmul_batched_shape x w' C' C B I O Hx Hw') as (y & -> & Hy).
  { destruct HC as [-> | ->]; bshape; reflexivity. }
  cbn. apply binop_shape. rewrite Hy, Hb. bshape. reflexivity.
Qed.

Lemma norm_dim_1 w :
  1 < rank w ->
  norm_dim 1 w = Ok (reduce_dim (fun vs => ssqrt (ssum (map (fun v => smul v v) vs))) 1 w).
Proof.
  intros H. unfold norm_dim.
  change 1%Z with (Z.of_nat 1). now rewrite wrap_dim_nonneg.
Qed.

Lemma softmax_dim_nonneg (d : nat) t :
  d < rank t ->
  softmax_dim (Z.of_nat d) t =
  Ok (mkTensor (shape t)
        (tabulate (numel (shape t))
           (fun k =>
              sdiv (sexp (at_ t k))
                (ssum (map sexp
                         (lane t d (k / (dim_size (shape t) d * inner_numel (shape t) d)
                                    * inner_numel (shape t) d
                                    + k mod inner_numel (shape t) d))))))).
Proof.
  intros H. unfold softmax_dim. now rewrite wrap_dim_nonneg.
Qed.

Lemma max_dim_nonneg (d : nat) t :
  d < rank t -> dim_size (shape t) d <> 0 ->
  max_dim (Z.of_nat d) t = Ok (reduce_dim smaximum d t).
Proof.
  intros H Hn. unfold max_dim. rewrite wrap_dim_nonneg by assumption. cbn.
  destruct (dim_size (shape t) d =? 0) eqn:E; [|reflexivity].
  apply Nat.eqb_eq in E. contradiction.
Qed.

Lemma unsqueeze_nonneg (d : nat) t :
  d <= rank t ->
  unsqueeze (Z.of_nat d) t = Ok (mkTensor (insert_nth d 1 (shape t)) (data t)).
Proof.
  intros H. unfold unsqueeze. rewrite wrap_dim_nonneg by lia. reflexivity.
Qed.

Lemma unsqueeze_last t :
  unsqueeze (-1) t = Ok (mkTensor (shape t ++ [1]) (data t)).
Proof.
  unfold unsqueeze.
  change (-1)%Z with (- Z.of_nat 1)%Z. rewrite wrap_dim_neg by lia.
  cbn. unfold insert_nth. rewrite Nat.sub_0_r.
  unfold rank. now rewrite firstn_all, skipn_all.
Qed.

(** Lines 55-58: the gate and the gated input. *)
Lemma gate_shape x w C' C B I O :
  shape x = [C'; B; I] -> shape w = [C; O; I] -> 0 < I -> C' = 1 \/ C' = C ->
  exists g a b x',
    norm_dim 1 w = Ok g /\ shape g = [C; I] /\
    softmax_dim 1 g = Ok a /\ shape a = [C; I] /\
    (m <- max_dim 1 a ;; m <- unsqueeze 1 m ;; tdiv a m) = Ok b /\ shape b = [C; I] /\
    (b <- unsqueeze 1 b ;; tmul x b) = Ok x' /\ shape x' = [C; B; I].
Proof.
  intros Hx Hw HI HC.
  pose proof (norm_dim_1 w) as Eg.
  set (g := reduce_dim _ 1 w) in Eg.
  assert (Hg : shape g = [C; I])
    by (change (shape g) with (remove_nth 1 (shape w)); now rewrite Hw).
  pose proof (softmax_dim_nonneg 1 g) as Ea.
  set (a := mkTensor (shape g) _) in Ea.
  assert (Ha : shape a = [C; I]) by exact Hg.
  pose proof (max_dim_nonneg 1 a) as Em.
  set (m := reduce_dim smaximum 1 a) in Em.
  assert (Hm : shape m = [C])
    by (change (shape m) with (remove_nth 1 (shape a)); now rewrite Ha).
  pose proof (unsqueeze_nonneg 1 m) as Em'.
  destruct (binop_shape sdiv a (mkTensor (insert_nth 1 1 (shape m)) (data m)) [C; I])
    as (b & Eb & Hb).
  { cbn [shape]. rewrite Ha, Hm. bshape. reflexivity. }
  pose proof (unsqueeze_nonneg 1 b) as Eb'.
  destruct (binop_shape smul x (mkTensor (insert_nth 1 1 (shape b)) (data b)) [C; B; I])
    as (x' & Ex & Hx').
  { cbn [shape]. rewrite Hx, Hb. destruct HC as [-> | ->]; bshape; reflexivity. }
  exists g, a, b, x'.
  change (Z.of_nat 1) with 1%Z in Ea, Em, Em', Eb'.
  rewrite Eg by (unfold rank; rewrite Hw; simpl; lia).
  rewrite Ea by (unfold rank; rewrite Hg; simpl; lia).
  rewrite Em by (unfold rank, dim_size; rewrite Ha; simpl; lia).
  cbn [rbind].
  rewrite Em' by (unfold rank; rewrite Hm; simpl; lia).
  cbn [rbind]. unfold tdiv, tmul.
  rewrite Eb, Eb' by (unfold rank; rewrite Hb; simpl; lia).
  cbn [rbind]. rewrite Ex.
  repeat split; assumption.
Qed.

Lemma view_rows_transpose_shape t C B O :
  shape t = [C; B; O] -> 0 < C ->
  exists r, (v <- view_rows C t ;; transpose v) = Ok r /\ shape r = [B * O; C].
Proof.
  intros Ht HC. unfold view_rows. rewrite Ht.
  assert (Hn : numel [C; B; O] = C * (B * O)) by (simpl; lia).
  rewrite Hn.
  replace (0 <? C) with true by (symmetry; now apply Nat.ltb_lt).
  replace (C * (B * O)) with (B * O * C) by lia.
  rewrite Nat.Div0.mod_mul, Nat.div_mul by lia. cbn.
  eexists; split; reflexivity.
Qed.

Lemma promoted_shape (l : ConceptAwareness.t (F:=F)) x B :
  batch_of l B x ->
  exists C', shape (promoted x) = [C'; B; ConceptAwareness.in_features l] /\
             (C' = 1 \/ C' = ConceptAwareness.n_classes l).
Proof.
  unfold batch_of, promoted, rank. intros [H | H].
  - exists 1. rewrite H. cbn. auto.
  - exists (ConceptAwareness.n_classes l). rewrite H. cbn. auto.
Qed.

End Shapes.

(** ** Row-major positions *)

Lemma div_mod_pos (n a b : nat) :
  b < n -> (a * n + b) / n = a /\ (a * n + b) mod n = b.
Proof.
  intros H. split.
  - symmetry. apply (Nat.div_unique _ _ _ b); lia.
  - symmetry. apply (Nat.mod_unique _ _ a); lia.
Qed.

Lemma numel_pos_tail (d : nat) (s : list nat) (k : nat) :
  k < numel (d :: s) -> 0 < numel s.
Proof. simpl. intros H. destruct (numel s); lia. Qed.

Lemma ravel_unravel (s : list nat) : forall k,
  k < numel s -> ravel s (unravel s k) = k.
Proof.
  induction s as [|d s IH]; intros k Hk; simpl.
  - simpl in Hk. lia.
  - pose proof (numel_pos_tail d s k Hk) as Hs.
    rewrite IH by (apply Nat.mod_upper_bound; lia).
    pose proof (Nat.div_mod_eq k (numel s)). lia.
Qed.

Lemma ravel_bpick_unravel (s : list nat) : forall k,
  k < numel s -> ravel s (bpick s (unravel s k)) = k.
Proof.
  induction s as [|d s IH]; intros k Hk; simpl.
  - simpl in Hk. lia.
  - pose proof (numel_pos_tail d s k Hk) as Hs.
    rewrite IH by (apply Nat.mod_upper_bound; lia).
    pose proof (Nat.div_mod_eq k (numel s)) as Hdm.
    destruct (d =? 1) eqn:E.
    + apply Nat.eqb_eq in E. subst d. simpl in Hk.
      rewrite Nat.add_0_r in Hk.
      rewrite Nat.mod_small by assumption. lia.
    + lia.
Qed.

(** An operand that has the size of the result is read at the position
    written. *)
Lemma bidx_same (s : list nat) (k : nat) :
  k < numel s -> bidx s s k = k.
Proof.
  intros Hk. unfold bidx. rewrite Nat.sub_diag. simpl.
  now apply ravel_bpick_unravel.
Qed.

(** An operand whose last size is 1, under a result with the same leading
    sizes, is read at the position of the lane. *)
Lemma bidx_col2 (C I k : nat) :
  k < C * I -> bidx [C; I] [C; 1] k = k / I.
Proof.
  intros Hk. unfold bidx. simpl.
  rewrite !Nat.mul_1_r.
  destruct (C =? 1) eqn:E; [|lia].
  apply Nat.eqb_eq in E. subst C.
  rewrite Nat.div_small; lia.
Qed.

Lemma bidx_col3 (A J K k : nat) :
  k < A * (J * K) -> bidx [A; J; K] [A; J; 1] k = k / K.
Proof.
  intros Hk. unfold bidx. simpl.
  rewrite !Nat.mul_1_r.
  assert (HK : 0 < K) by (destruct K; lia).
  assert (HJ : 0 < J) by (destruct J; lia).
  assert (Hq : k / K = k / (J * K) * J + k mod (J * K) / K).
  { pose proof (Nat.div_mod_eq k (J * K)) as H1.
    pose proof (Nat.mod_upper_bound k (J * K) ltac:(lia)) as H2.
    set (q := k / (J * K)) in *. set (r := k mod (J * K)) in *.
    rewrite H1.
    replace (J * K * q + r) with (q * J * K + r) by lia.
    rewrite Nat.div_add_l by lia. reflexivity. }
  assert (Hj : k mod (J * K) / K < J).
  { apply Nat.Div0.div_lt_upper_bound.
    rewrite Nat.mul_comm. apply Nat.mod_upper_bound. lia. }
  assert (Ha : k / (J * K) < A).
  { apply Nat.Div0.div_lt_upper_bound. lia. }
  destruct (A =? 1) eqn:EA; destruct (J =? 1) eqn:EJ;
    try apply Nat.eqb_eq in EA; try apply Nat.eqb_eq in EJ; subst; lia.
Qed.

Section Rows.

Context {F : Type} {SF : Scalar F}.

Implicit Types (t : Tensor F).

(** Along a dimension with nothing after it, the lanes are the rows. *)
Lemma lane_row t d K j :
  dim_size (shape t) d = K -> inner_numel (shape t) d = 1 ->
  lane t d j = row t K j.
Proof.
  intros Hn Hi. unfold lane, row. rewrite Hn, Hi.
  apply map_ext. intros i.
  now rewrite Nat.div_1_r, Nat.mod_1_r, Nat.mul_1_r, Nat.add_0_r.
Qed.

Lemma reduce_dim_at (g : list F -> F) d t j :
  j < outer_numel (shape t) d * inner_numel (shape t) d ->
  at_ (reduce_dim g d t) j = g (lane t d j).
Proof.
  intros Hj. unfold at_, reduce_dim. cbn [data].
  now rewrite tabulate_nth.
Qed.

Lemma binop_at (f : F -> F -> F) a b rs r k :
  broadcast_shapes (shape a) (shape b) = Some rs ->
  binop f a b = Ok r -> k < numel rs ->
  at_ r k = f (at_ a (bidx rs (shape a) k)) (at_ b (bidx rs (shape b) k)).
Proof.
  intros Hs Hr Hk. rewrite (binop_broadcast f a b rs Hs) in Hr.
  injection Hr as <-. unfold at_ at 1. cbn [data].
  now rewrite tabulate_nth.
Qed.

Lemma get2 t C I c i :
  shape t = [C; I] -> get t [c; i] = at_ t (c * I + i).
Proof. unfold get. intros ->. simpl. f_equal. lia. Qed.

Lemma get3 t A J K a j i :
  shape t = [A; J; K] -> get t [a; j; i] = at_ t ((a * J + j) * K + i).
Proof. unfold get. intros ->. simpl. f_equal. lia. Qed.

Lemma row_get2 t C I c :
  shape t = [C; I] -> row t I c = map (fun i => get t [c; i]) (seq 0 I).
Proof.
  intros H. unfold row. apply map_ext. intros i. now rewrite (get2 t C I).
Qed.

Lemma row_get3 t A J K a j :
  shape t = [A; J; K] ->
  row t K (a * J + j) = map (fun i => get t [a; j; i]) (seq 0 K).
Proof.
  intros H. unfold row. apply map_ext. intros i. now rewrite (get3 t A J K).
Qed.

(** The softmax along a last dimension of size [K], row by row. *)
Lemma softmax_rows (d : nat) t s K L :
  d < rank t ->
  dim_size (shape t) d = K -> inner_numel (shape t) d = 1 ->
  numel (shape t) = L * K ->
  softmax_dim (Z.of_nat d) t = Ok s ->
  shape s = shape t /\
  forall j i, j < L -> i < K ->
    at_ s (j * K + i) =
    sdiv (sexp (at_ t (j * K + i))) (ssum (map sexp (row t K j))).
Proof.
  intros Hd Hn Hi Hm Hs.
  rewrite softmax_dim_nonneg in Hs by assumption.
  injection Hs as <-. split; [reflexivity|].
  intros j i Hj Hik. unfold at_ at 1. cbn [data].
  rewrite tabulate_nth by (rewrite Hm; nia).
  rewrite Hn, Hi, !Nat.mul_1_r, Nat.mod_1_r, Nat.add_0_r.
  destruct (div_mod_pos K j i Hik) as [-> _].
  now rewrite (lane_row t d K j Hn Hi).
Qed.

End Rows.

Section Gates.

Context {F : Type} {SF : Scalar F}.

Implicit Types (t w : Tensor F).

(** Line 55: the norms are taken along dimension 1 of the weight, the one
    of the output features, which leaves one norm per class and input
    feature. *)
Lemma norm_dim_1_weight w C O I :
  shape w = [C; O; I] ->
  exists g, norm_dim 1 w = Ok g /\ shape g = [C; I] /\
    forall c i, c < C -> i < I ->
      at_ g (c * I + i) =
      ssqrt (ssum (map (fun o => smul (at_ w ((c * O + o) * I + i))
                                      (at_ w ((c * O + o) * I + i)))
                       (seq 0 O))).
Proof.
  intros Hw.
  rewrite norm_dim_1 by (unfold rank; rewrite Hw; simpl; lia).
  eexists. split; [reflexivity|]. split.
  - cbn. now rewrite Hw.
  - intros c i Hc Hi.
    rewrite reduce_dim_at
      by (unfold outer_numel, inner_numel; rewrite Hw; simpl; nia).
    f_equal. f_equal. unfold lane, dim_size, inner_numel.
    rewrite Hw. simpl. rewrite Nat.mul_1_r, map_map.
    apply map_ext. intros o.
    destruct (div_mod_pos I c i Hi) as [-> ->]. reflexivity.
Qed.

(** Line 56 on a tensor of rank 2. *)
Lemma softmax_dim_1_rows t C I :
  shape t = [C; I] ->
  exists a, softmax_dim 1 t = Ok a /\ shape a = [C; I] /\
    forall c i, c < C -> i < I ->
      at_ a (c * I + i) =
      sdiv (sexp (at_ t (c * I + i))) (ssum (map sexp (row t I c))).
Proof.
  intros Ht.
  assert (Hd : 1 < rank t) by (unfold rank; rewrite Ht; simpl; lia).
  pose proof (softmax_dim_nonneg 1 t Hd) as E.
  change (Z.of_nat 1) with 1%Z in E.
  match type of E with _ = Ok ?s => set (a := s) in E end.
  exists a. split; [exact E|].
  destruct (softmax_rows 1 t a I C Hd) as [Hs Hv].
  - unfold dim_size. now rewrite Ht.
  - unfold inner_numel. now rewrite Ht.
  - rewrite Ht. simpl. lia.
  - exact E.
  - split; [now rewrite Hs | exact Hv].
Qed.

(** Line 57 on a tensor of rank 2: every row is divided by its maximum. *)
Lemma rescale_rows2 t C I :
  shape t = [C; I] -> 0 < I ->
  exists b, (m <- max_dim 1 t ;; m <- unsqueeze 1 m ;; tdiv t m) = Ok b /\
    shape b = [C; I] /\
    forall c i, c < C -> i < I ->
      at_ b (c * I + i) = sdiv (at_ t (c * I + i)) (smaximum (row t I c)).
Proof.
  intros Ht HI.
  assert (Hd : 1 < rank t) by (unfold rank; rewrite Ht; simpl; lia).
  pose proof (max_dim_nonneg 1 t Hd) as Em.
  change (Z.of_nat 1) with 1%Z in Em.
  rewrite Em by (unfold dim_size; rewrite Ht; simpl; lia).
  cbn [rbind].
  set (m := reduce_dim smaximum 1 t).
  assert (Hm : shape m = [C])
    by (change (shape m) with (remove_nth 1 (shape t)); now rewrite Ht).
  pose proof (unsqueeze_nonneg 1 m) as Eu.
  change (Z.of_nat 1) with 1%Z in Eu.
  rewrite Eu by (unfold rank; rewrite Hm; simpl; lia).
  cbn [rbind].
  set (m' := mkTensor (insert_nth 1 1 (shape m)) (data m)).
  assert (Hm' : shape m' = [C; 1]) by (unfold m'; cbn [shape]; now rewrite Hm).
  assert (Hbs : broadcast_shapes (shape t) (shape m') = Some [C; I])
    by (rewrite Ht, Hm'; bshape; reflexivity).
  unfold tdiv. rewrite (binop_broadcast sdiv t m' [C; I] Hbs).
  eexists. split; [reflexivity|]. split; [reflexivity|].
  intros c i Hc Hi.
  rewrite (binop_at sdiv t m' [C; I] _ (c * I + i) Hbs
             (binop_broadcast sdiv t m' [C; I] Hbs))
    by (simpl; nia).
  rewrite Ht, Hm'.
  rewrite bidx_same by (simpl; nia).
  rewrite bidx_col2 by nia.
  destruct (div_mod_pos I c i Hi) as [-> _].
  f_equal.
  change (at_ m' c) with (at_ m c). unfold m.
  rewrite reduce_dim_at
    by (unfold outer_numel, inner_numel; rewrite Ht; simpl; lia).
  f_equal. apply lane_row.
  - unfold dim_size. now rewrite Ht.
  - unfold inner_numel. now rewrite Ht.
Qed.

(** Line 139 on a tensor of rank 3: the same along dimension 2. *)
Lemma rescale_rows3 t A J K :
  shape t = [A; J; K] -> 0 < K ->
  exists r, Attention.rescaled t = Ok r /\ shape r = [A; J; K] /\
    forall j i, j < A * J -> i < K ->
      at_ r (j * K + i) = sdiv (at_ t (j * K + i)) (smaximum (row t K j)).
Proof.
  intros Ht HK. unfold Attention.rescaled.
  assert (Hd : 2 < rank t) by (unfold rank; rewrite Ht; simpl; lia).
  pose proof (max_dim_nonneg 2 t Hd) as Em.
  change (Z.of_nat 2) with 2%Z in Em.
  rewrite Em by (unfold dim_size; rewrite Ht; simpl; lia).
  cbn [rbind].
  set (m := reduce_dim smaximum 2 t).
  assert (Hm : shape m = [A; J])
    by (change (shape m) with (remove_nth 2 (shape t)); now rewrite Ht).
  rewrite unsqueeze_last. cbn [rbind].
  set (m' := mkTensor (shape m ++ [1]) (data m)).
  assert (Hm' : shape m' = [A; J; 1]) by (unfold m'; cbn [shape]; now rewrite Hm).
  assert (Hbs : broadcast_shapes (shape t) (shape m') = Some [A; J; K])
    by (rewrite Ht, Hm'; bshape; reflexivity).
  unfold tdiv. rewrite (binop_broadcast sdiv t m' [A; J; K] Hbs).
  eexists. split; [reflexivity|]. split; [reflexivity|].
  intros j i Hj Hi.
  rewrite (binop_at sdiv t m' [A; J; K] _ (j * K + i) Hbs
             (binop_broadcast sdiv t m' [A; J; K] Hbs))
    by (simpl; nia).
  rewrite Ht, Hm'.
  rewrite bidx_same by (simpl; nia).
  rewrite bidx_col3 by nia.
  destruct (div_mod_pos K j i Hi) as [-> _].
  f_equal.
  change (at_ m' j) with (at_ m j). unfold m.
  rewrite reduce_dim_at
    by (unfold outer_numel, inner_numel; rewrite Ht; simpl; lia).
  f_equal. apply lane_row.
  - unfold dim_size. now rewrite Ht.
  - unfold inner_numel. now rewrite Ht.
Qed.

End Gates.

(** ** The operations on small inputs *)

Example transpose_m23 :
  transpose m23 = Ok (mkTensor [3; 2] [1; 4; 2; 5; 3; 6]%R).
Proof. reflexivity. Qed.

Example permute021_w223 :
  permute021 w223 =
  Ok (mkTensor [2; 3; 2] [1; 0; 0; 1; 0; 0; 1; 2; 1; 0; 1; 0]%R).
Proof. reflexivity. Qed.

Example matmul_m23_m32 :
  matmul m23 m32 = Ok (mkTensor [2; 2] [4; 5; 10; 11]%R).
Proof. cbn. repeat f_equal; lra. Qed.

Example matmul_inner_mismatch : matmul m23 m23 = Err RuntimeError.
Proof. reflexivity. Qed.

Example tadd_broadcast :
  tadd (mkTensor [2; 2; 2] [1; 2; 3; 4; 5; 6; 7; 8]%R)
       (mkTensor [2; 1; 2] [10; 20; 30; 40]%R) =
  Ok (mkTensor [2; 2; 2] [11; 22; 13; 24; 35; 46; 37; 48]%R).
Proof. cbn. repeat f_equal; lra. Qed.

Example tadd_mismatch : tadd m23 m32 = Err RuntimeError.
Proof. reflexivity. Qed.

Example view_rows_zero : view_rows 0 m23 = Err RuntimeError.
Proof. reflexivity. Qed.

Example max_dim_empty : max_dim 1 (mkTensor [2; 0] ([] : list R)) = Err IndexError.
Proof. reflexivity. Qed.

Example unsqueeze_out_of_range : unsqueeze 3 m23 = Err IndexError.
Proof. reflexivity. Qed.

(** The per-class projection of a batch of 2 samples, and the same elements
    as the [top] read-out lays them out: one row per sample and output
    feature, one column per class. *)
Example forward_small_layer :
  fst (ConceptAwareness.forward m23 (small_layer false)) =
  Ok (mkTensor [2; 2; 2] [1; 2; 4; 5; 6; 2; 15; 8]%R).
Proof. cbn. repeat f_equal; lra. Qed.

Example forward_small_layer_top :
  fst (ConceptAwareness.forward m23 (small_layer true)) =
  Ok (mkTensor [4; 2] [1; 6; 2; 2; 4; 15; 5; 8]%R).
Proof. cbn. repeat f_equal; lra. Qed.

Example attention_demo_shape :
  rmap (@shape R) (fst (Attention.forward demo_input demo_labels demo_attention)) =
  Ok [2; 4; 3].
Proof. reflexivity. Qed.

(** Line 55 on [w121]: one norm, that of the column (3, 4) of the input
    feature; along dimension 2 there would be two, one per output
    feature. *)
Example norm_dim_1_w121 : norm_dim 1 w121 = Ok (mkTensor [1; 1] [5%R]).
Proof.
  cbv -[Rmult Rplus sqrt IZR]. repeat f_equal.
  replace (3 * 3 + (4 * 4 + 0))%R with (5 * 5)%R by lra.
  apply sqrt_square. lra.
Qed.

Example norm_dim_2_w121 : norm_dim 2 w121 = Ok (mkTensor [1; 2] [3; 4]%R).
Proof.
  cbv -[Rmult Rplus sqrt IZR]. repeat f_equal.
  - replace (3 * 3 + 0)%R with (3 * 3)%R by lra. apply sqrt_square. lra.
  - replace (4 * 4 + 0)%R with (4 * 4)%R by lra. apply sqrt_square. lra.
Qed.

(** ** What [forward] assigns and when it raises *)

Ltac split_result :=
  match goal with
  | |- context [match ?r with Ok _ => _ | Err _ => _ end] => destruct r eqn:?
  | |- context [if ?b then _ else _] => destruct b eqn:?
  end.

Ltac run_forward :=
  unfold ConceptAwareness.forward, mbind, eval, eval_self, assign, mif, mret;
  rewrite promote_promoted; cbn.

Section ConceptAwarenessState.

Context {F : Type} {SF : Scalar F}.

Implicit Types (l : ConceptAwareness.t (F:=F)) (x t : Tensor F).

Lemma forward_same_parameters l x :
  same_parameters l (snd (ConceptAwareness.forward x l)).
Proof.
  run_forward.
  destruct (ConceptAwareness.shrink l) eqn:Hs;
    repeat (split_result; cbn); repeat split; auto.
Qed.

Lemma forward_raises_concepts l x :
  raises (fst (ConceptAwareness.forward x l)) ->
  ConceptAwareness.concepts (snd (ConceptAwareness.forward x l)) = Some (promoted x).
Proof.
  run_forward.
  destruct (ConceptAwareness.shrink l) eqn:Hs;
    repeat (split_result; cbn); auto;
    intros [e He]; discriminate.
Qed.

(** C8.  A call of [ConceptAwareness.forward] that returns has overwritten
    the [concepts] snapshot, whatever it held: with the promoted input when
    [top] is false, and with the returned tensor when [top] is true. *)
Theorem forward_overwrites_concepts l x t :
  fst (ConceptAwareness.forward x l) = Ok t ->
  (ConceptAwareness.top l = false ->
   ConceptAwareness.concepts (snd (ConceptAwareness.forward x l)) = Some (promoted x)) /\
  (ConceptAwareness.top l = true ->
   ConceptAwareness.concepts (snd (ConceptAwareness.forward x l)) = Some t).
Proof.
  run_forward.
  destruct (ConceptAwareness.shrink l) eqn:Hs;
    repeat (split_result; cbn); try discriminate;
    intros H; split; intros Ht; congruence.
Qed.

(** C6, as amended.  When [ConceptAwareness.forward] raises, the [concepts]
    snapshot has already been overwritten with the promoted input; the
    weight, the bias and the configuration are as before the call. *)
Theorem forward_raise_keeps_promoted_input l x :
  raises (fst (ConceptAwareness.forward x l)) ->
  ConceptAwareness.concepts (snd (ConceptAwareness.forward x l)) = Some (promoted x) /\
  same_parameters l (snd (ConceptAwareness.forward x l)).
Proof.
  intros H. split.
  - now apply forward_raises_concepts.
  - apply forward_same_parameters.
Qed.

(** C7.  [forward] reads neither [awareness] nor [n_heads]: changing either
    on an instance changes nothing in what a call returns or assigns; and
    two constructions that differ in [awareness], or in the number given as
    [n_heads], build instances that differ in that attribute only. *)
Theorem forward_ignores_awareness_and_n_heads l x :
  (forall a,
     ConceptAwareness.forward x (ConceptAwareness.set_awareness a l) =
     (fst (ConceptAwareness.forward x l),
      ConceptAwareness.set_awareness a (snd (ConceptAwareness.forward x l)))) /\
  (forall h,
     ConceptAwareness.forward x (ConceptAwareness.set_n_heads h l) =
     (fst (ConceptAwareness.forward x l),
      ConceptAwareness.set_n_heads h (snd (ConceptAwareness.forward x l)))) /\
  (forall i o c a a' h top bias (wdraw bdraw : nat -> F),
     ConceptAwareness.init i o c a h top bias wdraw bdraw =
     rmap (ConceptAwareness.set_awareness a)
       (ConceptAwareness.init i o c a' h top bias wdraw bdraw)) /\
  (forall i o c a (h h' : Z) top bias (wdraw bdraw : nat -> F),
     ConceptAwareness.init i o c a (Some h) top bias wdraw bdraw =
     rmap (ConceptAwareness.set_n_heads (Some h))
       (ConceptAwareness.init i o c a (Some h') top bias wdraw bdraw)).
Proof.
  repeat split.
  - intros a. run_forward.
    destruct (ConceptAwareness.shrink l) eqn:Hs;
      repeat (split_result; cbn); reflexivity.
  - intros h. run_forward.
    destruct (ConceptAwareness.shrink l) eqn:Hs;
      repeat (split_result; cbn); reflexivity.
  - intros. unfold ConceptAwareness.init.
    destruct (ConceptAwareness.reset_parameters _ _ _ _); cbn; [|reflexivity].
    destruct (ConceptAwareness.reset_parameters _ _ _ _); cbn; [|reflexivity].
    destruct h; reflexivity.
  - intros. unfold ConceptAwareness.init.
    destruct (ConceptAwareness.reset_parameters _ _ _ _); cbn; [|reflexivity].
    destruct (ConceptAwareness.reset_parameters _ _ _ _); cbn; reflexivity.
Qed.

Lemma project_without_bias x (w : Tensor F) t :
  (w' <- permute021 w ;; y <- matmul x w' ;; add_optional y None) <> Ok t.
Proof.
  destruct (permute021 w) as [w'|]; cbn; [|discriminate].
  destruct (matmul x w'); cbn; discriminate.
Qed.

(** C9.  A construction with [bias=False] succeeds and leaves [bias]
    absent, and every call of [forward] on an instance without bias
    raises. *)
Theorem forward_without_bias_raises :
  (forall i o c a h top (wdraw bdraw : nat -> F),
     exists l, ConceptAwareness.init i o c a h top false wdraw bdraw = Ok l /\
               ConceptAwareness.bias l = None) /\
  (forall l x, ConceptAwareness.bias l = None ->
     raises (fst (ConceptAwareness.forward x l))).
Proof.
  split.
  - intros. unfold ConceptAwareness.init, ConceptAwareness.reset_parameters. cbn.
    destruct h; eexists; split; reflexivity.
  - intros l x Hb. run_forward. rewrite Hb.
    destruct (ConceptAwareness.shrink l) eqn:Hs;
      repeat (split_result; cbn); auto;
      exfalso; eapply project_without_bias; eassumption.
Qed.

End ConceptAwarenessState.

Lemma forward_overwrites_concepts_witness :
  ConceptAwareness.concepts
    (snd (ConceptAwareness.forward demo_input (demo_layer false true true))) =
  Some (demo_output false true) /\
  ConceptAwareness.concepts
    (snd (ConceptAwareness.forward demo_input (demo_layer true false true))) =
  Some (promoted demo_input).
Proof.
  split.
  - apply (forward_overwrites_concepts (demo_layer false true true) demo_input
             (demo_output false true)).
    + apply is_ok_returned_or. reflexivity.
    + reflexivity.
  - apply (forward_overwrites_concepts (demo_layer true false true) demo_input
             (demo_output true false)).
    + apply is_ok_returned_or. reflexivity.
    + reflexivity.
Defined.

(** C6, as stated, fails: on an input with 5 features the matrix product of
    a layer with 2 input features raises, and the snapshot, absent before
    the call, holds the promoted input after it. *)
Lemma forward_raise_not_atomic :
  fst (ConceptAwareness.forward wide_input (demo_layer false false true)) =
    Err RuntimeError /\
  ConceptAwareness.concepts (demo_layer false false true) = None /\
  ConceptAwareness.concepts
    (snd (ConceptAwareness.forward wide_input (demo_layer false false true))) <>
  ConceptAwareness.concepts (demo_layer false false true).
Proof.
  split; [reflexivity|]. split; [reflexivity|].
  rewrite forward_raises_concepts.
  - discriminate.
  - exists RuntimeError. reflexivity.
Qed.

Lemma forward_raise_keeps_promoted_input_witness :
  ConceptAwareness.concepts
    (snd (ConceptAwareness.forward wide_input (demo_layer false false true))) =
  Some (promoted wide_input) /\
  same_parameters (demo_layer false false true)
    (snd (ConceptAwareness.forward wide_input (demo_layer false false true))).
Proof.
  apply (forward_raise_keeps_promoted_input (demo_layer false false true) wide_input).
  exists RuntimeError. reflexivity.
Defined.

Lemma forward_without_bias_raises_witness :
  raises (fst (ConceptAwareness.forward demo_input (demo_layer false false false))).
Proof.
  apply (proj2 forward_without_bias_raises (demo_layer false false false) demo_input).
  reflexivity.
Defined.

(** ** Logic *)

Section LogicForward.

Context {F : Type} {SF : Scalar F}.
Variable fuzzy : F -> F.

(** C3.  With [top] true, [Logic.forward] returns the input with the
    activation applied to every element, whatever the weight and the bias
    are; with [top] false it returns [linear] of that tensor, the weight and
    the bias. *)
Theorem logic_forward_top_or_linear (l : Logic.t (F:=F)) (x : Tensor F) :
  let a :=
    tmap (Conceptizator.activation_of fuzzy
            (Conceptizator.activation (Logic.conceptizator l))) x in
  (Logic.top l = true ->
   forall w b,
     fst (Logic.forward fuzzy x (Logic.set_bias b (Logic.set_weight w l))) = Ok a) /\
  (Logic.top l = false ->
   fst (Logic.forward fuzzy x l) = Logic.linear a (Logic.weight l) (Logic.bias l)).
Proof.
  cbn. split.
  - intros Ht w b.
    unfold Logic.forward, Logic.call_conceptizator, Conceptizator.call,
      mbind, mif, mret, eval_self, assign.
    cbn. rewrite Ht. reflexivity.
  - intros Ht.
    unfold Logic.forward, Logic.call_conceptizator, Conceptizator.call,
      mbind, mif, mret, eval_self, assign.
    cbn. rewrite Ht. reflexivity.
Qed.

End LogicForward.

Lemma logic_forward_top_or_linear_witness :
  fst (Logic.forward sigmoid demo_input
         (Logic.set_bias None (Logic.set_weight wide_input (demo_logic true)))) =
    Ok (tmap (Rmax 0) demo_input) /\
  fst (Logic.forward sigmoid demo_input (demo_logic false)) =
    Logic.linear (tmap (Rmax 0) demo_input)
      (Logic.weight (demo_logic false)) (Logic.bias (demo_logic false)).
Proof.
  split.
  - exact (proj1 (logic_forward_top_or_linear sigmoid (demo_logic true) demo_input)
             eq_refl wide_input None).
  - exact (proj2 (logic_forward_top_or_linear sigmoid (demo_logic false) demo_input)
             eq_refl).
Defined.

(** ** The size of what [ConceptAwareness.forward] returns *)

Section ConceptAwarenessShape.

Context {F : Type} {SF : Scalar F}.

Implicit Types (l : ConceptAwareness.t (F:=F)) (x t : Tensor F).

(** A construction with a bias builds a well-shaped instance, and succeeds
    only with at least one input and one output feature. *)
Lemma init_well_shaped i o c a h top (wdraw bdraw : nat -> F) l :
  ConceptAwareness.init i o c a h top true wdraw bdraw = Ok l ->
  well_shaped l /\ 0 < ConceptAwareness.in_features l /\
  0 < ConceptAwareness.out_features l /\
  ConceptAwareness.top l = top /\
  ConceptAwareness.shrink l = (match h with Some _ => true | None => false end).
Proof.
  unfold ConceptAwareness.init, ConceptAwareness.reset_parameters, fan_in. cbn.
  destruct (i * 1 =? 0) eqn:E1; cbn; [discriminate|].
  destruct (o * (i * 1) =? 0) eqn:E2; cbn; [discriminate|].
  apply Nat.eqb_neq in E1, E2.
  destruct h; intros H; injection H as <-; cbn;
    (split; [split; [reflexivity | eexists; split; reflexivity] |]);
    repeat split; try reflexivity; nia.
Qed.

(** What a call returns on a well-shaped instance: the per-class batch, and
    with [top] the same elements as [batch * out] rows of [n_classes]
    columns. *)
Lemma forward_returns l x B :
  well_shaped l -> batch_of l B x ->
  (ConceptAwareness.shrink l = true -> 0 < ConceptAwareness.in_features l) ->
  (ConceptAwareness.top l = false ->
   exists t, fst (ConceptAwareness.forward x l) = Ok t /\
             shape t = [ConceptAwareness.n_classes l; B; ConceptAwareness.out_features l]) /\
  (ConceptAwareness.top l = true -> 0 < ConceptAwareness.n_classes l ->
   exists t, fst (ConceptAwareness.forward x l) = Ok t /\
             shape t = [B * ConceptAwareness.out_features l; ConceptAwareness.n_classes l]).
Proof.
  intros [Hw (b & Hb & Hbs)] Hx HI.
  destruct (promoted_shape l x B Hx) as (C' & Hp & HC).
  assert (Hy : exists s y,
             ConceptAwareness.forward x l =
             (if ConceptAwareness.top l
              then match v <- view_rows (ConceptAwareness.n_classes l) y ;; transpose v with
                   | Ok r => (Ok r, ConceptAwareness.set_concepts r s)
                   | Err e => (Err e, s)
                   end
              else (Ok y, s)) /\
             shape y = [ConceptAwareness.n_classes l; B; ConceptAwareness.out_features l]).
  { run_forward. rewrite Hb.
    destruct (ConceptAwareness.shrink l) eqn:Hs.
    - destruct (gate_shape (promoted x) (ConceptAwareness.weight l) _ _ _ _ _
                  Hp Hw (HI eq_refl) HC)
        as (g & a & b' & x' & -> & _ & -> & _ & -> & _ & -> & Hx').
      destruct (project_shape x' (ConceptAwareness.weight l) b _ _ _ _ _
                  Hx' Hw Hbs (or_intror eq_refl)) as (y & -> & Hy).
      cbn. eexists _, y. split; [reflexivity | exact Hy].
    - destruct (project_shape (promoted x) (ConceptAwareness.weight l) b _ _ _ _ _
                  Hp Hw Hbs HC) as (y & -> & Hy).
      cbn. eexists _, y. split; [reflexivity | exact Hy]. }
  destruct Hy as (s & y & -> & Hy). split.
  - intros ->. exists y. split; [reflexivity | exact Hy].
  - intros -> HC0.
    destruct (view_rows_transpose_shape y _ _ _ Hy HC0) as (r & -> & Hr).
    exists r. split; [reflexivity | exact Hr].
Qed.

(** The read-out of line 63 needs at least one class: [view(0, -1)]
    raises. *)
Lemma forward_top_without_classes_raises l x :
  ConceptAwareness.top l = true -> ConceptAwareness.n_classes l = 0 ->
  raises (fst (ConceptAwareness.forward x l)).
Proof.
  intros Ht Hc. run_forward.
  destruct (ConceptAwareness.shrink l) eqn:Hs;
    repeat (split_result; cbn); auto; try congruence;
    match goal with
    | H : rbind (view_rows _ _) _ = Ok _ |- _ => rewrite Hc in H; discriminate H
    end.
Qed.

(** C2.  On a well-shaped instance, [forward] applied to an input of size
    (batch, in) or (n_classes, batch, in) returns a tensor of size
    (n_classes, batch, out); with [top] and [out = 1] it returns a tensor of
    size (batch, n_classes). *)
Theorem forward_shape l x B :
  well_shaped l -> batch_of l B x ->
  (ConceptAwareness.shrink l = true -> 0 < ConceptAwareness.in_features l) ->
  (ConceptAwareness.top l = false ->
   exists t, fst (ConceptAwareness.forward x l) = Ok t /\
             shape t = [ConceptAwareness.n_classes l; B; ConceptAwareness.out_features l]) /\
  (ConceptAwareness.top l = true -> ConceptAwareness.out_features l = 1 ->
   0 < ConceptAwareness.n_classes l ->
   exists t, fst (ConceptAwareness.forward x l) = Ok t /\
             shape t = [B; ConceptAwareness.n_classes l]).
Proof.
  intros Hl Hx HI.
  destruct (forward_returns l x B Hl Hx HI) as [H1 H2]. split.
  - exact H1.
  - intros Ht Ho HC. destruct (H2 Ht HC) as (t & Et & Hs).
    exists t. split; [exact Et|].
    rewrite Hs, Ho. f_equal. lia.
Qed.

(** C10.  With [top] and more than one output feature, [forward] returns a
    tensor of size (batch * out, n_classes). *)
Theorem forward_top_shape_flattens_batch_and_features l x B :
  well_shaped l -> batch_of l B x ->
  (ConceptAwareness.shrink l = true -> 0 < ConceptAwareness.in_features l) ->
  ConceptAwareness.top l = true -> 1 < ConceptAwareness.out_features l ->
  0 < ConceptAwareness.n_classes l ->
  exists t, fst (ConceptAwareness.forward x l) = Ok t /\
            shape t = [B * ConceptAwareness.out_features l; ConceptAwareness.n_classes l].
Proof.
  intros Hl Hx HI Ht _ HC.
  exact (proj2 (forward_returns l x B Hl Hx HI) Ht HC).
Qed.

End ConceptAwarenessShape.

Lemma demo_layer_well_shaped shrink top : well_shaped (demo_layer shrink top true).
Proof. split; [reflexivity|]. exists demo_bias. split; reflexivity. Qed.

Lemma demo_layer1_well_shaped shrink top : well_shaped (demo_layer1 shrink top).
Proof. split; [reflexivity|]. eexists. split; reflexivity. Qed.

Lemma forward_shape_witness :
  (exists t, fst (ConceptAwareness.forward demo_input (demo_layer true false true)) = Ok t /\
             shape t = [2; 4; 3]) /\
  (exists t, fst (ConceptAwareness.forward demo_input3 (demo_layer1 true true)) = Ok t /\
             shape t = [4; 2]).
Proof.
  split.
  - apply (forward_shape (demo_layer true false true) demo_input 4).
    + apply demo_layer_well_shaped.
    + left. reflexivity.
    + intros _. cbn. lia.
    + reflexivity.
  - apply (forward_shape (demo_layer1 true true) demo_input3 4).
    + apply demo_layer1_well_shaped.
    + right. reflexivity.
    + intros _. cbn. lia.
    + reflexivity.
    + reflexivity.
    + cbn. lia.
Defined.

Lemma forward_top_shape_flattens_batch_and_features_witness :
  exists t, fst (ConceptAwareness.forward demo_input (demo_layer false true true)) = Ok t /\
            shape t = [12; 2].
Proof.
  apply (forward_top_shape_flattens_batch_and_features
           (demo_layer false true true) demo_input 4).
  - apply demo_layer_well_shaped.
  - left. reflexivity.
  - discriminate.
  - reflexivity.
  - cbn. lia.
  - cbn. lia.
Defined.

(** ** Well-formedness of what [forward] returns *)

Section ForwardWf.

Context {F : Type} {SF : Scalar F}.

Implicit Types (l : ConceptAwareness.t (F:=F)) (x t : Tensor F).

Lemma binop_wf (f : F -> F -> F) a b t : binop f a b = Ok t -> wf t.
Proof.
  unfold binop. destruct (broadcast_shapes _ _); [|discriminate].
  intros H. injection H as <-. unfold wf. cbn. apply tabulate_length.
Qed.

Lemma add_optional_wf x (b : option (Tensor F)) t : add_optional x b = Ok t -> wf t.
Proof. destruct b; cbn; [apply binop_wf | discriminate]. Qed.

Lemma view_rows_transpose_wf n x t :
  (v <- view_rows n x ;; transpose v) = Ok t -> wf t.
Proof.
  unfold view_rows. destruct (_ && _)%bool; [|discriminate]. cbn.
  intros H. injection H as <-. unfold wf. cbn.
  rewrite tabulate_length. lia.
Qed.

Lemma project_wf x (w : Tensor F) (b : option (Tensor F)) t :
  (w' <- permute021 w ;; y <- matmul x w' ;; add_optional y b) = Ok t -> wf t.
Proof.
  destruct (permute021 w) as [w'|]; cbn; [|discriminate].
  destruct (matmul x w') as [y|]; cbn; [|discriminate].
  apply add_optional_wf.
Qed.

(** Whatever the instance and the input, a tensor that [forward] returns
    has as many elements as its sizes say. *)
Lemma forward_returns_wf l x t :
  fst (ConceptAwareness.forward x l) = Ok t -> wf t.
Proof.
  run_forward.
  destruct (ConceptAwareness.shrink l) eqn:Hs;
    repeat (split_result; cbn); try discriminate;
    intros H; injection H as <-;
    solve [ eapply view_rows_transpose_wf; eassumption
          | eapply project_wf; eassumption ].
Qed.

Lemma attention_init_well_shaped i o c first (draw : nat -> nat -> F) :
  attention_well_shaped (Attention.init i o c first draw).
Proof. repeat split. Qed.

End ForwardWf.

(** ** Sequential *)

Section SequentialForward.

Context {F : Type} {SF : Scalar F}.
Variable fuzzy : F -> F.

Implicit Types (ms : list (Sequential.module (F:=F))) (x y : Tensor F).

Lemma call1_attention_raises (m : Sequential.module (F:=F)) x :
  Sequential.is_Attention m = true ->
  Sequential.call1 fuzzy m x = (Err TypeError, m).
Proof. destruct m; simpl; intros H; try discriminate; reflexivity. Qed.

Lemma run_eval_calls ms : forall i x y,
  Forall is_CallX (Sequential.calls (Sequential.run fuzzy i ms x y false)).
Proof.
  induction ms as [|m ms IH]; intros i x y; simpl.
  - constructor.
  - rewrite andb_false_r.
    destruct (Sequential.call1 fuzzy m x) as [[x'|e] m']; simpl.
    + constructor; [now exists i | apply IH].
    + constructor; [now exists i | constructor].
Qed.

Lemma run_eval_attention_raises ms : forall i x y,
  existsb Sequential.is_Attention ms = true ->
  raises (Sequential.returned (Sequential.run fuzzy i ms x y false)).
Proof.
  induction ms as [|m ms IH]; intros i x y; simpl.
  - discriminate.
  - rewrite andb_false_r. intros H.
    destruct (Sequential.is_Attention m) eqn:Hm.
    + rewrite call1_attention_raises by assumption. simpl. auto.
    + simpl in H.
      destruct (Sequential.call1 fuzzy m x) as [[x'|e] m']; simpl; auto.
Qed.

Lemma run_eval_first_attention pre a post : forall i x y x',
  Sequential.returned (Sequential.run fuzzy i pre x y false) = Ok x' ->
  let o := Sequential.run fuzzy i (pre ++ Sequential.MAttention a :: post) x y false in
  Sequential.returned o = Err TypeError /\
  In (Sequential.CallX (i + length pre)) (Sequential.calls o).
Proof.
  induction pre as [|m pre IH]; intros i x y x'; simpl.
  - intros _. rewrite Nat.add_0_r. split; [reflexivity | now left].
  - rewrite andb_false_r.
    destruct (Sequential.call1 fuzzy m x) as [[x1|e] m']; simpl.
    + intros H. destruct (IH (S i) x1 y x' H) as [H1 H2].
      split; [exact H1|]. right.
      replace (i + S (length pre)) with (S i + length pre) by lia. exact H2.
    + discriminate.
Qed.

Lemma run_train_irrelevant ms : forall i x y,
  existsb Sequential.is_Attention ms = false ->
  Sequential.run fuzzy i ms x y false = Sequential.run fuzzy i ms x y true.
Proof.
  induction ms as [|m ms IH]; intros i x y; simpl.
  - reflexivity.
  - intros H. apply orb_false_iff in H as [Hm Hms].
    rewrite Hm. simpl.
    destruct (Sequential.call1 fuzzy m x) as [[x'|e] m']; simpl.
    + now rewrite IH.
    + reflexivity.
Qed.

(** C1, as amended.  With [train=False] every call the container makes
    passes [x] alone, also to an [Attention] layer, whose call then raises
    [TypeError]: a container that holds an [Attention] layer raises, at the
    first such layer when the layers before it return.  A container without
    [Attention] layers does the same for both values of [train]. *)
Theorem sequential_eval_calls_attention_without_label ms x y :
  let o := Sequential.forward fuzzy ms (x, y) false in
  Forall is_CallX (Sequential.calls o) /\
  (existsb Sequential.is_Attention ms = true -> raises (Sequential.returned o)) /\
  (forall pre a post x',
     ms = pre ++ Sequential.MAttention a :: post ->
     Sequential.returned (Sequential.forward fuzzy pre (x, y) false) = Ok x' ->
     Sequential.returned o = Err TypeError /\
     In (Sequential.CallX (length pre)) (Sequential.calls o)) /\
  (existsb Sequential.is_Attention ms = false ->
   o = Sequential.forward fuzzy ms (x, y) true).
Proof.
  unfold Sequential.forward. repeat split.
  - apply run_eval_calls.
  - apply run_eval_attention_raises.
  - subst ms. eapply run_eval_first_attention; eassumption.
  - subst ms.
    change (length pre) with (0 + length pre).
    eapply run_eval_first_attention; eassumption.
  - apply run_train_irrelevant.
Qed.

End SequentialForward.

(** C1, as stated, fails: a container that holds one [Attention] layer,
    called with [train=False], calls the layer with [x] alone and raises,
    where skipping the layer would return [x]. *)
Lemma sequential_eval_does_not_skip_attention :
  let ms := [Sequential.MAttention demo_attention] in
  let o := Sequential.forward sigmoid ms (demo_input, demo_labels) false in
  Sequential.returned o = Err TypeError /\
  Sequential.calls o = [Sequential.CallX 0] /\
  Sequential.returned
    (Sequential.forward sigmoid (without_attention ms) (demo_input, demo_labels) false) =
    Ok demo_input /\
  Sequential.returned o <>
  Sequential.returned
    (Sequential.forward sigmoid (without_attention ms) (demo_input, demo_labels) false).
Proof.
  cbv zeta. repeat split; try reflexivity. discriminate.
Qed.

Lemma sequential_eval_calls_attention_without_label_witness :
  raises
    (Sequential.returned
       (Sequential.forward sigmoid
          [Sequential.MOther (fun x => Ok x); Sequential.MAttention demo_attention]
          (demo_input, demo_labels) false)).
Proof.
  apply (sequential_eval_calls_attention_without_label sigmoid
           [Sequential.MOther (fun x => Ok x); Sequential.MAttention demo_attention]
           demo_input demo_labels).
  reflexivity.
Defined.

(** ** Gating over the reals *)

Open Scope R_scope.

Lemma ssum_nonneg (l : list R) :
  (forall v, In v l -> 0 <= v) -> 0 <= ssum l.
Proof.
  induction l as [|a l IH]; intros H; simpl.
  - lra.
  - assert (0 <= a) by (apply H; now left).
    assert (0 <= ssum l) by (apply IH; intros v Hv; apply H; now right).
    lra.
Qed.

Lemma ssum_pos (l : list R) (v : R) :
  (forall u, In u l -> 0 < u) -> In v l -> 0 < ssum l.
Proof.
  induction l as [|a l IH]; intros H Hv; simpl.
  - destruct Hv.
  - assert (0 < a) by (apply H; now left).
    assert (0 <= ssum l).
    { apply ssum_nonneg. intros u Hu. left. apply H. now right. }
    lra.
Qed.

Lemma softmax_entry_pos (l : list R) (v : R) :
  In v l -> 0 < exp v / ssum (map exp l).
Proof.
  intros Hv. apply Rdiv_lt_0_compat; [apply exp_pos|].
  apply (ssum_pos (map exp l) (exp v)).
  - intros u Hu. apply in_map_iff in Hu as (w & <- & _). apply exp_pos.
  - now apply in_map.
Qed.

Lemma fold_left_Rmax_init (l : list R) : forall a, a <= fold_left Rmax l a.
Proof.
  induction l as [|b l IH]; intros a; simpl.
  - lra.
  - apply Rle_trans with (Rmax a b); [apply Rmax_l | apply IH].
Qed.

Lemma fold_left_Rmax_upper (l : list R) : forall a v,
  In v l -> v <= fold_left Rmax l a.
Proof.
  induction l as [|b l IH]; intros a v Hv; simpl.
  - destruct Hv.
  - destruct Hv as [<- | Hv].
    + apply Rle_trans with (Rmax a b); [apply Rmax_r | apply fold_left_Rmax_init].
    + now apply IH.
Qed.

Lemma fold_left_Rmax_attained (l : list R) : forall a,
  fold_left Rmax l a = a \/ In (fold_left Rmax l a) l.
Proof.
  induction l as [|b l IH]; intros a; simpl.
  - now left.
  - destruct (IH (Rmax a b)) as [H | H].
    + rewrite H. unfold Rmax. destruct (Rle_dec a b); [right; now left | now left].
    + right. now right.
Qed.

Lemma smaximum_upper (l : list R) (v : R) : In v l -> v <= smaximum l.
Proof.
  destruct l as [|a l]; intros Hv; simpl.
  - destruct Hv.
  - destruct Hv as [<- | Hv].
    + apply fold_left_Rmax_init.
    + now apply fold_left_Rmax_upper.
Qed.

Lemma smaximum_attained (l : list R) : l <> [] -> In (smaximum l) l.
Proof.
  destruct l as [|a l]; intros H; [contradiction|]. simpl.
  destruct (fold_left_Rmax_attained l a) as [-> | Hin]; [now left | now right].
Qed.

(** A list of positive numbers divided by its maximum: every quotient lies
    in (0, 1] and the largest one is 1. *)
Lemma rescaled_by_maximum (l : list R) :
  l <> [] -> (forall v, In v l -> 0 < v) ->
  0 < smaximum l /\
  (forall v, In v l -> 0 < v / smaximum l <= 1) /\
  smaximum (map (fun v => v / smaximum l) l) = 1.
Proof.
  intros Hne Hpos.
  pose proof (smaximum_attained l Hne) as Hin.
  assert (HM : 0 < smaximum l) by (now apply Hpos).
  assert (Hq : forall v, In v l -> 0 < v / smaximum l <= 1).
  { intros v Hv. split.
    - apply Rdiv_lt_0_compat; [now apply Hpos | assumption].
    - pose proof (smaximum_upper l v Hv) as Hle.
      apply (Rmult_le_reg_r (smaximum l)); [assumption|].
      unfold Rdiv. rewrite Rmult_assoc, Rinv_l by lra. lra. }
  split; [assumption|]. split; [assumption|].
  set (l' := map (fun v => v / smaximum l) l).
  assert (H1 : In 1 l').
  { unfold l'. apply in_map_iff. exists (smaximum l). split; [|assumption].
    field. lra. }
  assert (Hne' : l' <> []) by (intros E; rewrite E in H1; destruct H1).
  apply Rle_antisym.
  - pose proof (smaximum_attained l' Hne') as Hin'.
    unfold l' in Hin' at 2. apply in_map_iff in Hin' as (v & <- & Hv).
    apply Hq, Hv.
  - now apply smaximum_upper.
Qed.

Lemma row_nonempty (t : Tensor R) (K j : nat) : (0 < K)%nat -> row t K j <> [].
Proof.
  intros HK. unfold row. destruct K; [lia|]. simpl. discriminate.
Qed.

Lemma in_row (t : Tensor R) (K j i : nat) :
  (i < K)%nat -> In (at_ t (j * K + i)) (row t K j).
Proof.
  intros Hi. unfold row.
  apply (in_map (fun i => at_ t (j * K + i)) (seq 0 K) i).
  apply in_seq. lia.
Qed.

(** Rows that are the softmax of some rows, divided by their maximum. *)
Lemma rescaled_softmax_rows (g a b : Tensor R) (K j : nat) :
  (0 < K)%nat ->
  (forall i, (i < K)%nat ->
     at_ a (j * K + i) = exp (at_ g (j * K + i)) / ssum (map exp (row g K j))) ->
  (forall i, (i < K)%nat ->
     at_ b (j * K + i) = at_ a (j * K + i) / smaximum (row a K j)) ->
  (forall i, (i < K)%nat -> 0 < at_ a (j * K + i)) /\
  (forall i, (i < K)%nat -> 0 < at_ b (j * K + i) <= 1) /\
  smaximum (row b K j) = 1.
Proof.
  intros HK Ha Hb.
  assert (Hpos : forall v, In v (row a K j) -> 0 < v).
  { intros v Hv. unfold row in Hv. apply in_map_iff in Hv as (i & <- & Hi).
    apply in_seq in Hi. rewrite Ha by lia.
    apply softmax_entry_pos. apply in_row. lia. }
  destruct (rescaled_by_maximum (row a K j) (row_nonempty a K j HK) Hpos)
    as (HM & Hq & H1).
  split; [|split].
  - intros i Hi. apply Hpos. now apply in_row.
  - intros i Hi. rewrite Hb by assumption. apply Hq. now apply in_row.
  - rewrite <- H1. f_equal. unfold row. rewrite map_map.
    apply map_ext_in. intros i Hi. apply in_seq in Hi. apply Hb. lia.
Qed.

(** What lines 55-57 assign, whatever happens to the call afterwards. *)
Lemma shrink_gate_values
    (l : ConceptAwareness.t (F:=R)) (x : Tensor R) (C O I : nat) :
  ConceptAwareness.shrink l = true ->
  shape (ConceptAwareness.weight l) = [C; O; I] -> (0 < I)%nat ->
  exists g a b,
    ConceptAwareness.gamma (snd (ConceptAwareness.forward x l)) = Some g /\
    ConceptAwareness.alpha (snd (ConceptAwareness.forward x l)) = Some a /\
    ConceptAwareness.beta (snd (ConceptAwareness.forward x l)) = Some b /\
    shape g = [C; I] /\ shape a = [C; I] /\ shape b = [C; I] /\
    forall c, (c < C)%nat ->
      (forall i, (i < I)%nat ->
         get g [c; i] =
           sqrt (ssum (map (fun o => get (ConceptAwareness.weight l) [c; o; i] *
                                     get (ConceptAwareness.weight l) [c; o; i])
                           (seq 0 O))) /\
         get a [c; i] =
           exp (get g [c; i]) / ssum (map (fun k => exp (get g [c; k])) (seq 0 I)) /\
         get b [c; i] =
           get a [c; i] / smaximum (map (fun k => get a [c; k]) (seq 0 I)) /\
         0 < get b [c; i] <= 1) /\
      smaximum (map (fun i => get b [c; i]) (seq 0 I)) = 1.
Proof.
  intros Hs Hw HI.
  destruct (norm_dim_1_weight (ConceptAwareness.weight l) C O I Hw)
    as (g & Eg & Hg & Vg).
  destruct (softmax_dim_1_rows g C I Hg) as (a & Ea & Ha & Va).
  destruct (rescale_rows2 a C I Ha HI) as (b & Eb & Hb & Vb).
  exists g, a, b.
  assert (Hst :
    ConceptAwareness.gamma (snd (ConceptAwareness.forward x l)) = Some g /\
    ConceptAwareness.alpha (snd (ConceptAwareness.forward x l)) = Some a /\
    ConceptAwareness.beta (snd (ConceptAwareness.forward x l)) = Some b).
  { run_forward. rewrite Hs, Eg. cbn. rewrite Ea. cbn. rewrite Eb. cbn.
    repeat (split_result; cbn); repeat split; reflexivity. }
  destruct Hst as (H1 & H2 & H3).
  repeat (split; [assumption|]).
  intros c Hc.
  destruct (rescaled_softmax_rows g a b I c HI) as (Hpa & Hpb & Hmax).
  { intros i Hi. exact (Va c i Hc Hi). }
  { intros i Hi. exact (Vb c i Hc Hi). }
  split.
  - intros i Hi.
    rewrite (get2 g C I c i Hg), (get2 a C I c i Ha), (get2 b C I c i Hb).
    repeat split.
    + rewrite (Vg c i Hc Hi). cbn. f_equal. f_equal.
      apply map_ext. intros o.
      now rewrite (get3 (ConceptAwareness.weight l) C O I c o i Hw).
    + rewrite (Va c i Hc Hi). cbn. f_equal. f_equal.
      unfold row. rewrite map_map. apply map_ext. intros k.
      now rewrite (get2 g C I c k Hg).
    + rewrite (Vb c i Hc Hi). cbn. f_equal. f_equal.
      apply (row_get2 a C I c Ha).
    + apply Hpb, Hi.
    + apply Hpb, Hi.
  - rewrite <- (row_get2 b C I c Hb). exact Hmax.
Qed.

(** C4, as amended.  In shrink mode [forward] assigns [gamma], the norms of
    the weight taken per class and per input feature (along the output
    features), [alpha], the softmax of [gamma] across the input features,
    and [beta], [alpha] over its maximum per class; for every class all
    entries of [beta] lie in (0, 1] and their maximum is 1. *)
Theorem shrink_gate_per_input_feature
    (l : ConceptAwareness.t (F:=R)) (x : Tensor R) (C O I : nat) :
  ConceptAwareness.shrink l = true ->
  shape (ConceptAwareness.weight l) = [C; O; I] -> (0 < I)%nat ->
  exists g a b,
    ConceptAwareness.gamma (snd (ConceptAwareness.forward x l)) = Some g /\
    ConceptAwareness.alpha (snd (ConceptAwareness.forward x l)) = Some a /\
    ConceptAwareness.beta (snd (ConceptAwareness.forward x l)) = Some b /\
    shape g = [C; I] /\ shape a = [C; I] /\ shape b = [C; I] /\
    forall c, (c < C)%nat ->
      (forall i, (i < I)%nat ->
         get g [c; i] =
           sqrt (ssum (map (fun o => get (ConceptAwareness.weight l) [c; o; i] *
                                     get (ConceptAwareness.weight l) [c; o; i])
                           (seq 0 O))) /\
         get a [c; i] =
           exp (get g [c; i]) / ssum (map (fun k => exp (get g [c; k])) (seq 0 I)) /\
         get b [c; i] =
           get a [c; i] / smaximum (map (fun k => get a [c; k]) (seq 0 I)) /\
         0 < get b [c; i] <= 1) /\
      smaximum (map (fun i => get b [c; i]) (seq 0 I)) = 1.
Proof. exact (shrink_gate_values l x C O I). Qed.

Lemma shrink_gate_per_input_feature_witness :
  exists g a b,
    ConceptAwareness.gamma
      (snd (ConceptAwareness.forward demo_input (demo_layer true false true))) = Some g /\
    ConceptAwareness.alpha
      (snd (ConceptAwareness.forward demo_input (demo_layer true false true))) = Some a /\
    ConceptAwareness.beta
      (snd (ConceptAwareness.forward demo_input (demo_layer true false true))) = Some b /\
    shape g = [2; 2]%nat /\ shape a = [2; 2]%nat /\ shape b = [2; 2]%nat /\
    smaximum (map (fun i => get b [0; i]%nat) (seq 0 2)) = 1.
Proof.
  destruct (shrink_gate_per_input_feature (demo_layer true false true) demo_input
              2 3 2 eq_refl eq_refl ltac:(lia))
    as (g & a & b & H1 & H2 & H3 & H4 & H5 & H6 & H7).
  exists g, a, b. repeat (split; [assumption|]).
  apply (H7 0%nat). lia.
Defined.

(** C4, as stated, fails: for a weight with 3 output features and 2 input
    features, [gamma] holds 2 norms per class, one per input feature, and so
    do [alpha] and [beta]; norms taken per output feature would be 3 per
    class. *)
Lemma shrink_gate_not_per_output_feature :
  exists g g',
    ConceptAwareness.gamma
      (snd (ConceptAwareness.forward demo_input (demo_layer true false true))) = Some g /\
    gamma_per_output_feature (ConceptAwareness.weight (demo_layer true false true)) = Ok g' /\
    shape g = [2; 2]%nat /\ shape g' = [2; 3]%nat /\ g <> g'.
Proof.
  destruct (shrink_gate_values (demo_layer true false true) demo_input
              2 3 2 eq_refl eq_refl ltac:(lia))
    as (g & a & b & H1 & _ & _ & H4 & _).
  exists g.
  exists (reduce_dim (fun vs => sqrt (ssum (map (fun v => v * v) vs))) 2 demo_weight).
  split; [exact H1|]. split; [reflexivity|]. split; [exact H4|].
  split; [reflexivity|].
  intros E. rewrite E in H4. discriminate H4.
Qed.

Close Scope R_scope.

(** ** Attention *)

Section AttentionShapes.

Context {F : Type} {SF : Scalar F}.

Implicit Types (a : Attention.t (F:=F)) (x y t : Tensor F).

Lemma transpose_matrix y n m :
  shape y = [n; m] -> exists t, transpose y = Ok t /\ shape t = [m; n].
Proof. unfold transpose. intros ->. eexists; split; reflexivity. Qed.

Lemma mean_dim_1 t :
  1 < rank t ->
  mean_dim 1 t = Ok (reduce_dim (fun vs => sdiv (ssum vs) (sofnat (length vs))) 1 t).
Proof.
  intros H. unfold mean_dim.
  change 1%Z with (Z.of_nat 1). now rewrite wrap_dim_nonneg.
Qed.

Lemma softmax_dim_last3 t A J K :
  shape t = [A; J; K] -> softmax_dim (-1) t = softmax_dim (Z.of_nat 2) t.
Proof.
  intros Ht. unfold softmax_dim, rank. rewrite Ht. reflexivity.
Qed.

(** Lines 130-138 on a well-shaped layer: the values have size
    (n_classes, batch, in) and the stored scores are the softmax, along the
    last dimension, of a tensor of size (n_classes, 1, in). *)
Lemma scores_shape a x y B :
  attention_well_shaped a -> attention_input a B x y ->
  exists v s avg,
    Attention.scores a x y = Ok (v, s) /\
    shape v = [Attention.n_classes a; B; Attention.in_features a] /\
    shape avg = [Attention.n_classes a; 1; Attention.in_features a] /\
    softmax_dim (-1) avg = Ok s.
Proof.
  intros (Hdv & Hk & Hq & Hv & _ & _) [Hx Hy].
  rewrite Hdv in Hv.
  set (C := Attention.n_classes a) in *.
  set (I := Attention.in_features a) in *.
  set (K := Attention.d_key_query a) in *.
  unfold Attention.scores.
  assert (Hx' : exists x' C',
             (if Attention.first a then unsqueeze 0 x else Ok x) = Ok x' /\
             shape x' = [C'; B; I] /\ (C' = 1 \/ C' = C)).
  { destruct Hx as [[-> Hx] | [-> [Hx | Hx]]].
    - rewrite unsqueeze_0. eexists _, 1. cbn [shape]. rewrite Hx. auto.
    - exists x, 1. auto.
    - exists x, C. auto. }
  destruct Hx' as (x' & C' & -> & Hx' & HC). cbn [rbind].
  destruct (transpose_matrix y B C Hy) as (y' & -> & Hy'). cbn [rbind].
  rewrite !unsqueeze_last. cbn [rbind].
  destruct (matmul_shape (mkTensor (shape x' ++ [1]) (data x')) (Attention.w_key a)
              [C'; B] [C; 1] [C; B] I 1 K) as (keys & -> & Hkeys).
  { cbn [shape]. now rewrite Hx'. }
  { exact Hk. }
  { destruct HC as [-> | ->]; bshape; reflexivity. }
  cbn [rbind].
  destruct (matmul_shape (mkTensor (shape y' ++ [1]) (data y')) (Attention.w_query a)
              [C] [C] [C] B 1 K) as (querys & -> & Hquerys).
  { cbn [shape]. now rewrite Hy'. }
  { exact Hq. }
  { bshape. reflexivity. }
  cbn [rbind].
  destruct (binop_shape smul x' (Attention.w_value a) [C; B; I]) as (v & Ev & Hvs).
  { rewrite Hx', Hv. destruct HC as [-> | ->]; bshape; reflexivity. }
  unfold tmul. rewrite Ev. cbn [rbind].
  rewrite unsqueeze_last. cbn [rbind].
  destruct (matmul_shape keys (mkTensor (shape querys ++ [1]) (data querys))
              [C; B] [C; B] [C; B] I K 1) as (sc & -> & Hsc).
  { exact Hkeys. }
  { cbn [shape]. now rewrite Hquerys. }
  { bshape. reflexivity. }
  cbn [rbind].
  rewrite mean_dim_1 by (unfold rank; rewrite Hsc; simpl; lia).
  cbn [rbind].
  set (m := reduce_dim _ 1 sc).
  assert (Hm : shape m = [C; I; 1])
    by (change (shape m) with (remove_nth 1 (shape sc)); now rewrite Hsc).
  unfold permute021. rewrite Hm. cbn [rbind].
  set (avg := mkTensor [C; 1; I] _).
  destruct (softmax_dim (-1) avg) as [s|e] eqn:Es.
  - exists v, s, avg. cbn [rbind]. repeat split; auto.
  - exfalso. rewrite (softmax_dim_last3 avg C 1 I eq_refl) in Es.
    rewrite softmax_dim_nonneg in Es by (cbn; lia). discriminate.
Qed.

End AttentionShapes.

Open Scope R_scope.

(** Lines 138 and 139 on a well-shaped layer: the stored scores and the
    factor that multiplies the values, element by element. *)
Lemma attention_rescaled_values
    (a : Attention.t (F:=R)) (x y : Tensor R) (B : nat) :
  attention_well_shaped a -> attention_input a B x y ->
  (0 < Attention.in_features a)%nat -> (0 < B)%nat ->
  exists v s r,
    Attention.scores a x y = Ok (v, s) /\
    Attention.attn_scores_softmax (snd (Attention.forward x y a)) = Some s /\
    Attention.rescaled s = Ok r /\
    shape s = [Attention.n_classes a; 1; Attention.in_features a]%nat /\
    shape r = [Attention.n_classes a; 1; Attention.in_features a]%nat /\
    forall c, (c < Attention.n_classes a)%nat ->
      (forall i, (i < Attention.in_features a)%nat ->
         0 < get s [c; 0; i]%nat /\
         get r [c; 0; i]%nat =
           get s [c; 0; i]%nat /
           smaximum (map (fun k => get s [c; 0; k]%nat)
                         (seq 0 (Attention.in_features a))) /\
         0 < get r [c; 0; i]%nat <= 1) /\
      smaximum (map (fun i => get r [c; 0; i]%nat)
                    (seq 0 (Attention.in_features a))) = 1.
Proof.
  intros Ha Hin HI _.
  destruct (scores_shape a x y B Ha Hin) as (v & s & avg & Esc & _ & Havg & Es).
  set (C := Attention.n_classes a) in *.
  set (I := Attention.in_features a) in *.
  rewrite (softmax_dim_last3 avg C 1 I Havg) in Es.
  destruct (softmax_rows 2 avg s I (C * 1)) as [Hs Vs].
  { unfold rank. rewrite Havg. simpl. lia. }
  { unfold dim_size. now rewrite Havg. }
  { unfold inner_numel. now rewrite Havg. }
  { rewrite Havg. simpl. lia. }
  { exact Es. }
  rewrite Havg in Hs.
  destruct (rescale_rows3 s C 1 I Hs HI) as (r & Er & Hr & Vr).
  exists v, s, r.
  split; [exact Esc|]. split.
  { unfold Attention.forward, mbind, eval, eval_self, assign, mif.
    rewrite Esc. cbn. rewrite Er. cbn.
    repeat (split_result; cbn); reflexivity. }
  split; [exact Er|]. split; [exact Hs|]. split; [exact Hr|].
  intros c Hc.
  assert (Hj : (c * 1 + 0 < C * 1)%nat) by lia.
  destruct (rescaled_softmax_rows avg s r I (c * 1 + 0) HI) as (Hps & Hpr & Hmax).
  { intros i Hi. exact (Vs (c * 1 + 0)%nat i Hj Hi). }
  { intros i Hi. exact (Vr (c * 1 + 0)%nat i Hj Hi). }
  split.
  - intros i Hi.
    rewrite (get3 s C 1 I c 0 i Hs), (get3 r C 1 I c 0 i Hr).
    repeat split.
    + apply Hps, Hi.
    + rewrite (Vr (c * 1 + 0)%nat i Hj Hi). cbn. f_equal. f_equal.
      apply (row_get3 s C 1 I c 0 Hs).
    + apply Hpr, Hi.
    + apply Hpr, Hi.
  - rewrite <- (row_get3 r C 1 I c 0 Hr). exact Hmax.
Qed.

(** C5.  On a well-shaped attention layer, with at least one input feature
    and a batch that is not empty, [forward] stores scores of size
    (n_classes, 1, in), all positive, and the factor of line 139, the scores
    over their maximum per class, lies in (0, 1] and has maximum 1 for
    every class.  The maximum is taken along the last dimension, over the
    input features: the scores have no batch dimension, the batch has been
    averaged out on line 137.  The statement is over the reals. *)
Theorem attention_rescaled_scores_max
    (a : Attention.t (F:=R)) (x y : Tensor R) (B : nat) :
  attention_well_shaped a -> attention_input a B x y ->
  (0 < Attention.in_features a)%nat -> (0 < B)%nat ->
  exists v s r,
    Attention.scores a x y = Ok (v, s) /\
    Attention.attn_scores_softmax (snd (Attention.forward x y a)) = Some s /\
    Attention.rescaled s = Ok r /\
    shape s = [Attention.n_classes a; 1; Attention.in_features a]%nat /\
    shape r = [Attention.n_classes a; 1; Attention.in_features a]%nat /\
    forall c, (c < Attention.n_classes a)%nat ->
      (forall i, (i < Attention.in_features a)%nat ->
         0 < get s [c; 0; i]%nat /\
         get r [c; 0; i]%nat =
           get s [c; 0; i]%nat /
           smaximum (map (fun k => get s [c; 0; k]%nat)
                         (seq 0 (Attention.in_features a))) /\
         0 < get r [c; 0; i]%nat <= 1) /\
      smaximum (map (fun i => get r [c; 0; i]%nat)
                    (seq 0 (Attention.in_features a))) = 1.
Proof. exact (attention_rescaled_values a x y B). Qed.

Lemma demo_attention_well_shaped : attention_well_shaped demo_attention.
Proof. repeat split. Qed.

Lemma attention_rescaled_scores_max_witness :
  exists v s r,
    Attention.scores demo_attention demo_input demo_labels = Ok (v, s) /\
    Attention.rescaled s = Ok r /\
    smaximum (map (fun i => get r [1; 0; i]%nat) (seq 0 2)) = 1.
Proof.
  destruct (attention_rescaled_scores_max demo_attention demo_input demo_labels 4
              demo_attention_well_shaped
              (conj (or_introl (conj eq_refl eq_refl)) eq_refl)
              ltac:(cbn; lia) ltac:(lia))
    as (v & s & r & H1 & _ & H3 & _ & _ & H6).
  exists v, s, r. split; [exact H1|]. split; [exact H3|].
  apply (H6 1%nat). cbn. lia.
Defined.

Lemma softmax_entry_lt (u w d : R) : 0 < d -> u < w -> exp u / d < exp w / d.
Proof.
  intros Hd Huw. unfold Rdiv. apply Rmult_lt_compat_r.
  - now apply Rinv_0_lt_compat.
  - now apply exp_increasing.
Qed.

(** On the demonstration batch the averaged scores of class 1 are 870 for
    input feature 0 and 1160 for input feature 1, so the stored score of
    feature 0 is the smaller one. *)
Lemma demo_attention_scores_order :
  exists v s,
    Attention.scores demo_attention demo_input demo_labels = Ok (v, s) /\
    get s [1; 0; 0]%nat < get s [1; 0; 1]%nat.
Proof.
  eexists _, _. split.
  - cbv -[Rplus Rmult Rdiv Rinv Ropp Rminus exp sqrt Rmax INR IZR]. reflexivity.
  - cbv -[Rplus Rmult Rdiv Rinv Ropp Rminus exp sqrt Rmax INR IZR Rlt].
    apply softmax_entry_lt.
    + match goal with
      | |- 0 < exp ?u + (exp ?w + 0) =>
          pose proof (exp_pos u); pose proof (exp_pos w); lra
      end.
    + cbn [INR]. lra.
Qed.

(** C5, as stated, fails: for a batch of 4 samples the stored scores and the
    factor of line 139 have size (2, 1, 2), with no dimension for the batch.
    The maximum across dimension 1, where the batch was, is the factor
    itself, and for class 1 and input feature 0 it is below 1. *)
Lemma attention_rescaled_max_not_over_batch :
  exists v s r m,
    Attention.scores demo_attention demo_input demo_labels = Ok (v, s) /\
    Attention.attn_scores_softmax
      (snd (Attention.forward demo_input demo_labels demo_attention)) = Some s /\
    Attention.rescaled s = Ok r /\
    shape demo_input = [4; 2]%nat /\
    shape r = [2; 1; 2]%nat /\
    rescaled_max_over_batch r = Ok m /\
    shape m = [2; 2]%nat /\
    get m [1; 0]%nat = get r [1; 0; 0]%nat /\
    get m [1; 0]%nat < 1.
Proof.
  destruct (attention_rescaled_values demo_attention demo_input demo_labels 4
              demo_attention_well_shaped
              (conj (or_introl (conj eq_refl eq_refl)) eq_refl)
              ltac:(cbn; lia) ltac:(lia))
    as (v & s & r & Esc & Est & Er & Hs & Hr & Hv).
  destruct demo_attention_scores_order as (v' & s' & Esc' & Hlt).
  rewrite Esc in Esc'. injection Esc' as <- <-.
  change (Attention.n_classes demo_attention) with 2%nat in *.
  change (Attention.in_features demo_attention) with 2%nat in *.
  set (m := reduce_dim smaximum 1 r).
  assert (Hm : shape m = [2; 2]%nat)
    by (change (shape m) with (remove_nth 1 (shape r)); now rewrite Hr).
  assert (Hmr : get m [1; 0]%nat = get r [1; 0; 0]%nat).
  { rewrite (get2 m 2 2 1 0 Hm), (get3 r 2 1 2 1 0 0 Hr). unfold m.
    rewrite reduce_dim_at
      by (unfold outer_numel, inner_numel; rewrite Hr; simpl; lia).
    unfold lane, dim_size, inner_numel. rewrite Hr. reflexivity. }
  exists v, s, r, m.
  split; [exact Esc|]. split; [exact Est|]. split; [exact Er|].
  split; [reflexivity|]. split; [exact Hr|]. split.
  { unfold rescaled_max_over_batch. change 1%Z with (Z.of_nat 1).
    apply max_dim_nonneg.
    - unfold rank. rewrite Hr. simpl. lia.
    - unfold dim_size. rewrite Hr. simpl. lia. }
  split; [exact Hm|]. split; [exact Hmr|].
  rewrite Hmr.
  destruct (Hv 1%nat ltac:(lia)) as [Hi _].
  destruct (Hi 0%nat ltac:(lia)) as (Hpos & -> & _).
  set (M := smaximum _).
  assert (HM : get s [1; 0; 1]%nat <= M).
  { apply smaximum_upper. cbn [seq map]. right. now left. }
  apply (Rmult_lt_reg_r M); [lra|].
  unfold Rdiv. rewrite Rmult_assoc, Rinv_l by lra. lra.
Qed.

Close Scope R_scope.

(** * Further properties *)

(** ** The loop of [Sequential.forward] *)

Section SequentialLoop.

Context {F : Type} {SF : Scalar F}.
Variable fuzzy : F -> F.

Implicit Types (ms : list (Sequential.module (F:=F))) (x y : Tensor F).

Lemma run_returned_position ms : forall i j x y train,
  Sequential.returned (Sequential.run fuzzy i ms x y train) =
  Sequential.returned (Sequential.run fuzzy j ms x y train).
Proof.
  induction ms as [|m ms IH]; intros i j x y train; simpl.
  - reflexivity.
  - destruct (Sequential.is_Attention m && train).
    + destruct (Sequential.call2 m x y) as [[x'|e] m']; simpl; auto.
    + destruct (Sequential.call1 fuzzy m x) as [[x'|e] m']; simpl; auto.
Qed.

Lemma run_app ms1 ms2 : forall i x y train,
  Sequential.returned (Sequential.run fuzzy i (ms1 ++ ms2) x y train) =
  (x' <- Sequential.returned (Sequential.run fuzzy i ms1 x y train) ;;
   Sequential.returned (Sequential.run fuzzy (i + length ms1) ms2 x' y train)).
Proof.
  induction ms1 as [|m ms1 IH]; intros i x y train; simpl.
  - now rewrite Nat.add_0_r.
  - destruct (Sequential.is_Attention m && train).
    + destruct (Sequential.call2 m x y) as [[x'|e] m']; simpl; [|reflexivity].
      rewrite IH. now replace (S i + length ms1) with (i + S (length ms1)) by lia.
    + destruct (Sequential.call1 fuzzy m x) as [[x'|e] m']; simpl; [|reflexivity].
      rewrite IH. now replace (S i + length ms1) with (i + S (length ms1)) by lia.
Qed.

(** X1.  A container over the concatenation of two module lists returns what
    the second list returns on the output of the first, with the same
    labels, and raises what the first raises. *)
Theorem sequential_forward_app ms1 ms2 x y train :
  Sequential.returned (Sequential.forward fuzzy (ms1 ++ ms2) (x, y) train) =
  (x' <- Sequential.returned (Sequential.forward fuzzy ms1 (x, y) train) ;;
   Sequential.returned (Sequential.forward fuzzy ms2 (x', y) train)).
Proof.
  unfold Sequential.forward. rewrite run_app.
  destruct (Sequential.returned (Sequential.run fuzzy 0 ms1 x y train)); simpl;
    [apply run_returned_position | reflexivity].
Qed.

Lemma run_calls_prefix ms : forall i x y train,
  let o := Sequential.run fuzzy i ms x y train in
  Sequential.calls o =
    firstn (length (Sequential.calls o)) (dispatched_from train i ms) /\
  (is_ok (Sequential.returned o) = true ->
   Sequential.calls o = dispatched_from train i ms).
Proof.
  induction ms as [|m ms IH]; intros i x y train; simpl.
  - split; reflexivity.
  - unfold dispatched.
    destruct (Sequential.is_Attention m && train).
    + destruct (Sequential.call2 m x y) as [[x'|e] m']; simpl.
      * destruct (IH (S i) x' y train) as [H1 H2].
        split; [f_equal; exact H1 | intros H; f_equal; auto].
      * split; [reflexivity | discriminate].
    + destruct (Sequential.call1 fuzzy m x) as [[x'|e] m']; simpl.
      * destruct (IH (S i) x' y train) as [H1 H2].
        split; [f_equal; exact H1 | intros H; f_equal; auto].
      * split; [reflexivity | discriminate].
Qed.

(** X2.  The calls of a pass are, position by position, the dispatch of
    line 102: [module(x, y)] for an [Attention] layer when [train] is true
    and [module(x)] otherwise; a pass that returns has called every module
    once, in order. *)
Theorem sequential_forward_dispatch ms x y train :
  let o := Sequential.forward fuzzy ms (x, y) train in
  Sequential.calls o =
    firstn (length (Sequential.calls o)) (dispatched_from train 0 ms) /\
  (is_ok (Sequential.returned o) = true ->
   Sequential.calls o = dispatched_from train 0 ms).
Proof. unfold Sequential.forward. apply run_calls_prefix. Qed.

Lemma run_raise_stops ms : forall i x y train,
  let o := Sequential.run fuzzy i ms x y train in
  length (Sequential.modules o) = length ms /\
  (raises (Sequential.returned o) ->
   0 < length (Sequential.calls o) <= length ms /\
   skipn (length (Sequential.calls o)) (Sequential.modules o) =
   skipn (length (Sequential.calls o)) ms).
Proof.
  induction ms as [|m ms IH]; intros i x y train; simpl.
  - split; [reflexivity|]. intros [e He]. discriminate.
  - destruct (Sequential.is_Attention m && train).
    + destruct (Sequential.call2 m x y) as [[x'|e] m']; simpl.
      * destruct (IH (S i) x' y train) as [H1 H2].
        split; [now rewrite H1|]. intros H. destruct (H2 H) as [H3 H4].
        split; [lia | exact H4].
      * split; [reflexivity|]. intros _. split; [lia | reflexivity].
    + destruct (Sequential.call1 fuzzy m x) as [[x'|e] m']; simpl.
      * destruct (IH (S i) x' y train) as [H1 H2].
        split; [now rewrite H1|]. intros H. destruct (H2 H) as [H3 H4].
        split; [lia | exact H4].
      * split; [reflexivity|]. intros _. split; [lia | reflexivity].
Qed.

(** X3.  A raise ends the pass at the module that raised: the modules after
    it have not been called and are as they were.  The container holds as
    many modules after a pass as before. *)
Theorem sequential_forward_raise_stops ms x y train :
  let o := Sequential.forward fuzzy ms (x, y) train in
  length (Sequential.modules o) = length ms /\
  (raises (Sequential.returned o) ->
   0 < length (Sequential.calls o) <= length ms /\
   skipn (length (Sequential.calls o)) (Sequential.modules o) =
   skipn (length (Sequential.calls o)) ms).
Proof. unfold Sequential.forward. apply run_raise_stops. Qed.

End SequentialLoop.

(** ** Repeated calls of [ConceptAwareness.forward] *)

Ltac split_result_in H :=
  match type of H with
  | context [match ?r with Ok _ => _ | Err _ => _ end] => destruct r eqn:?
  | context [if ?b then _ else _] => destruct b eqn:?
  end.

Section ConceptAwarenessRepeat.

Context {F : Type} {SF : Scalar F}.

Implicit Types (l : ConceptAwareness.t (F:=F)) (x t : Tensor F).

Lemma forward_parameters_only l l' x :
  same_parameters l l' ->
  fst (ConceptAwareness.forward x l') = fst (ConceptAwareness.forward x l).
Proof.
  destruct l, l'. unfold same_parameters. cbn.
  intros (H1 & H2 & H3 & H4 & H5 & H6 & H7 & H8 & H9). subst.
  run_forward.
  destruct shrink; repeat (split_result; cbn); reflexivity.
Qed.

(** X4.  What [forward] returns depends on the weight, the bias and the
    configuration only: two instances that differ in the recorded
    [concepts], [gamma], [alpha] or [beta] return the same on the same
    input. *)
Theorem forward_reads_parameters_only l l' x :
  same_parameters l l' ->
  fst (ConceptAwareness.forward x l') = fst (ConceptAwareness.forward x l).
Proof. apply forward_parameters_only. Qed.

(** X5.  A second call with the same input returns what the first returned
    and leaves the instance as the first left it. *)
Theorem forward_twice l x :
  ConceptAwareness.forward x (snd (ConceptAwareness.forward x l)) =
  (fst (ConceptAwareness.forward x l), snd (ConceptAwareness.forward x l)).
Proof.
  destruct (ConceptAwareness.forward x l) as [r1 s1] eqn:E1. cbn [fst snd].
  destruct l.
  unfold ConceptAwareness.forward, mbind, eval, eval_self, assign, mif, mret in E1.
  rewrite promote_promoted in E1. cbn in E1.
  destruct shrink;
    repeat (split_result_in E1; cbn in E1);
    injection E1 as <- <-;
    run_forward;
    repeat match goal with
           | H : _ = Ok _ |- _ => rewrite H; clear H; cbn
           | H : _ = Err _ |- _ => rewrite H; clear H; cbn
           end;
    reflexivity.
Qed.

(** The gate attributes after a call, in terms of the instance alone. *)
Lemma forward_gate_attributes l x :
  let s := snd (ConceptAwareness.forward x l) in
  let g := norm_dim 1 (ConceptAwareness.weight l) in
  let a := g' <- g ;; softmax_dim 1 g' in
  let b := a' <- a ;; m <- max_dim 1 a' ;; m <- unsqueeze 1 m ;; tdiv a' m in
  ConceptAwareness.gamma s =
    (if ConceptAwareness.shrink l
     then match g with Ok v => Some v | Err _ => ConceptAwareness.gamma l end
     else ConceptAwareness.gamma l) /\
  ConceptAwareness.alpha s =
    (if ConceptAwareness.shrink l
     then match a with Ok v => Some v | Err _ => ConceptAwareness.alpha l end
     else ConceptAwareness.alpha l) /\
  ConceptAwareness.beta s =
    (if ConceptAwareness.shrink l
     then match b with Ok v => Some v | Err _ => ConceptAwareness.beta l end
     else ConceptAwareness.beta l).
Proof.
  cbv zeta. run_forward.
  destruct (ConceptAwareness.shrink l) eqn:Hs.
  - destruct (norm_dim 1 (ConceptAwareness.weight l)) as [g|e]; cbn;
      [|repeat split; reflexivity].
    destruct (softmax_dim 1 g) as [a|e]; cbn; [|repeat split; reflexivity].
    destruct (m <- max_dim 1 a ;; m0 <- unsqueeze 1 m ;; tdiv a m0) as [b|e]; cbn;
      [|repeat split; reflexivity].
    repeat (split_result; cbn); repeat split; reflexivity.
  - repeat (split_result; cbn); repeat split; reflexivity.
Qed.

(** X19.  The gate is a function of the weight: whatever the inputs of two
    calls on an instance are, and whether the calls return or raise, they
    leave the same [gamma], [alpha] and [beta]. *)
Theorem gate_independent_of_input l x x' :
  ConceptAwareness.gamma (snd (ConceptAwareness.forward x l)) =
  ConceptAwareness.gamma (snd (ConceptAwareness.forward x' l)) /\
  ConceptAwareness.alpha (snd (ConceptAwareness.forward x l)) =
  ConceptAwareness.alpha (snd (ConceptAwareness.forward x' l)) /\
  ConceptAwareness.beta (snd (ConceptAwareness.forward x l)) =
  ConceptAwareness.beta (snd (ConceptAwareness.forward x' l)).
Proof.
  destruct (forward_gate_attributes l x) as (H1 & H2 & H3).
  destruct (forward_gate_attributes l x') as (H1' & H2' & H3').
  repeat split; congruence.
Qed.

End ConceptAwarenessRepeat.

(** ** Construction *)

Section ConceptAwarenessInit.

Context {F : Type} {SF : Scalar F}.

(** X6.  A construction with a bias raises [ZeroDivisionError] exactly when
    there is no input or no output feature: [reset_parameters] divides by
    the square root of [fan_in].  Otherwise it builds a well-shaped instance
    that has recorded nothing yet, in shrink mode exactly when [n_heads] is
    given. *)
Theorem init_with_bias i o c a h top (wdraw bdraw : nat -> F) :
  (i * o = 0 ->
   ConceptAwareness.init i o c a h top true wdraw bdraw = Err ZeroDivisionError) /\
  (0 < i * o ->
   exists l,
     ConceptAwareness.init i o c a h top true wdraw bdraw = Ok l /\
     well_shaped l /\
     ConceptAwareness.weight l = fresh [c; o; i] wdraw /\
     ConceptAwareness.bias l = Some (fresh [c; 1; o] bdraw) /\
     ConceptAwareness.concepts l = None /\
     ConceptAwareness.gamma l = None /\
     ConceptAwareness.alpha l = None /\
     ConceptAwareness.beta l = None /\
     ConceptAwareness.shrink l = (match h with Some _ => true | None => false end)).
Proof.
  unfold ConceptAwareness.init, ConceptAwareness.reset_parameters, fan_in. cbn.
  split.
  - intros H.
    destruct (i * 1 =? 0) eqn:E1; cbn; [reflexivity|].
    destruct (o * (i * 1) =? 0) eqn:E2; cbn; [reflexivity|].
    apply Nat.eqb_neq in E2. nia.
  - intros H.
    destruct (i * 1 =? 0) eqn:E1; [apply Nat.eqb_eq in E1; nia|]. cbn.
    destruct (o * (i * 1) =? 0) eqn:E2; [apply Nat.eqb_eq in E2; nia|]. cbn.
    destruct h; eexists; (split; [reflexivity|]);
      (split; [split; [reflexivity | eexists; split; reflexivity]|]);
      repeat split; reflexivity.
Qed.

End ConceptAwarenessInit.

(** ** What [ConceptAwareness.forward] returns *)

Section ConceptAwarenessValue.

Context {F : Type} {SF : Scalar F}.

Implicit Types (l : ConceptAwareness.t (F:=F)) (x t : Tensor F).

(** The returned value as the composition of the three stages. *)
Lemma forward_stages l x :
  fst (ConceptAwareness.forward x l) =
  (x' <- (if ConceptAwareness.shrink l then gated l (promoted x) else Ok (promoted x)) ;;
   y <- projected l x' ;;
   read_out l y).
Proof.
  unfold gated, projected, read_out. run_forward.
  destruct (ConceptAwareness.shrink l) eqn:Hs; cbn;
    repeat (split_result; cbn); try reflexivity; congruence.
Qed.

Lemma matmul_inner_sizes_differ x w ba bb n m m' p :
  shape x = ba ++ [n; m] -> shape w = bb ++ [m'; p] -> m <> m' ->
  matmul x w = Err RuntimeError.
Proof.
  intros Hx Hw Hm. unfold matmul, rank. rewrite Hx, Hw. cbv zeta.
  rewrite !length_app. cbn [length].
  replace (length ba + 2 =? 0) with false by (symmetry; apply Nat.eqb_neq; lia).
  replace (length bb + 2 =? 0) with false by (symmetry; apply Nat.eqb_neq; lia).
  replace (length ba + 2 =? 1) with false by (symmetry; apply Nat.eqb_neq; lia).
  replace (length bb + 2 =? 1) with false by (symmetry; apply Nat.eqb_neq; lia).
  cbn [orb]. rewrite !length_app. cbn [length].
  replace (length ba + 2 - 1) with (length ba + 1) by lia.
  replace (length bb + 2 - 2) with (length bb + 0) by lia.
  rewrite !app_nth2_plus. cbn [nth].
  apply Nat.eqb_neq in Hm. now rewrite Hm.
Qed.

Lemma matmul_vector_shape x w C I O :
  shape x = [I] -> shape w = [C; I; O] ->
  exists t, matmul x w = Ok t /\ shape t = [C; O].
Proof.
  intros Hx Hw. unfold matmul, rank. rewrite Hx, Hw. cbn.
  rewrite Nat.eqb_refl. eexists; split; reflexivity.
Qed.

(** The gate applied to an input of any size that broadcasts against
    (n_classes, 1, in). *)
Lemma gated_shape l x C O I rs :
  shape (ConceptAwareness.weight l) = [C; O; I] -> 0 < I ->
  broadcast_shapes (shape x) [C; 1; I] = Some rs ->
  exists x', gated l x = Ok x' /\ shape x' = rs.
Proof.
  intros Hw HI Hbs. unfold gated.
  destruct (norm_dim_1_weight (ConceptAwareness.weight l) C O I Hw) as (g & -> & Hg & _).
  cbn [rbind].
  destruct (softmax_dim_1_rows g C I Hg) as (a & -> & Ha & _). cbn [rbind].
  destruct (rescale_rows2 a C I Ha HI) as (b & -> & Hb & _). cbn [rbind].
  pose proof (unsqueeze_nonneg 1 b) as Eu.
  change (Z.of_nat 1) with 1%Z in Eu.
  rewrite Eu by (unfold rank; rewrite Hb; simpl; lia). cbn [rbind].
  apply binop_shape. cbn [shape]. rewrite Hb. exact Hbs.
Qed.

Lemma projected_shape l x b C' B :
  well_shaped l -> ConceptAwareness.bias l = Some b ->
  shape x = [C'; B; ConceptAwareness.in_features l] ->
  C' = 1 \/ C' = ConceptAwareness.n_classes l ->
  exists t, projected l x = Ok t /\
            shape t = [ConceptAwareness.n_classes l; B; ConceptAwareness.out_features l].
Proof.
  intros [Hw (b' & Hb' & Hbs)] Hb Hx HC. unfold projected. rewrite Hb'.
  exact (project_shape x (ConceptAwareness.weight l) b' _ _ _ _ _ Hx Hw Hbs HC).
Qed.

Lemma promoted_rank3 x B I' C' :
  shape x = [B; I'] \/ shape x = [C'; B; I'] ->
  exists P, shape (promoted x) = [P; B; I'].
Proof.
  unfold promoted, rank. intros [H | H]; rewrite H; cbn; eauto.
Qed.

Lemma bdim_differ (a b : nat) :
  a <> b -> a <> 1 -> bdim a b = if b =? 1 then Some a else None.
Proof.
  intros H1 H2. unfold bdim.
  apply Nat.eqb_neq in H1, H2. now rewrite H1, H2.
Qed.

(** X7.  An input of rank 2 or 3 whose last size is not [in_features] is
    refused with [RuntimeError], by the matrix product or, in shrink mode,
    by the product with the gate; in shrink mode this needs the last size
    not to be 1.  The snapshot holds the promoted input all the same. *)
Theorem forward_feature_mismatch_raises l x B C' I' :
  well_shaped l ->
  shape x = [B; I'] \/ shape x = [C'; B; I'] ->
  I' <> ConceptAwareness.in_features l ->
  (ConceptAwareness.shrink l = true -> I' <> 1 /\ 0 < ConceptAwareness.in_features l) ->
  fst (ConceptAwareness.forward x l) = Err RuntimeError /\
  ConceptAwareness.concepts (snd (ConceptAwareness.forward x l)) = Some (promoted x).
Proof.
  intros Hl Hx HI Hs.
  assert (E : fst (ConceptAwareness.forward x l) = Err RuntimeError).
  { destruct Hl as [Hw (b & Hb & Hbs)].
    destruct (promoted_rank3 x B I' C' Hx) as (P & Hp).
    destruct (permute021_shape (ConceptAwareness.weight l) _ _ _ Hw) as (w' & Ew & Hw').
    rewrite forward_stages.
    destruct (ConceptAwareness.shrink l) eqn:Hsh.
    - destruct (Hs eq_refl) as [H1 H0].
      unfold gated.
      destruct (norm_dim_1_weight (ConceptAwareness.weight l) _ _ _ Hw)
        as (g & -> & Hg & _). cbn [rbind].
      destruct (softmax_dim_1_rows g _ _ Hg) as (a & -> & Ha & _). cbn [rbind].
      destruct (rescale_rows2 a _ _ Ha H0) as (b0 & -> & Hb0 & _). cbn [rbind].
      pose proof (unsqueeze_nonneg 1 b0) as Eu.
      change (Z.of_nat 1) with 1%Z in Eu.
      rewrite Eu by (unfold rank; rewrite Hb0; simpl; lia). cbn [rbind].
      unfold tmul, binop. cbn [shape]. rewrite Hp, Hb0.
      unfold broadcast_shapes. cbn [rev app insert_nth firstn skipn bshape_rev].
      rewrite (bdim_differ I' _ HI H1).
      destruct (ConceptAwareness.in_features l =? 1) eqn:E1; [|reflexivity].
      rewrite bdim_one_r.
      destruct (bdim P (ConceptAwareness.n_classes l)) as [Q|]; [|reflexivity].
      cbn [option_map rev app rbind]. unfold projected. rewrite Ew. cbn [rbind].
      rewrite (matmul_inner_sizes_differ _ w' [Q] [ConceptAwareness.n_classes l]
                 B I' (ConceptAwareness.in_features l) (ConceptAwareness.out_features l));
        auto.
    - cbn [rbind]. unfold projected. rewrite Ew. cbn [rbind].
      rewrite (matmul_inner_sizes_differ _ w' [P] [ConceptAwareness.n_classes l]
                 B I' (ConceptAwareness.in_features l) (ConceptAwareness.out_features l));
        auto. }
  split; [exact E|].
  apply forward_raises_concepts. rewrite E. auto.
Qed.

(** X8.  In shrink mode an input with a single feature is accepted whatever
    [in_features] is: the product with the gate broadcasts the feature to
    every input feature, and the call returns a tensor of size
    (n_classes, batch, out). *)
Theorem forward_shrink_broadcasts_single_feature l x B :
  well_shaped l -> ConceptAwareness.shrink l = true ->
  ConceptAwareness.top l = false -> 0 < ConceptAwareness.in_features l ->
  shape x = [B; 1] \/ shape x = [ConceptAwareness.n_classes l; B; 1] ->
  exists t, fst (ConceptAwareness.forward x l) = Ok t /\
            shape t = [ConceptAwareness.n_classes l; B; ConceptAwareness.out_features l].
Proof.
  intros Hl Hs Ht HI Hx.
  pose proof Hl as [Hw (b & Hb & Hbs)].
  rewrite forward_stages, Hs.
  destruct (gated_shape l (promoted x) _ _ _
              [ConceptAwareness.n_classes l; B; ConceptAwareness.in_features l] Hw HI)
    as (x' & -> & Hx').
  { unfold promoted, rank.
    destruct Hx as [H | H]; rewrite H; cbn [length Nat.eqb shape]; rewrite ?H;
      bshape; reflexivity. }
  cbn [rbind].
  destruct (projected_shape l x' b _ B Hl Hb Hx' (or_intror eq_refl)) as (t & -> & Hts).
  cbn [rbind]. unfold read_out. rewrite Ht. eauto.
Qed.

(** X9.  A single sample given as a vector of [in_features] elements is not
    refused.  Without shrink mode the projection has size (n_classes, out)
    and adding the bias of size (n_classes, 1, out) broadcasts it to
    (n_classes, n_classes, out); in shrink mode the gate has already made
    the input of rank 3 and the result has size (n_classes, 1, out). *)
Theorem forward_vector_input l x :
  well_shaped l -> ConceptAwareness.top l = false ->
  shape x = [ConceptAwareness.in_features l] ->
  (ConceptAwareness.shrink l = true -> 0 < ConceptAwareness.in_features l) ->
  exists t, fst (ConceptAwareness.forward x l) = Ok t /\
    shape t =
      [ConceptAwareness.n_classes l;
       if ConceptAwareness.shrink l then 1 else ConceptAwareness.n_classes l;
       ConceptAwareness.out_features l].
Proof.
  intros Hl Ht Hx HI.
  pose proof Hl as [Hw (b & Hb & Hbs)].
  assert (Hp : promoted x = x) by (unfold promoted, rank; now rewrite Hx).
  rewrite forward_stages, Hp. unfold read_out. rewrite Ht.
  destruct (ConceptAwareness.shrink l) eqn:Hs.
  - destruct (gated_shape l x _ _ _
                [ConceptAwareness.n_classes l; 1; ConceptAwareness.in_features l]
                Hw (HI eq_refl))
      as (x' & -> & Hx').
    { rewrite Hx. bshape. reflexivity. }
    cbn [rbind].
    destruct (projected_shape l x' b _ 1 Hl Hb Hx' (or_intror eq_refl)) as (t & -> & Hts).
    cbn [rbind]. eauto.
  - cbn [rbind]. unfold projected. rewrite Hb.
    destruct (permute021_shape (ConceptAwareness.weight l) _ _ _ Hw) as (w' & -> & Hw').
    cbn [rbind].
    destruct (matmul_vector_shape x w' _ _ _ Hx Hw') as (y & -> & Hy).
    cbn [rbind add_optional].
    destruct (binop_shape sadd y b
                [ConceptAwareness.n_classes l; ConceptAwareness.n_classes l;
                 ConceptAwareness.out_features l]) as (t & Et & Hts).
    { rewrite Hy, Hbs. bshape. reflexivity. }
    unfold tadd. rewrite Et. cbn [rbind]. eauto.
Qed.

(** X22.  The read-out of [top=True] needs at least one class: with
    [n_classes = 0] every call raises, since [view(0, -1)] has no size to
    infer. *)
Theorem forward_top_needs_a_class l x :
  ConceptAwareness.top l = true -> ConceptAwareness.n_classes l = 0 ->
  raises (fst (ConceptAwareness.forward x l)).
Proof. apply forward_top_without_classes_raises. Qed.

End ConceptAwarenessValue.

(** ** The elements of what [ConceptAwareness.forward] returns *)

Lemma flat_lt_2 (C I c i : nat) : c < C -> i < I -> c * I + i < C * I.
Proof. intros Hc Hi. nia. Qed.

Lemma flat_lt_3 (C B O c b o : nat) :
  c < C -> b < B -> o < O -> (c * B + b) * O + o < C * (B * O).
Proof.
  intros Hc Hb Ho.
  pose proof (flat_lt_2 C B c b Hc Hb) as H1.
  pose proof (flat_lt_2 (C * B) O (c * B + b) o H1 Ho) as H2.
  lia.
Qed.

Lemma div_mod_3 (B O c b o : nat) :
  b < B -> o < O ->
  ((c * B + b) * O + o) / (B * O) = c /\
  ((c * B + b) * O + o) / O mod B = b /\
  ((c * B + b) * O + o) mod O = o /\
  ((c * B + b) * O + o) mod (B * O) = b * O + o.
Proof.
  intros Hb Ho.
  destruct (div_mod_pos O (c * B + b) o Ho) as [H1 H2].
  destruct (div_mod_pos B c b Hb) as [H3 H4].
  rewrite H1, H4, H2.
  replace ((c * B + b) * O + o) with (c * (B * O) + (b * O + o)) by lia.
  destruct (div_mod_pos (B * O) c (b * O + o)) as [H5 H6]; [nia|].
  rewrite H5, H6. auto.
Qed.

Lemma unravel_3 (C B O c b o : nat) :
  b < B -> o < O ->
  unravel [C; B; O] ((c * B + b) * O + o) = [c; b; o].
Proof.
  intros Hb Ho. cbn [unravel numel fold_right]. rewrite !Nat.mul_1_r, Nat.div_1_r.
  destruct (div_mod_3 B O c b o Hb Ho) as (H1 & _ & _ & H4).
  rewrite H1, H4.
  destruct (div_mod_pos O b o Ho) as [H5 H6].
  now rewrite H5, H6.
Qed.

(** The position read in an operand of rank 3 under a result of rank 3. *)
Lemma bidx_3 (C B O P Q R c b o : nat) :
  b < B -> o < O ->
  bidx [C; B; O] [P; Q; R] ((c * B + b) * O + o) =
  ((if P =? 1 then 0 else c) * Q + (if Q =? 1 then 0 else b)) * R +
  (if R =? 1 then 0 else o).
Proof.
  intros Hb Ho. unfold bidx. cbn [length Nat.sub skipn].
  rewrite unravel_3 by assumption.
  cbn [bpick ravel numel fold_right].
  destruct (P =? 1), (Q =? 1), (R =? 1); ring.
Qed.

Section Elements.

Context {F : Type} {SF : Scalar F}.

Implicit Types (l : ConceptAwareness.t (F:=F)) (x w t : Tensor F).

Lemma permute021_at w C O I w' c i o :
  shape w = [C; O; I] -> permute021 w = Ok w' ->
  c < C -> i < I -> o < O ->
  at_ w' ((c * I + i) * O + o) = at_ w ((c * O + o) * I + i).
Proof.
  intros Hw E Hc Hi Ho. unfold permute021 in E. rewrite Hw in E.
  injection E as <-. unfold at_ at 1. cbn [data].
  rewrite tabulate_nth by (apply flat_lt_3; assumption).
  destruct (div_mod_3 I O c i o Hi Ho) as (H1 & H2 & H3 & _).
  rewrite (Nat.mul_comm I O) in H1 |- *.
  now rewrite H1, H2, H3.
Qed.

(** The batched matrix product of line 59/61, element by element. *)
Lemma matmul_batched_at x w P C B I O t c b o :
  shape x = [P; B; I] -> shape w = [C; I; O] -> P = 1 \/ P = C ->
  matmul x w = Ok t -> c < C -> b < B -> o < O ->
  at_ t ((c * B + b) * O + o) =
  ssum (map (fun i => smul (at_ x ((if P =? 1 then 0 else c) * (B * I) + b * I + i))
                           (at_ w (c * (I * O) + i * O + o)))
            (seq 0 I)).
Proof.
  intros Hx Hw HP E Hc Hb Ho.
  assert (Hbs : broadcast_shapes [P] [C] = Some [C])
    by (destruct HP as [-> | ->]; bshape; reflexivity).
  unfold matmul, rank in E. rewrite Hx, Hw in E.
  cbn [length Nat.eqb orb firstn nth Nat.sub app] in E.
  rewrite Nat.eqb_refl, Hbs in E. injection E as <-.
  unfold at_ at 1. cbn [data].
  rewrite tabulate_nth
    by (cbn [numel fold_right]; rewrite Nat.mul_1_r; apply flat_lt_3; assumption).
  destruct (div_mod_3 B O c b o Hb Ho) as (H1 & H2 & H3 & _).
  rewrite H1, H2, H3.
  rewrite (bidx_same [C] c) by (simpl; lia).
  replace (bidx [C] [P] c) with (if P =? 1 then 0 else c); [reflexivity|].
  unfold bidx. cbn [length Nat.sub skipn unravel bpick ravel numel fold_right].
  rewrite Nat.div_1_r. destruct (P =? 1); lia.
Qed.

Lemma transpose_view_at t C B O r c b o :
  shape t = [C; B; O] -> 0 < C ->
  (v <- view_rows C t ;; transpose v) = Ok r ->
  c < C -> b < B -> o < O ->
  shape r = [B * O; C] /\
  get r [b * O + o; c] = get t [c; b; o].
Proof.
  intros Ht HC E Hc Hb Ho.
  unfold view_rows in E. rewrite Ht in E.
  assert (Hn : numel [C; B; O] = B * O * C) by (simpl; lia).
  rewrite Hn in E.
  replace (0 <? C) with true in E by (symmetry; now apply Nat.ltb_lt).
  rewrite Nat.Div0.mod_mul, Nat.div_mul in E by lia. cbn in E.
  injection E as <-. split; [reflexivity|].
  rewrite (get3 t C B O c b o Ht).
  unfold get. cbn [shape ravel numel fold_right].
  unfold at_ at 1. cbn [data].
  replace ((b * O + o) * (C * 1) + (c * 1 + 0)) with ((b * O + o) * C + c) by lia.
  rewrite tabulate_nth
    by (apply flat_lt_2; [apply flat_lt_2|]; assumption).
  destruct (div_mod_pos C (b * O + o) c Hc) as [-> ->].
  unfold at_. f_equal. ring.
Qed.

Lemma pick_zero (n k : nat) : k < n -> (if n =? 1 then 0 else k) = k.
Proof.
  intros H. destruct (n =? 1) eqn:E; [|reflexivity].
  apply Nat.eqb_eq in E. lia.
Qed.

(** The projection of lines 59/61 element by element: for class [c], sample
    [b] and output feature [o], the sum over the input features of input
    times weight, plus the bias of the class and the output feature. *)
Lemma projected_at l x bt P B :
  well_shaped l -> ConceptAwareness.bias l = Some bt ->
  shape x = [P; B; ConceptAwareness.in_features l] ->
  P = 1 \/ P = ConceptAwareness.n_classes l ->
  exists y, projected l x = Ok y /\
    shape y = [ConceptAwareness.n_classes l; B; ConceptAwareness.out_features l] /\
    forall c b o,
      c < ConceptAwareness.n_classes l -> b < B -> o < ConceptAwareness.out_features l ->
      get y [c; b; o] =
      sadd (ssum (map (fun i =>
                         smul (at_ x ((if P =? 1 then 0 else c)
                                      * (B * ConceptAwareness.in_features l)
                                      + b * ConceptAwareness.in_features l + i))
                              (get (ConceptAwareness.weight l) [c; o; i]))
                      (seq 0 (ConceptAwareness.in_features l))))
           (get bt [c; 0; o]).
Proof.
  intros [Hw (b' & Hb' & Hbs)] Hb Hx HP.
  rewrite Hb in Hb'. injection Hb' as <-.
  set (C := ConceptAwareness.n_classes l) in *.
  set (O := ConceptAwareness.out_features l) in *.
  set (I := ConceptAwareness.in_features l) in *.
  set (w := ConceptAwareness.weight l) in *.
  unfold projected. fold w. rewrite Hb.
  destruct (permute021_shape w C O I Hw) as (w' & Ew & Hw'). rewrite Ew. cbn [rbind].
  destruct (matmul_batched_shape x w' P C B I O Hx Hw') as (y0 & Ey & Hy0).
  { destruct HP as [-> | ->]; bshape; reflexivity. }
  rewrite Ey. cbn [rbind add_optional].
  assert (Hrs : broadcast_shapes (shape y0) (shape bt) = Some [C; B; O])
    by (rewrite Hy0, Hbs; bshape; reflexivity).
  unfold tadd. rewrite (binop_broadcast sadd y0 bt [C; B; O] Hrs).
  eexists. split; [reflexivity|]. split; [reflexivity|].
  intros c b o Hc Hb0 Ho.
  erewrite get3 by reflexivity.
  rewrite (binop_at sadd y0 bt [C; B; O] _ _ Hrs (binop_broadcast sadd y0 bt _ Hrs))
    by (cbn [numel fold_right]; rewrite Nat.mul_1_r; apply flat_lt_3; assumption).
  rewrite Hy0, Hbs, !bidx_3 by assumption.
  rewrite !(pick_zero C c), (pick_zero B b), !(pick_zero O o) by assumption.
  cbn [Nat.eqb].
  rewrite (matmul_batched_at x w' P C B I O y0 c b o Hx Hw' HP Ey Hc Hb0 Ho).
  rewrite (get3 bt C 1 O c 0 o Hbs).
  f_equal. f_equal. apply map_ext_in. intros i Hi. apply in_seq in Hi.
  f_equal.
  replace (c * (I * O) + i * O + o) with ((c * I + i) * O + o) by ring.
  rewrite (permute021_at w C O I w' c i o Hw Ew Hc) by lia.
  now rewrite (get3 w C O I c o i Hw).
Qed.

(** The read-out of line 63 moves the element of class [c], sample [b] and
    output feature [o] to row [b * out + o], column [c]. *)
Lemma read_out_at l y B :
  shape y = [ConceptAwareness.n_classes l; B; ConceptAwareness.out_features l] ->
  (ConceptAwareness.top l = true -> 0 < ConceptAwareness.n_classes l) ->
  exists t, read_out l y = Ok t /\
    forall c b o,
      c < ConceptAwareness.n_classes l -> b < B -> o < ConceptAwareness.out_features l ->
      (if ConceptAwareness.top l
       then get t [b * ConceptAwareness.out_features l + o; c]
       else get t [c; b; o]) = get y [c; b; o].
Proof.
  intros Hy HC. unfold read_out.
  destruct (ConceptAwareness.top l) eqn:Ht.
  - destruct (view_rows_transpose_shape y _ _ _ Hy (HC eq_refl)) as (r & Er & _).
    exists r. split; [exact Er|]. intros c b o Hc Hb Ho.
    exact (proj2 (transpose_view_at y _ _ _ r c b o Hy (HC eq_refl) Er Hc Hb Ho)).
  - exists y. split; reflexivity.
Qed.

Lemma promoted_at l x B :
  batch_of l B x ->
  exists P,
    shape (promoted x) = [P; B; ConceptAwareness.in_features l] /\
    (P = 1 \/ P = ConceptAwareness.n_classes l) /\
    forall c b i,
      c < ConceptAwareness.n_classes l ->
      at_ (promoted x)
        ((if P =? 1 then 0 else c) * (B * ConceptAwareness.in_features l)
         + b * ConceptAwareness.in_features l + i) =
      input_at x c b i.
Proof.
  unfold batch_of, promoted, input_at, rank. intros [H | H]; rewrite H;
    cbn [length Nat.eqb].
  - exists 1. cbn [shape]. split; [reflexivity|]. split; [now left|].
    intros c b i _. cbn [Nat.eqb].
    rewrite (get2 x _ _ b i H). reflexivity.
  - exists (ConceptAwareness.n_classes l). split; [exact H|]. split; [now right|].
    intros c b i Hc. rewrite (pick_zero _ c Hc), (get3 x _ _ _ c b i H).
    unfold at_. f_equal. ring.
Qed.

(** The gated input of line 58, element by element. *)
Lemma gated_at l x P B C O I :
  shape (ConceptAwareness.weight l) = [C; O; I] -> 0 < I ->
  shape x = [P; B; I] -> P = 1 \/ P = C ->
  exists g a bta x',
    norm_dim 1 (ConceptAwareness.weight l) = Ok g /\
    softmax_dim 1 g = Ok a /\
    (m <- max_dim 1 a ;; m <- unsqueeze 1 m ;; tdiv a m) = Ok bta /\
    gated l x = Ok x' /\ shape x' = [C; B; I] /\
    forall c b i, c < C -> b < B -> i < I ->
      at_ x' ((c * B + b) * I + i) =
      smul (at_ x ((if P =? 1 then 0 else c) * (B * I) + b * I + i)) (get bta [c; i]).
Proof.
  intros Hw HI Hx HP. unfold gated.
  destruct (norm_dim_1_weight (ConceptAwareness.weight l) C O I Hw) as (g & Eg & Hg & _).
  destruct (softmax_dim_1_rows g C I Hg) as (a & Ea & Ha & _).
  destruct (rescale_rows2 a C I Ha HI) as (bta & Eb & Hb & _).
  exists g, a, bta. rewrite Eg. cbn [rbind]. rewrite Ea. cbn [rbind].
  rewrite Eb. cbn [rbind].
  pose proof (unsqueeze_nonneg 1 bta) as Eu.
  change (Z.of_nat 1) with 1%Z in Eu.
  rewrite Eu by (unfold rank; rewrite Hb; simpl; lia). cbn [rbind].
  set (b' := mkTensor (insert_nth 1 1 (shape bta)) (data bta)).
  assert (Hb' : shape b' = [C; 1; I]) by (unfold b'; cbn [shape]; now rewrite Hb).
  assert (Hrs : broadcast_shapes (shape x) (shape b') = Some [C; B; I])
    by (rewrite Hx, Hb'; destruct HP as [-> | ->]; bshape; reflexivity).
  unfold tmul. rewrite (binop_broadcast smul x b' [C; B; I] Hrs).
  eexists. repeat (split; [reflexivity|]).
  intros c b i Hc Hb0 Hi.
  rewrite (binop_at smul x b' [C; B; I] _ _ Hrs (binop_broadcast smul x b' _ Hrs))
    by (cbn [numel fold_right]; rewrite Nat.mul_1_r; apply flat_lt_3; assumption).
  rewrite Hx, Hb', !bidx_3 by assumption.
  rewrite !(pick_zero C c), (pick_zero B b), !(pick_zero I i) by assumption.
  cbn [Nat.eqb]. rewrite (get2 bta C I c i Hb).
  change (at_ b' ((c * 1 + 0) * I + i)) with (at_ bta ((c * 1 + 0) * I + i)).
  unfold at_. f_equal; f_equal; ring.
Qed.

(** X10.  Without shrink mode the layer is the linear map of its docstring,
    one per class: the element returned for class [c], sample [b] and
    output feature [o] is the sum over the input features of input times
    weight [c, o, i], plus bias [c, 0, o].  An input of rank 2 is shared by
    the classes.  With [top] that element sits at row [b * out + o], column
    [c]. *)
Theorem forward_linear_map l x bt B :
  well_shaped l -> ConceptAwareness.bias l = Some bt ->
  ConceptAwareness.shrink l = false -> batch_of l B x ->
  (ConceptAwareness.top l = true -> 0 < ConceptAwareness.n_classes l) ->
  exists t, fst (ConceptAwareness.forward x l) = Ok t /\
    forall c b o,
      c < ConceptAwareness.n_classes l -> b < B -> o < ConceptAwareness.out_features l ->
      (if ConceptAwareness.top l
       then get t [b * ConceptAwareness.out_features l + o; c]
       else get t [c; b; o]) =
      sadd (ssum (map (fun i => smul (input_at x c b i)
                                     (get (ConceptAwareness.weight l) [c; o; i]))
                      (seq 0 (ConceptAwareness.in_features l))))
           (get bt [c; 0; o]).
Proof.
  intros Hl Hb Hs Hx HC.
  destruct (promoted_at l x B Hx) as (P & Hp & HP & Vp).
  destruct (projected_at l (promoted x) bt P B Hl Hb Hp HP) as (y & Ey & Hy & Vy).
  destruct (read_out_at l y B Hy HC) as (t & Et & Vt).
  exists t. rewrite forward_stages, Hs. cbn [rbind]. rewrite Ey. cbn [rbind].
  split; [exact Et|].
  intros c b o Hc Hb0 Ho.
  rewrite (Vt c b o Hc Hb0 Ho), (Vy c b o Hc Hb0 Ho).
  f_equal. f_equal. apply map_ext. intros i. now rewrite (Vp c b i Hc).
Qed.

(** X11.  In shrink mode every input feature is first multiplied by the
    [beta] of its class, the one the call leaves in [self.beta], and the
    result is the same linear map of the gated input. *)
Theorem forward_gated_linear_map l x bt B :
  well_shaped l -> ConceptAwareness.bias l = Some bt ->
  ConceptAwareness.shrink l = true -> 0 < ConceptAwareness.in_features l ->
  batch_of l B x ->
  (ConceptAwareness.top l = true -> 0 < ConceptAwareness.n_classes l) ->
  exists t beta,
    fst (ConceptAwareness.forward x l) = Ok t /\
    ConceptAwareness.beta (snd (ConceptAwareness.forward x l)) = Some beta /\
    forall c b o,
      c < ConceptAwareness.n_classes l -> b < B -> o < ConceptAwareness.out_features l ->
      (if ConceptAwareness.top l
       then get t [b * ConceptAwareness.out_features l + o; c]
       else get t [c; b; o]) =
      sadd (ssum (map (fun i => smul (smul (input_at x c b i) (get beta [c; i]))
                                     (get (ConceptAwareness.weight l) [c; o; i]))
                      (seq 0 (ConceptAwareness.in_features l))))
           (get bt [c; 0; o]).
Proof.
  intros Hl Hb Hs HI Hx HC.
  pose proof Hl as [Hw _].
  destruct (promoted_at l x B Hx) as (P & Hp & HP & Vp).
  destruct (gated_at l (promoted x) P B _ _ _ Hw HI Hp HP)
    as (g & a & beta & x' & Eg & Ea & Eb & Ex & Hx' & Vx).
  destruct (projected_at l x' bt _ B Hl Hb Hx' (or_intror eq_refl))
    as (y & Ey & Hy & Vy).
  destruct (read_out_at l y B Hy HC) as (t & Et & Vt).
  exists t, beta. split; [|split].
  - rewrite forward_stages, Hs, Ex. cbn [rbind]. rewrite Ey. cbn [rbind]. exact Et.
  - run_forward. rewrite Hs, Eg. cbn. rewrite Ea. cbn. rewrite Eb. cbn.
    repeat (split_result; cbn); reflexivity.
  - intros c b o Hc Hb0 Ho.
    rewrite (Vt c b o Hc Hb0 Ho), (Vy c b o Hc Hb0 Ho).
    f_equal. f_equal. apply map_ext_in. intros i Hi. apply in_seq in Hi.
    rewrite (pick_zero _ c Hc).
    replace (c * (B * ConceptAwareness.in_features l)
             + b * ConceptAwareness.in_features l + i)
      with ((c * B + b) * ConceptAwareness.in_features l + i) by ring.
    rewrite (Vx c b i Hc Hb0) by lia.
    now rewrite (Vp c b i Hc).
Qed.

End Elements.

(** ** Stacks of layers in a container *)

Section Stack.

Context {F : Type} {SF : Scalar F}.
Variable fuzzy : F -> F.

Implicit Types (ls : list (ConceptAwareness.t (F:=F))) (x y : Tensor F).

Lemma run_stack ls : forall C I B i x y train,
  stacked C I ls -> shape x = [C; B; I] ->
  exists t,
    Sequential.returned
      (Sequential.run fuzzy i (map Sequential.MConceptAwareness ls) x y train) = Ok t /\
    shape t = [C; B; stack_out I ls].
Proof.
  induction ls as [|l ls IH]; intros C I B i x y train Hst Hx.
  - exists x. split; [reflexivity | exact Hx].
  - destruct Hst as (Hl & HC & HI & Ht & Hs & Hrest).
    assert (Hb : batch_of l B x) by (right; now rewrite HC, HI).
    rewrite <- HI in Hs.
    destruct (proj1 (forward_returns l x B Hl Hb Hs) Ht) as (t1 & E1 & H1).
    rewrite HC in H1.
    cbn [map Sequential.run Sequential.is_Attention andb Sequential.call1].
    destruct (ConceptAwareness.forward x l) as [r l'] eqn:E. cbn [fst] in E1.
    subst r. cbn [Sequential.returned].
    destruct (IH C _ B (S i) t1 y train Hrest H1) as (t & Et & Hts).
    exists t. split; [exact Et | exact Hts].
Qed.

(** X12.  Layers without read-out stack, as in the demonstration at the end
    of the module: when each layer takes the output features of the one
    before and all have the same number of classes, a container over them
    turns a batch of size (batch, in) or (n_classes, batch, in) into a
    tensor of size (n_classes, batch, out of the last layer), for both
    values of [train]. *)
Theorem sequential_stack_shape ls C I B x y train :
  stacked C I ls -> ls <> [] ->
  shape x = [B; I] \/ shape x = [C; B; I] ->
  exists t,
    Sequential.returned
      (Sequential.forward fuzzy (map Sequential.MConceptAwareness ls) (x, y) train) = Ok t /\
    shape t = [C; B; stack_out I ls].
Proof.
  intros Hst Hne Hx. destruct ls as [|l ls]; [contradiction|].
  destruct Hst as (Hl & HC & HI & Ht & Hs & Hrest).
  assert (Hb : batch_of l B x) by (rewrite <- HC, <- HI in Hx; exact Hx).
  rewrite <- HI in Hs.
  destruct (proj1 (forward_returns l x B Hl Hb Hs) Ht) as (t1 & E1 & H1).
  rewrite HC in H1.
  unfold Sequential.forward.
  cbn [map Sequential.run Sequential.is_Attention andb Sequential.call1].
  destruct (ConceptAwareness.forward x l) as [r l'] eqn:E. cbn [fst] in E1.
  subst r. cbn [Sequential.returned].
  exact (run_stack ls C _ B 1 t1 y train Hrest H1).
Qed.

End Stack.

(** ** What [Attention.forward] returns and stores *)

Section AttentionForward.

Context {F : Type} {SF : Scalar F}.

Implicit Types (a : Attention.t (F:=F)) (x y t : Tensor F).

Lemma attention_forward_unfold a x y :
  Attention.forward x y a =
  match Attention.scores a x y with
  | Err e => (Err e, a)
  | Ok vs =>
      (w <- (r <- Attention.rescaled (snd vs) ;; tmul (fst vs) r) ;;
       w <- unsqueeze (-2) w ;;
       p <- matmul w (Attention.weight a) ;;
       if 1 <? Attention.out_features a
       then tadd (squeeze p) (Attention.bias a)
       else p <- squeeze_dim (-1) p ;; tadd p (Attention.bias a),
       Attention.set_attn_scores_softmax (snd vs) a)
  end.
Proof.
  unfold Attention.forward, mbind, eval, eval_self, assign, mif.
  destruct (Attention.scores a x y) as [vs|e]; cbn -[Nat.ltb]; [|reflexivity].
  destruct (r <- Attention.rescaled (snd vs) ;; tmul (fst vs) r) as [w|e];
    cbn -[Nat.ltb]; [|reflexivity].
  destruct (1 <? Attention.out_features a); reflexivity.
Qed.

Lemma attention_forward_stores_scores_lemma a x y :
  (forall v s, Attention.scores a x y = Ok (v, s) ->
     snd (Attention.forward x y a) = Attention.set_attn_scores_softmax s a) /\
  (raises (Attention.scores a x y) ->
     snd (Attention.forward x y a) = a /\ raises (fst (Attention.forward x y a))).
Proof.
  rewrite attention_forward_unfold. split.
  - intros v s ->. reflexivity.
  - intros [e ->]. split; [reflexivity | cbn; auto].
Qed.

(** X13.  The only attribute a call assigns is [attn_scores_softmax]: the
    scores are stored as soon as they are computed, also when the call
    raises afterwards, and a call that raises before leaves the instance
    untouched. *)
Theorem attention_forward_stores_scores a x y :
  (forall v s, Attention.scores a x y = Ok (v, s) ->
     snd (Attention.forward x y a) = Attention.set_attn_scores_softmax s a) /\
  (raises (Attention.scores a x y) ->
     snd (Attention.forward x y a) = a /\ raises (fst (Attention.forward x y a))).
Proof. exact (attention_forward_stores_scores_lemma a x y). Qed.

Lemma softmax_last3_shape t A J K s :
  shape t = [A; J; K] -> softmax_dim (-1) t = Ok s -> shape s = [A; J; K].
Proof.
  intros Ht E. rewrite (softmax_dim_last3 t A J K Ht) in E.
  rewrite softmax_dim_nonneg in E by (unfold rank; rewrite Ht; simpl; lia).
  injection E as <-. exact Ht.
Qed.

Lemma unsqueeze_penultimate t A B C :
  shape t = [A; B; C] ->
  unsqueeze (-2) t = Ok (mkTensor [A; B; 1; C] (data t)).
Proof.
  intros Ht. unfold unsqueeze, rank. rewrite Ht. reflexivity.
Qed.

(** The product of line 141/143 before the squeeze. *)
Lemma attention_product_shape a x y B :
  attention_well_shaped a -> attention_input a B x y ->
  0 < Attention.in_features a ->
  exists vs p,
    Attention.scores a x y = Ok vs /\
    (w <- (r <- Attention.rescaled (snd vs) ;; tmul (fst vs) r) ;;
     w <- unsqueeze (-2) w ;; matmul w (Attention.weight a)) = Ok p /\
    shape p = [Attention.n_classes a; B; 1; Attention.out_features a].
Proof.
  intros Ha Hin HI.
  destruct (scores_shape a x y B Ha Hin) as (v & s & avg & Esc & Hv & Havg & Es).
  pose proof (softmax_last3_shape avg _ _ _ s Havg Es) as Hs.
  destruct (rescale_rows3 s _ _ _ Hs HI) as (r & Er & Hr & _).
  destruct Ha as (_ & _ & _ & _ & Hw & _).
  exists (v, s). cbn [fst snd]. rewrite Er. cbn [rbind].
  destruct (binop_shape smul v r
              [Attention.n_classes a; B; Attention.in_features a]) as (wv & Ewv & Hwv).
  { rewrite Hv, Hr. bshape. reflexivity. }
  unfold tmul. rewrite Ewv. cbn [rbind].
  rewrite (unsqueeze_penultimate wv _ _ _ Hwv). cbn [rbind].
  destruct (matmul_shape (mkTensor [Attention.n_classes a; B; 1; Attention.in_features a]
                            (data wv))
              (Attention.weight a)
              [Attention.n_classes a; B] [Attention.n_classes a; 1]
              [Attention.n_classes a; B] 1 (Attention.in_features a)
              (Attention.out_features a)) as (p & Ep & Hp).
  { reflexivity. }
  { exact Hw. }
  { bshape. reflexivity. }
  exists p. rewrite Ep. repeat split; auto.
Qed.

(** X14.  On a well-shaped layer with at least one input and one output
    feature, [forward] returns a tensor of size (n_classes, batch, out),
    except for a batch of one sample when [out_features > 1]: there
    [squeeze()] also removes the batch dimension, adding the bias
    broadcasts it against the classes, and the result has size
    (n_classes, n_classes, out). *)
Theorem attention_forward_shape a x y B :
  attention_well_shaped a -> attention_input a B x y ->
  0 < Attention.in_features a -> 0 < Attention.out_features a -> 0 < B ->
  exists t, fst (Attention.forward x y a) = Ok t /\
    shape t =
      [Attention.n_classes a;
       if (1 <? Attention.out_features a) && (B =? 1)
       then Attention.n_classes a else B;
       Attention.out_features a].
Proof.
  intros Ha Hin HI HO HB.
  destruct (attention_product_shape a x y B Ha Hin HI) as (vs & p & Esc & Ep & Hp).
  destruct Ha as (_ & _ & _ & _ & _ & Hbias).
  rewrite attention_forward_unfold, Esc. cbn [fst].
  destruct (r <- Attention.rescaled (snd vs) ;; tmul (fst vs) r) as [w|e];
    cbn [rbind] in Ep |- *; [|discriminate].
  destruct (unsqueeze (-2) w) as [w'|e]; cbn [rbind] in Ep |- *; [|discriminate].
  rewrite Ep. cbn [rbind].
  remember (Attention.n_classes a) as C eqn:EC0.
  remember (Attention.out_features a) as O eqn:EO0.
  clear EC0 EO0.
  destruct (1 <? O) eqn:EO.
  - apply Nat.ltb_lt in EO.
    assert (EO1 : (O =? 1) = false) by (apply Nat.eqb_neq; lia).
    apply binop_shape. unfold squeeze. cbn [shape]. rewrite Hp, Hbias.
    cbn [filter Nat.eqb negb]. rewrite EO1.
    destruct (C =? 1) eqn:EC; destruct (B =? 1) eqn:EB; cbn [negb andb];
      try apply Nat.eqb_eq in EC; try apply Nat.eqb_eq in EB; subst;
      bshape; reflexivity.
  - assert (HO1 : O = 1) by (apply Nat.ltb_ge in EO; lia). subst O.
    cbn [andb].
    unfold squeeze_dim, rank. rewrite Hp.
    change (-1)%Z with (- Z.of_nat 1)%Z.
    rewrite wrap_dim_neg by (cbn; lia).
    cbn [rbind length Nat.max Nat.sub nth Nat.eqb].
    apply binop_shape. cbn [shape remove_nth firstn skipn app].
    rewrite Hbias. bshape. reflexivity.
Qed.

Lemma attention_raise_before_scores a x y e :
  Attention.scores a x y = Err e ->
  fst (Attention.forward x y a) = Err e /\ snd (Attention.forward x y a) = a.
Proof. intros E. rewrite attention_forward_unfold, E. split; reflexivity. Qed.

(** X15.  Labels for another batch are refused: when the labels have
    [B'] rows and the concept scores [B], both different from 1 and from
    each other, the product of keys and queries raises [RuntimeError] and
    nothing is stored. *)
Theorem attention_label_batch_mismatch a x y B B' :
  attention_well_shaped a -> attention_concepts a B x ->
  shape y = [B'; Attention.n_classes a] ->
  B' <> B -> B <> 1 -> B' <> 1 ->
  fst (Attention.forward x y a) = Err RuntimeError /\
  snd (Attention.forward x y a) = a.
Proof.
  intros (Hdv & Hk & Hq & Hv & _ & _) Hx Hy Hne HB HB'.
  apply attention_raise_before_scores.
  rewrite Hdv in Hv.
  set (C := Attention.n_classes a) in *.
  set (I := Attention.in_features a) in *.
  set (K := Attention.d_key_query a) in *.
  unfold Attention.scores.
  assert (Hx' : exists x' C',
             (if Attention.first a then unsqueeze 0 x else Ok x) = Ok x' /\
             shape x' = [C'; B; I] /\ (C' = 1 \/ C' = C)).
  { destruct Hx as [[-> Hx] | [-> [Hx | Hx]]].
    - rewrite unsqueeze_0. eexists _, 1. cbn [shape]. rewrite Hx. auto.
    - exists x, 1. auto.
    - exists x, C. auto. }
  destruct Hx' as (x' & C' & -> & Hx' & HC). cbn [rbind].
  destruct (transpose_matrix y B' C Hy) as (y' & -> & Hy'). cbn [rbind].
  rewrite !unsqueeze_last. cbn [rbind].
  destruct (matmul_shape (mkTensor (shape x' ++ [1]) (data x')) (Attention.w_key a)
              [C'; B] [C; 1] [C; B] I 1 K) as (keys & -> & Hkeys).
  { cbn [shape]. now rewrite Hx'. }
  { exact Hk. }
  { destruct HC as [-> | ->]; bshape; reflexivity. }
  cbn [rbind].
  destruct (matmul_shape (mkTensor (shape y' ++ [1]) (data y')) (Attention.w_query a)
              [C] [C] [C] B' 1 K) as (querys & -> & Hquerys).
  { cbn [shape]. now rewrite Hy'. }
  { exact Hq. }
  { bshape. reflexivity. }
  cbn [rbind].
  destruct (binop_shape smul x' (Attention.w_value a) [C; B; I]) as (v & Ev & Hvs).
  { rewrite Hx', Hv. destruct HC as [-> | ->]; bshape; reflexivity. }
  unfold tmul. rewrite Ev. cbn [rbind].
  rewrite unsqueeze_last. cbn [rbind].
  set (q := mkTensor (shape querys ++ [1]) (data querys)).
  assert (Hqs : shape q = [C; B'] ++ [K; 1]) by (unfold q; cbn [shape]; now rewrite Hquerys).
  change [C; B; I; K] with ([C; B] ++ [I; K]) in Hkeys.
  unfold matmul, rank. rewrite Hkeys, Hqs.
  cbn [app length Nat.eqb orb firstn nth Nat.sub].
  rewrite Nat.eqb_refl.
  unfold broadcast_shapes. cbn [rev app bshape_rev].
  assert (Hbd : bdim B B' = None).
  { unfold bdim.
    replace (B =? B') with false by (symmetry; apply Nat.eqb_neq; lia).
    replace (B =? 1) with false by (symmetry; apply Nat.eqb_neq; lia).
    replace (B' =? 1) with false by (symmetry; apply Nat.eqb_neq; lia).
    reflexivity. }
  rewrite Hbd. reflexivity.
Qed.

(** X16.  A layer constructed with [first=True] adds the class dimension
    itself: given concept scores that already have it, of size
    (n_classes, batch, in), the averaged scores get rank 4, [permute]
    raises [RuntimeError] and nothing is stored. *)
Theorem attention_first_on_class_input a x y B :
  attention_well_shaped a -> Attention.first a = true ->
  shape x = [Attention.n_classes a; B; Attention.in_features a] ->
  shape y = [B; Attention.n_classes a] ->
  fst (Attention.forward x y a) = Err RuntimeError /\
  snd (Attention.forward x y a) = a.
Proof.
  intros (Hdv & Hk & Hq & Hv & _ & _) Hf Hx Hy.
  apply attention_raise_before_scores.
  rewrite Hdv in Hv.
  set (C := Attention.n_classes a) in *.
  set (I := Attention.in_features a) in *.
  set (K := Attention.d_key_query a) in *.
  unfold Attention.scores. rewrite Hf, unsqueeze_0. cbn [rbind].
  destruct (transpose_matrix y B C Hy) as (y' & -> & Hy'). cbn [rbind].
  rewrite !unsqueeze_last. cbn [rbind shape data].
  destruct (matmul_shape (mkTensor ((1 :: shape x) ++ [1]) (data x)) (Attention.w_key a)
              [1; C; B] [C; 1] [1; C; B] I 1 K) as (keys & -> & Hkeys).
  { cbn [shape]. now rewrite Hx. }
  { exact Hk. }
  { bshape. reflexivity. }
  cbn [rbind].
  destruct (matmul_shape (mkTensor (shape y' ++ [1]) (data y')) (Attention.w_query a)
              [C] [C] [C] B 1 K) as (querys & -> & Hquerys).
  { cbn [shape]. now rewrite Hy'. }
  { exact Hq. }
  { bshape. reflexivity. }
  cbn [rbind].
  destruct (binop_shape smul (mkTensor (1 :: shape x) (data x)) (Attention.w_value a)
              [1; C; B; I]) as (v & Ev & Hvs).
  { cbn [shape]. rewrite Hx, Hv. bshape. reflexivity. }
  unfold tmul. rewrite Ev. cbn [rbind].
  rewrite unsqueeze_last. cbn [rbind].
  destruct (matmul_shape keys (mkTensor (shape querys ++ [1]) (data querys))
              [1; C; B] [C; B] [1; C; B] I K 1) as (sc & -> & Hsc).
  { exact Hkeys. }
  { cbn [shape]. now rewrite Hquerys. }
  { bshape. reflexivity. }
  cbn [rbind].
  rewrite mean_dim_1 by (unfold rank; rewrite Hsc; simpl; lia).
  cbn [rbind]. unfold permute021, reduce_dim. cbn [shape].
  rewrite Hsc. reflexivity.
Qed.

End AttentionForward.

(** ** Normalisation over the reals *)

Open Scope R_scope.

Lemma ssum_map_div (A : Type) (f : A -> R) (s : R) (l : list A) :
  ssum (map (fun v => f v / s) l) = ssum (map f l) / s.
Proof.
  unfold ssum. induction l as [|v l IH]; cbn [map fold_right].
  - cbn. unfold Rdiv. now rewrite Rmult_0_l.
  - rewrite IH. cbn [sadd R_scalar]. unfold Rdiv. now rewrite Rmult_plus_distr_r.
Qed.

(** A row that is the softmax of another row is positive and sums to 1. *)
Lemma softmax_row_sum (g a : Tensor R) (K j : nat) :
  (0 < K)%nat ->
  (forall i, (i < K)%nat ->
     at_ a (j * K + i) = exp (at_ g (j * K + i)) / ssum (map exp (row g K j))) ->
  (forall i, (i < K)%nat -> 0 < at_ a (j * K + i)) /\
  ssum (row a K j) = 1.
Proof.
  intros HK Ha.
  assert (HS : 0 < ssum (map exp (row g K j))).
  { apply (ssum_pos _ (exp (at_ g (j * K + 0)))).
    - intros u Hu. apply in_map_iff in Hu as (w & <- & _). apply exp_pos.
    - apply in_map. apply in_row. exact HK. }
  split.
  - intros i Hi. rewrite (Ha i Hi). apply Rdiv_lt_0_compat; [apply exp_pos | exact HS].
  - replace (row a K j)
      with (map (fun i => exp (at_ g (j * K + i)) / ssum (map exp (row g K j)))
                (seq 0 K)).
    + rewrite ssum_map_div.
      replace (map (fun i => exp (at_ g (j * K + i))) (seq 0 K))
        with (map exp (row g K j)) by (unfold row; now rewrite map_map).
      unfold Rdiv. apply Rinv_r. lra.
    + unfold row. apply map_ext_in. intros i Hi. apply in_seq in Hi.
      symmetry. apply Ha. lia.
Qed.

(** X17.  In shrink mode the [alpha] a call assigns is, for every class, a
    distribution over the input features: its entries are positive and sum
    to 1. *)
Theorem alpha_is_distribution
    (l : ConceptAwareness.t (F:=R)) (x : Tensor R) (C O I : nat) :
  ConceptAwareness.shrink l = true ->
  shape (ConceptAwareness.weight l) = [C; O; I] -> (0 < I)%nat ->
  exists a,
    ConceptAwareness.alpha (snd (ConceptAwareness.forward x l)) = Some a /\
    shape a = [C; I] /\
    forall c, (c < C)%nat ->
      (forall i, (i < I)%nat -> 0 < get a [c; i]) /\
      ssum (map (fun i => get a [c; i]) (seq 0 I)) = 1.
Proof.
  intros Hs Hw HI.
  destruct (norm_dim_1_weight (ConceptAwareness.weight l) C O I Hw)
    as (g & Eg & Hg & _).
  destruct (softmax_dim_1_rows g C I Hg) as (a & Ea & Ha & Va).
  exists a. split; [|split; [exact Ha|]].
  - run_forward. rewrite Hs, Eg. cbn. rewrite Ea. cbn.
    repeat (split_result; cbn); reflexivity.
  - intros c Hc.
    destruct (softmax_row_sum g a I c HI) as [Hpos Hsum].
    { intros i Hi. exact (Va c i Hc Hi). }
    split.
    + intros i Hi. rewrite (get2 a C I c i Ha). now apply Hpos.
    + rewrite <- (row_get2 a C I c Ha). exact Hsum.
Qed.

(** X18.  The scores [Attention.forward] stores are, for every class, a
    distribution over the input features: positive, and summing to 1. *)
Theorem attention_scores_are_distribution
    (a : Attention.t (F:=R)) (x y : Tensor R) (B : nat) :
  attention_well_shaped a -> attention_input a B x y ->
  (0 < Attention.in_features a)%nat -> (0 < B)%nat ->
  exists s,
    Attention.attn_scores_softmax (snd (Attention.forward x y a)) = Some s /\
    shape s = [Attention.n_classes a; 1; Attention.in_features a]%nat /\
    forall c, (c < Attention.n_classes a)%nat ->
      (forall i, (i < Attention.in_features a)%nat -> 0 < get s [c; 0; i]%nat) /\
      ssum (map (fun i => get s [c; 0; i]%nat) (seq 0 (Attention.in_features a))) = 1.
Proof.
  intros Ha Hin HI _.
  destruct (scores_shape a x y B Ha Hin) as (v & s & avg & Esc & _ & Havg & Es).
  set (C := Attention.n_classes a) in *.
  set (I := Attention.in_features a) in *.
  rewrite (softmax_dim_last3 avg C 1 I Havg) in Es.
  destruct (softmax_rows 2 avg s I (C * 1)) as [Hs Vs].
  { unfold rank. rewrite Havg. simpl. lia. }
  { unfold dim_size. now rewrite Havg. }
  { unfold inner_numel. now rewrite Havg. }
  { rewrite Havg. simpl. lia. }
  { exact Es. }
  rewrite Havg in Hs.
  exists s. split; [|split; [exact Hs|]].
  - rewrite (proj1 (attention_forward_stores_scores_lemma a x y) v s Esc). reflexivity.
  - intros c Hc.
    assert (Hj : (c * 1 + 0 < C * 1)%nat) by lia.
    destruct (softmax_row_sum avg s I (c * 1 + 0) HI) as [Hpos Hsum].
    { intros i Hi. exact (Vs (c * 1 + 0)%nat i Hj Hi). }
    split.
    + intros i Hi. rewrite (get3 s C 1 I c 0 i Hs). now apply Hpos.
    + rewrite <- (row_get3 s C 1 I c 0 Hs). exact Hsum.
Qed.

Close Scope R_scope.

(** ** The reshape of the demonstration *)

Section DemonstrationView.

Context {F : Type} {SF : Scalar F}.

Implicit Types (l : ConceptAwareness.t (F:=F)) (x t : Tensor F).

(** X20.  The demonstration reshapes the output of a single-output layer
    without read-out with [view(-1, n_classes)].  The result has size
    (batch, n_classes), but row [r], column [c] holds element
    [r * n_classes + c] of the class-major output, that is class
    [(r * n_classes + c) / batch] of sample [(r * n_classes + c) mod batch],
    not class [c] of sample [r] as the read-out of [top=True] gives it. *)
Theorem forward_view_reads_row_major l x B :
  well_shaped l -> batch_of l B x ->
  ConceptAwareness.top l = false -> ConceptAwareness.out_features l = 1 ->
  (ConceptAwareness.shrink l = true -> 0 < ConceptAwareness.in_features l) ->
  0 < ConceptAwareness.n_classes l -> 0 < B ->
  exists t v,
    fst (ConceptAwareness.forward x l) = Ok t /\
    forward_view l x = Ok v /\
    shape v = [B; ConceptAwareness.n_classes l] /\
    forall r c, r < B -> c < ConceptAwareness.n_classes l ->
      get v [r; c] =
      get t [(r * ConceptAwareness.n_classes l + c) / B;
             (r * ConceptAwareness.n_classes l + c) mod B; 0].
Proof.
  intros Hl Hx Ht HO HI HC HB.
  destruct (proj1 (forward_returns l x B Hl Hx HI) Ht) as (t & Et & Hts).
  rewrite HO in Hts.
  set (C := ConceptAwareness.n_classes l) in *.
  exists t. unfold forward_view. rewrite Et. cbn [rbind].
  unfold view_cols. fold C. rewrite Hts.
  assert (Hn : numel [C; B; 1] = B * C) by (simpl; lia).
  rewrite Hn.
  replace (0 <? C) with true by (symmetry; now apply Nat.ltb_lt).
  rewrite Nat.Div0.mod_mul, Nat.div_mul by lia. cbn [andb Nat.eqb].
  eexists. split; [reflexivity|]. split; [reflexivity|]. split; [reflexivity|].
  intros r c Hr Hc.
  rewrite (get3 t C B 1 _ _ 0 Hts).
  unfold get. cbn [shape ravel numel fold_right]. unfold at_. cbn [data].
  f_equal.
  pose proof (Nat.div_mod_eq (r * C + c) B). lia.
Qed.

End DemonstrationView.

(** ** [extra_repr] *)

Import Ascii.

Lemma append_inj_l (p s1 s2 : string) :
  (p ++ s1)%string = (p ++ s2)%string -> s1 = s2.
Proof.
  induction p as [|c p IH]; cbn; intros H; [exact H|].
  injection H as H. now apply IH.
Qed.

(** Two decimal numerals, each followed by a comma, are equal as strings
    only when the numerals and what follows the commas are equal. *)
Lemma numeral_comma_inj (d1 : Decimal.uint) : forall (d2 : Decimal.uint) (r1 r2 : string),
  (DecimalString.NilEmpty.string_of_uint d1 ++ String ","%char r1)%string =
  (DecimalString.NilEmpty.string_of_uint d2 ++ String ","%char r2)%string ->
  d1 = d2 /\ r1 = r2.
Proof.
  induction d1 as [|d1 IH|d1 IH|d1 IH|d1 IH|d1 IH|d1 IH|d1 IH|d1 IH|d1 IH|d1 IH];
    intros d2 r1 r2; destruct d2; cbn; intros H;
    try discriminate H;
    try (injection H as H; destruct (IH _ _ _ H) as [-> ->]; split; reflexivity).
  injection H as ->. split; reflexivity.
Qed.

Lemma format_nat_comma_inj (n m : nat) (r1 r2 : string) :
  (format_nat n ++ String ","%char r1)%string = (format_nat m ++ String ","%char r2)%string ->
  n = m /\ r1 = r2.
Proof.
  unfold format_nat. intros H.
  destruct (numeral_comma_inj _ _ _ _ H) as [Hd Hr].
  split; [|exact Hr].
  rewrite <- (DecimalNat.Unsigned.of_to n), <- (DecimalNat.Unsigned.of_to m).
  now rewrite Hd.
Qed.

Section ExtraRepr.

Context {F : Type}.

(** X21.  [extra_repr] determines the five attributes it prints: two
    instances with the same text have the same [in_features],
    [out_features], [n_classes], [shrink] and [top]. *)
Theorem extra_repr_injective (l1 l2 : ConceptAwareness.t (F:=F)) :
  ConceptAwareness.extra_repr l1 = ConceptAwareness.extra_repr l2 ->
  ConceptAwareness.in_features l1 = ConceptAwareness.in_features l2 /\
  ConceptAwareness.out_features l1 = ConceptAwareness.out_features l2 /\
  ConceptAwareness.n_classes l1 = ConceptAwareness.n_classes l2 /\
  ConceptAwareness.shrink l1 = ConceptAwareness.shrink l2 /\
  ConceptAwareness.top l1 = ConceptAwareness.top l2.
Proof.
  unfold ConceptAwareness.extra_repr. intros H.
  apply (append_inj_l "in_features=") in H.
  apply format_nat_comma_inj in H as [H1 H].
  apply (append_inj_l " out_features=") in H.
  apply format_nat_comma_inj in H as [H2 H].
  apply (append_inj_l " n_classes=") in H.
  apply format_nat_comma_inj in H as [H3 H].
  repeat (split; [assumption|]).
  destruct (ConceptAwareness.shrink l1), (ConceptAwareness.shrink l2),
    (ConceptAwareness.top l1), (ConceptAwareness.top l2);
    cbn in H; try discriminate H; split; reflexivity.
Qed.

End ExtraRepr.

Example extra_repr_demo_layer :
  ConceptAwareness.extra_repr (demo_layer true false true) =
  "in_features=2, out_features=3, n_classes=2, shrink=True, top=False"%string.
Proof. reflexivity. Qed.

(** ** The further properties on the test inputs *)

Lemma sequential_forward_dispatch_witness :
  Sequential.calls
    (Sequential.forward sigmoid demo_container (demo_input, demo_labels) true) =
  [Sequential.CallX 0; Sequential.CallXY 1].
Proof.
  apply (sequential_forward_dispatch sigmoid demo_container demo_input demo_labels true).
  reflexivity.
Defined.

Lemma sequential_forward_raise_stops_witness :
  skipn 2
    (Sequential.modules
       (Sequential.forward sigmoid (demo_container ++ demo_container)
          (demo_input, demo_labels) false)) =
  demo_container.
Proof.
  apply (sequential_forward_raise_stops sigmoid (demo_container ++ demo_container)
           demo_input demo_labels false).
  exists TypeError. reflexivity.
Defined.

Lemma forward_reads_parameters_only_witness :
  fst (ConceptAwareness.forward demo_input
         (snd (ConceptAwareness.forward wide_input (demo_layer true false true)))) =
  fst (ConceptAwareness.forward demo_input (demo_layer true false true)).
Proof.
  apply (forward_reads_parameters_only (demo_layer true false true)
           (snd (ConceptAwareness.forward wide_input (demo_layer true false true)))
           demo_input).
  repeat split.
Defined.

Lemma init_with_bias_witness :
  ConceptAwareness.init 0 4 2 false None false true (fun k => INR k) (fun _ => 0%R) =
    Err ZeroDivisionError /\
  exists l,
    ConceptAwareness.init 5 4 2 false (Some 0%Z) false true (fun k => INR k) (fun _ => 0%R) =
      Ok l /\
    ConceptAwareness.shrink l = true.
Proof.
  split.
  - apply (init_with_bias 0 4 2 false None false (fun k => INR k) (fun _ => 0%R)).
    reflexivity.
  - destruct (proj2 (init_with_bias 5 4 2 false (Some 0%Z) false
                       (fun k => INR k) (fun _ => 0%R)) ltac:(cbn; lia))
      as (l & E & _ & _ & _ & _ & _ & _ & _ & Hs).
    exists l. split; [exact E | exact Hs].
Defined.

Lemma forward_feature_mismatch_raises_witness :
  fst (ConceptAwareness.forward wide_input (demo_layer true false true)) =
    Err RuntimeError /\
  ConceptAwareness.concepts
    (snd (ConceptAwareness.forward wide_input (demo_layer true false true))) =
    Some (promoted wide_input).
Proof.
  apply (forward_feature_mismatch_raises (demo_layer true false true) wide_input 4 0 5).
  - apply demo_layer_well_shaped.
  - left. reflexivity.
  - cbn. lia.
  - intros _. cbn. lia.
Defined.

Lemma forward_shrink_broadcasts_single_feature_witness :
  exists t,
    fst (ConceptAwareness.forward single_feature_input (demo_layer true false true)) = Ok t /\
    shape t = [2; 4; 3].
Proof.
  apply (forward_shrink_broadcasts_single_feature
           (demo_layer true false true) single_feature_input 4).
  - apply demo_layer_well_shaped.
  - reflexivity.
  - reflexivity.
  - cbn. lia.
  - left. reflexivity.
Defined.

Lemma forward_vector_input_witness :
  (exists t,
     fst (ConceptAwareness.forward vector_input (demo_layer false false true)) = Ok t /\
     shape t = [2; 2; 3]) /\
  (exists t,
     fst (ConceptAwareness.forward vector_input (demo_layer true false true)) = Ok t /\
     shape t = [2; 1; 3]).
Proof.
  split.
  - apply (forward_vector_input (demo_layer false false true) vector_input).
    + apply demo_layer_well_shaped.
    + reflexivity.
    + reflexivity.
    + discriminate.
  - apply (forward_vector_input (demo_layer true false true) vector_input).
    + apply demo_layer_well_shaped.
    + reflexivity.
    + reflexivity.
    + intros _. cbn. lia.
Defined.

Lemma small_layer_well_shaped top : well_shaped (small_layer top).
Proof. split; [reflexivity|]. exists b212. split; reflexivity. Qed.

Lemma forward_linear_map_witness :
  exists t,
    fst (ConceptAwareness.forward m23 (small_layer true)) = Ok t /\
    get t [1; 1] =
    sadd (ssum (map (fun i => smul (input_at m23 1 0 i) (get w223 [1; 1; i])) (seq 0 3)))
         (get b212 [1; 0; 1]).
Proof.
  destruct (forward_linear_map (small_layer true) m23 b212 2
              (small_layer_well_shaped true) eq_refl eq_refl
              (or_introl eq_refl) ltac:(intros _; cbn; lia))
    as (t & Et & Vt).
  exists t. split; [exact Et|].
  apply (Vt 1 0 1); cbn; lia.
Defined.

Lemma forward_gated_linear_map_witness :
  exists t beta,
    fst (ConceptAwareness.forward demo_input (demo_layer true false true)) = Ok t /\
    ConceptAwareness.beta
      (snd (ConceptAwareness.forward demo_input (demo_layer true false true))) =
      Some beta /\
    get t [1; 3; 2] =
    sadd (ssum (map (fun i => smul (smul (input_at demo_input 1 3 i) (get beta [1; i]))
                                   (get demo_weight [1; 2; i]))
                    (seq 0 2)))
         (get demo_bias [1; 0; 2]).
Proof.
  destruct (forward_gated_linear_map (demo_layer true false true) demo_input demo_bias 4
              (demo_layer_well_shaped true false) eq_refl eq_refl
              ltac:(cbn; lia) (or_introl eq_refl) ltac:(discriminate))
    as (t & beta & Et & Eb & Vt).
  exists t, beta. split; [exact Et|]. split; [exact Eb|].
  apply (Vt 1 3 2); cbn; lia.
Defined.

Lemma sequential_stack_shape_witness :
  exists t,
    Sequential.returned
      (Sequential.forward sigmoid
         (map Sequential.MConceptAwareness [demo_layer true false true; next_layer])
         (demo_input, demo_labels) false) = Ok t /\
    shape t = [2; 4; 1].
Proof.
  apply (sequential_stack_shape sigmoid [demo_layer true false true; next_layer]
           2 2 4 demo_input demo_labels false).
  - cbn. repeat split; try reflexivity; try (intros _; lia); try discriminate.
    + exists demo_bias. split; reflexivity.
    + eexists. split; reflexivity.
  - discriminate.
  - left. reflexivity.
Defined.

Lemma attention_forward_stores_scores_witness :
  snd (Attention.forward demo_input3 demo_labels demo_attention) = demo_attention /\
  raises (fst (Attention.forward demo_input3 demo_labels demo_attention)).
Proof.
  apply (attention_forward_stores_scores demo_attention demo_input3 demo_labels).
  exists RuntimeError. reflexivity.
Defined.

Lemma attention_forward_shape_witness :
  (exists t,
     fst (Attention.forward demo_input demo_labels demo_attention) = Ok t /\
     shape t = [2; 4; 3]) /\
  (exists t,
     fst (Attention.forward one_sample one_label demo_attention) = Ok t /\
     shape t = [2; 2; 3]).
Proof.
  split.
  - apply (attention_forward_shape demo_attention demo_input demo_labels 4).
    + apply demo_attention_well_shaped.
    + split; [left; split; reflexivity | reflexivity].
    + cbn. lia.
    + cbn. lia.
    + lia.
  - apply (attention_forward_shape demo_attention one_sample one_label 1).
    + apply demo_attention_well_shaped.
    + split; [left; split; reflexivity | reflexivity].
    + cbn. lia.
    + cbn. lia.
    + lia.
Defined.

Lemma attention_label_batch_mismatch_witness :
  fst (Attention.forward demo_input three_labels demo_attention) = Err RuntimeError /\
  snd (Attention.forward demo_input three_labels demo_attention) = demo_attention.
Proof.
  apply (attention_label_batch_mismatch demo_attention demo_input three_labels 4 3).
  - apply demo_attention_well_shaped.
  - left. split; reflexivity.
  - reflexivity.
  - lia.
  - lia.
  - lia.
Defined.

Lemma attention_first_on_class_input_witness :
  fst (Attention.forward demo_input3 demo_labels demo_attention) = Err RuntimeError /\
  snd (Attention.forward demo_input3 demo_labels demo_attention) = demo_attention.
Proof.
  apply (attention_first_on_class_input demo_attention demo_input3 demo_labels 4).
  - apply demo_attention_well_shaped.
  - reflexivity.
  - reflexivity.
  - reflexivity.
Defined.

Lemma alpha_is_distribution_witness :
  exists a,
    ConceptAwareness.alpha
      (snd (ConceptAwareness.forward demo_input (demo_layer true false true))) = Some a /\
    ssum (map (fun i => get a [1; i]) (seq 0 2)) = 1%R.
Proof.
  destruct (alpha_is_distribution (demo_layer true false true) demo_input 2 3 2
              eq_refl eq_refl ltac:(lia))
    as (a & Ea & _ & Va).
  exists a. split; [exact Ea|].
  apply (Va 1). lia.
Defined.

Lemma attention_scores_are_distribution_witness :
  exists s,
    Attention.attn_scores_softmax
      (snd (Attention.forward demo_input demo_labels demo_attention)) = Some s /\
    ssum (map (fun i => get s [1; 0; i]) (seq 0 2)) = 1%R.
Proof.
  destruct (attention_scores_are_distribution demo_attention demo_input demo_labels 4
              demo_attention_well_shaped
              (conj (or_introl (conj eq_refl eq_refl)) eq_refl)
              ltac:(cbn; lia) ltac:(lia))
    as (s & Es & _ & Vs).
  exists s. split; [exact Es|].
  apply (Vs 1). cbn. lia.
Defined.

Lemma forward_view_reads_row_major_witness :
  exists t v,
    fst (ConceptAwareness.forward demo_input (demo_layer1 false false)) = Ok t /\
    forward_view (demo_layer1 false false) demo_input = Ok v /\
    shape v = [4; 2] /\
    get v [1; 0] = get t [0; 2; 0].
Proof.
  destruct (forward_view_reads_row_major (demo_layer1 false false) demo_input 4
              (demo_layer1_well_shaped false false) (or_introl eq_refl)
              eq_refl eq_refl ltac:(discriminate) ltac:(cbn; lia) ltac:(lia))
    as (t & v & Et & Ev & Hv & Vv).
  exists t, v. repeat (split; [assumption|]).
  apply (Vv 1 0); cbn; lia.
Defined.

Lemma extra_repr_injective_witness :
  ConceptAwareness.in_features (demo_layer true false true) =
    ConceptAwareness.in_features (demo_layer true false false) /\
  ConceptAwareness.out_features (demo_layer true false true) =
    ConceptAwareness.out_features (demo_layer true false false) /\
  ConceptAwareness.n_classes (demo_layer true false true) =
    ConceptAwareness.n_classes (demo_layer true false false) /\
  ConceptAwareness.shrink (demo_layer true false true) =
    ConceptAwareness.shrink (demo_layer true false false) /\
  ConceptAwareness.top (demo_layer true false true) =
    ConceptAwareness.top (demo_layer true false false).
Proof.
  apply (extra_repr_injective (demo_layer true false true) (demo_layer true false false)).
  reflexivity.
Defined.

Lemma forward_top_needs_a_class_witness :
  raises (fst (ConceptAwareness.forward demo_input no_class_layer)).
Proof.
  apply (forward_top_needs_a_class no_class_layer demo_input); reflexivity.
Defined.
